(** * VynixC bot API: command registry, dispatch and persistence

    A shallow embedding of [src/vynixc_bot.js] (classes [BotManager] and
    [CommandProxy]) and the properties of its specification.

    Conventions of the embedding:
    - a JavaScript string is a [string]; [toLowerCase] is modelled on the
      ASCII letters, other characters are left as they are;
    - a JavaScript [Map] is an association list in insertion order
      ([JsMap]): the program iterates its maps ([getBotByToken],
      [Array.from(map.values())]), so the order is part of the data;
    - every method is a computation over the [World]: the two in-memory
      maps, the files of the data directory and a trace of the effects the
      outside can observe (console lines, callback calls, webhook posts,
      console and shell executions);
    - a [throw] leaves the world as it is at that point and carries the
      thrown JavaScript value;
    - [nowISO()] and [generateToken()] are read from the environment: their
      result is an argument of the method that calls them. *)

From Stdlib Require Import String Ascii List Bool Arith NArith ZArith Lia.
From Stdlib Require Import DecimalString DecimalPos DecimalN.
Import ListNotations.
Local Open Scope string_scope.
Local Open Scope list_scope.

Set Implicit Arguments.

(** ** Strings *)

(** One character of [String.prototype.toLowerCase], ASCII range. *)
Definition lower_ascii (c : ascii) : ascii :=
  let n := nat_of_ascii c in
  if ((65 <=? n)%nat && (n <=? 90)%nat)%bool then ascii_of_nat (n + 32) else c.

Fixpoint toLowerCase (s : string) : string :=
  match s with
  | EmptyString => EmptyString
  | String c s' => String (lower_ascii c) (toLowerCase s')
  end.

(** [s.replace(/^\/+/, '')]: the longest run of slashes at the start of
    [s] is removed. *)
Fixpoint replace_leading_slashes (s : string) : string :=
  match s with
  | String "/"%char s' => replace_leading_slashes s'
  | _ => s
  end.

(** The expression [x.replace(/^\/+/, '').toLowerCase()], which
    [createCommand] and [handlePlayerCommand] apply to a command name. *)
Definition normalize (s : string) : string :=
  toLowerCase (replace_leading_slashes s).

(** Truthiness of a string: only the empty string is falsy. *)
Definition truthy_string (s : string) : bool :=
  match s with EmptyString => false | _ => true end.

(** [x || null] for [x] a string, [null] or [undefined]. *)
Definition or_null (x : option string) : option string :=
  match x with
  | Some s => if truthy_string s then Some s else None
  | None => None
  end.

(** ** JavaScript values that reach the methods as arguments *)

Inductive JsValue : Type :=
| JsUndefined
| JsNull
| JsBool (b : bool)
| JsNumber (z : Z)            (* an integer-valued number *)
| JsString (s : string).

(** [!v] is [negb (truthy v)]. *)
Definition truthy (v : JsValue) : bool :=
  match v with
  | JsUndefined | JsNull => false
  | JsBool b => b
  | JsNumber z => negb (Z.eqb z 0)
  | JsString s => truthy_string s
  end.

(** [typeof v === 'string'] *)
Definition is_string (v : JsValue) : bool :=
  match v with JsString _ => true | _ => false end.

(** [String(v)]; a number is an integer below 1e21 in absolute value,
    which prints as its decimal digits. *)
Definition String_ (v : JsValue) : string :=
  match v with
  | JsUndefined => "undefined"
  | JsNull => "null"
  | JsBool true => "true"
  | JsBool false => "false"
  | JsNumber z => NilZero.string_of_int (Z.to_int z)
  | JsString s => s
  end.

(** A number as [nextId] holds it: a natural number or [NaN]. The
    arithmetic below is the exact one, which is that of the doubles up to
    2^53. *)
Inductive JsNum : Type :=
| Fin (n : N)
| NaN.

Definition num_to_string (x : JsNum) : string :=
  match x with
  | Fin n => NilZero.string_of_uint (N.to_uint n)
  | NaN => "NaN"
  end.

(** [Number(s)] on the ids the program writes: a string of decimal digits
    is its value (the empty string is 0); any other string counts as [NaN]
    here. *)
Definition Number_ (s : string) : JsNum :=
  match NilEmpty.uint_of_string s with
  | Some u => Fin (N.of_uint u)
  | None => NaN
  end.

(** [x + 1], [x++] and [Math.max(x, y)] on [JsNum]. *)
Definition num_succ (x : JsNum) : JsNum :=
  match x with Fin n => Fin (n + 1) | NaN => NaN end.

Definition Math_max (x y : JsNum) : JsNum :=
  match x, y with
  | Fin a, Fin b => Fin (N.max a b)
  | _, _ => NaN
  end.

(** ** [Map]: string keys, insertion order *)

Module JsMap.
Section Ops.
Variable V : Type.

Definition t := list (string * V).

Definition empty : t := [].

Fixpoint get (k : string) (m : t) : option V :=
  match m with
  | [] => None
  | (k', v) :: m' => if String.eqb k k' then Some v else get k m'
  end.

Definition has (k : string) (m : t) : bool :=
  match get k m with Some _ => true | None => false end.

(** [m.set(k, v)]: an existing key keeps its place, a new one goes last. *)
Fixpoint set (k : string) (v : V) (m : t) : t :=
  match m with
  | [] => [(k, v)]
  | (k', v') :: m' =>
      if String.eqb k k' then (k', v) :: m' else (k', v') :: set k v m'
  end.

Fixpoint delete (k : string) (m : t) : t :=
  match m with
  | [] => []
  | (k', v') :: m' =>
      if String.eqb k k' then delete k m' else (k', v') :: delete k m'
  end.

Definition keys (m : t) : list string := map fst m.
Definition values (m : t) : list V := map snd m.

End Ops.
End JsMap.

Arguments JsMap.empty {V}.

(** ** Data model *)

(** The bot object of [BotManager.createBot]. *)
Module Bot.
Record t : Type := mk {
  id : string;
  name : string;
  token : string;
  role : string;
  webhook : option string;       (* [None] is [null] *)
  commands : list string;
  created_at : string
}.

(** [bot.commands = cs], the other fields kept. *)
Definition with_commands (cs : list string) (b : t) : t :=
  mk (id b) (name b) (token b) (role b) (webhook b) cs (created_at b).
End Bot.

(** The command object [meta] of [CommandProxy.createCommand]. *)
Module Meta.
Record t : Type := mk {
  command : string;
  description : string;
  ownerId : string;
  callback : option string;      (* [None] is [null] *)
  webhook : bool;
  created_at : string
}.
End Meta.

(** The argument object of [createCommand]. *)
Module CreateCommand.
Record t : Type := mk {
  token : string;
  command : JsValue;
  description : string;
  callback : option string;
  webhook : bool                 (* the truthiness [!!webhook] *)
}.
End CreateCommand.

(** The argument object of [handlePlayerCommand]. *)
Module PlayerCommand.
Record t : Type := mk {
  playerId : JsValue;
  playerName : string;
  commandName : JsValue;
  args : list string
}.
End PlayerCommand.

(** What [callCallback] receives next to the callback name. *)
Record CallbackPayload : Type := {
  cb_playerId : JsValue;
  cb_playerName : string;
  cb_args : list string;
  cb_meta : Meta.t
}.

(** The body of the webhook POST. *)
Record WebhookPayload : Type := {
  wh_event : string;
  wh_command : string;
  wh_playerId : JsValue;
  wh_playerName : string;
  wh_args : list string;
  wh_meta : Meta.t;
  wh_timestamp : string
}.

(** ** Thrown values and completions *)

(** A value a JavaScript [throw] or a rejected promise carries. *)
Inductive Thrown : Type :=
| Error_ (message : string)   (* [new Error(message)] *)
| ThrownValue                 (* any other value that is not nullish *)
| ThrownUndefined
| ThrownNull.

Inductive Completion (A : Type) : Type :=
| Normal (a : A)
| Throw (e : Thrown).

Arguments Normal {A} a.
Arguments Throw {A} e.

(** The errors of the specification, as the source throws them. *)
Definition InvalidToken : Thrown := Error_ "Invalid bot token".
Definition InvalidName : Thrown := Error_ "Invalid command".
Definition DuplicateName : Thrown := Error_ "Command already exists".
Definition PermissionDenied : Thrown := Error_ "Bot permission denied".
Definition ExecutionError (msg : string) : Thrown :=
  Error_ ("Exec error: " ++ msg).

(** ** The files of the data directory *)

(** [vynixc_commands.json] by its top-level keys; [None] is a key the
    document does not have (or, for [nextId], holds [null]). The entities
    are kept as records: [JSON.parse (JSON.stringify x)] gives back every
    field of a bot or a command (strings, [null], booleans, arrays of
    strings). *)
Record JsonDoc : Type := {
  doc_nextId : option N;
  doc_bots : option (list Bot.t);
  doc_commands : option (list Meta.t)
}.

(** [vynixc_data.sqlite]: the rows of [bots(id, json)] and
    [commands(name, json)] in rowid order. A table that was never created
    reads as an empty one, every access creates it first. *)
Record Sqlite : Type := {
  tbl_bots : list (string * Bot.t);
  tbl_commands : list (string * Meta.t)
}.

Record Disk : Type := {
  JSON_DB : option JsonDoc;      (* [None]: the file does not exist *)
  SQLITE_DB : option Sqlite
}.

(** [REPLACE INTO tbl VALUES (k, v)] on a table with primary key [k]: the
    row in conflict is deleted and the new row is added. *)
Definition replace_into {V : Type} (k : string) (v : V)
    (tbl : list (string * V)) : list (string * V) :=
  JsMap.delete k tbl ++ [(k, v)].

(** ** Observable effects *)

Inductive Level : Type := Info | Warn | Err.

Inductive Event : Type :=
| EvLog (lvl : Level) (parts : list string)
| EvCallback (name : string) (payload : CallbackPayload)
| EvFetch (url : string) (body : WebhookPayload)
| EvCurl (url : string) (body : WebhookPayload)
| EvConsole (cmd : string)
| EvShell (cmd : string).

(** ** The world and the host *)

Record World : Type := {
  bots : JsMap.t Bot.t;          (* [BotManager.bots] *)
  nextId : JsNum;                (* [BotManager.nextId] *)
  commands : JsMap.t Meta.t;     (* [CommandProxy.commands] *)
  disk : Disk;
  trace : list Event
}.

Definition set_bots (x : JsMap.t Bot.t) (w : World) : World :=
  Build_World x (nextId w) (commands w) (disk w) (trace w).
Definition set_nextId (x : JsNum) (w : World) : World :=
  Build_World (bots w) x (commands w) (disk w) (trace w).
Definition set_commands (x : JsMap.t Meta.t) (w : World) : World :=
  Build_World (bots w) (nextId w) x (disk w) (trace w).
Definition set_disk (x : Disk) (w : World) : World :=
  Build_World (bots w) (nextId w) (commands w) x (trace w).
Definition set_trace (x : list Event) (w : World) : World :=
  Build_World (bots w) (nextId w) (commands w) (disk w) x.

(** The optional members of the runtime object [kainure]; [None] is a
    member that is not a function. *)
Record Kainure : Type := {
  execConsoleCommand : option (string -> Completion string);
  callCallback : option (string -> CallbackPayload -> Completion unit)
}.

(** What the process finds around it: the optional modules, the network,
    the shell and the runtime object handed to [CommandProxy]. *)
Record Host : Type := {
  sqlite3 : bool;                (* [require('sqlite3')] succeeded *)
  fetchAPI : option (string -> WebhookPayload -> Completion unit);
  curl : string -> WebhookPayload -> Completion unit;
  execSync : string -> Completion string;
  kainure : option Kainure
}.

(** ** Computations *)

(** A method body: it reads and writes the world and completes normally or
    by a throw. The world a throw leaves is the world at the throw. *)
Definition M (A : Type) : Type := World -> Completion A * World.

Definition ret {A : Type} (a : A) : M A := fun w => (Normal a, w).

Definition throw {A : Type} (e : Thrown) : M A := fun w => (Throw e, w).

Definition bind {A B : Type} (c : M A) (k : A -> M B) : M B :=
  fun w =>
    match c w with
    | (Normal a, w') => k a w'
    | (Throw e, w') => (Throw e, w')
    end.

(** [try { c } catch (e) { h e }] *)
Definition try_catch {A : Type} (c : M A) (h : Thrown -> M A) : M A :=
  fun w =>
    match c w with
    | (Normal a, w') => (Normal a, w')
    | (Throw e, w') => h e w'
    end.

Definition gets {A : Type} (f : World -> A) : M A :=
  fun w => (Normal (f w), w).

Definition modify (f : World -> World) : M unit :=
  fun w => (Normal tt, f w).

(** The completion of a call that leaves the program. *)
Definition lift {A : Type} (c : Completion A) : M A := fun w => (c, w).

Definition emit (ev : Event) : M unit :=
  modify (fun w => set_trace (trace w ++ [ev]) w).

Declare Scope js_scope.
Delimit Scope js_scope with js.
Notation "x <- c ;; k" := (bind c (fun x => k))
  (at level 61, c at next level, right associativity) : js_scope.
Notation "c ;; k" := (bind c (fun _ => k))
  (at level 61, right associativity) : js_scope.
Local Open Scope js_scope.

Definition logInfo (parts : list string) : M unit := emit (EvLog Info parts).
Definition logWarn (parts : list string) : M unit := emit (EvLog Warn parts).
Definition logErr (parts : list string) : M unit := emit (EvLog Err parts).

(** [e.message]: [undefined] on a value without the property, a
    [TypeError] on [undefined] and [null]. *)
Definition message (e : Thrown) : M (option string) :=
  match e with
  | Error_ m => ret (Some m)
  | ThrownValue => ret None
  | ThrownUndefined =>
      throw (Error_ "Cannot read properties of undefined (reading 'message')")
  | ThrownNull =>
      throw (Error_ "Cannot read properties of null (reading 'message')")
  end.

(** How [console.log] prints a message that may be [undefined]. *)
Definition show (m : option string) : string :=
  match m with Some s => s | None => "undefined" end.

(** The string a value of type ['string'] holds. *)
Definition the_string (v : JsValue) : string :=
  match v with JsString s => s | _ => "" end.

(** [xs.includes(x)] on strings *)
Definition includes (xs : list string) (x : string) : bool :=
  existsb (String.eqb x) xs.

Section Program.
Variable host : Host.

(** *** BotManager *)

(** [saveToStorage]: the table [bots] gets one REPLACE per bot; without
    sqlite the JSON file is overwritten with [{nextId, bots}]. The file
    system is taken to work, the [catch] branch is never entered. *)
Definition saveToStorage : M unit :=
  fun w =>
    if sqlite3 host then
      let db := match SQLITE_DB (disk w) with
                | Some db => db
                | None => Build_Sqlite [] []
                end in
      let rows := fold_left (fun tbl '(id, bot) => replace_into id bot tbl)
                            (bots w) (tbl_bots db) in
      (Normal tt,
       set_disk (Build_Disk (JSON_DB (disk w))
                            (Some (Build_Sqlite rows (tbl_commands db)))) w)
    else
      let obj := Build_JsonDoc
                   (match nextId w with Fin n => Some n | NaN => None end)
                   (Some (JsMap.values (bots w)))
                   None in
      (Normal tt, set_disk (Build_Disk (Some obj) (SQLITE_DB (disk w))) w).

(** [obj.nextId || 1] *)
Definition nextId_or_1 (x : option N) : JsNum :=
  match x with
  | Some n => if N.eqb n 0 then Fin 1 else Fin n
  | None => Fin 1
  end.

(** [for (const bot of list) this.bots.set(bot.id, bot)] *)
Definition set_all_bots (l : list Bot.t) (m : JsMap.t Bot.t) : JsMap.t Bot.t :=
  fold_left (fun m bot => JsMap.set (Bot.id bot) bot m) l m.

(** [loadFromStorage]; the rows of the sqlite query are taken to arrive
    before the next method runs. *)
Definition loadFromStorage : M unit :=
  fun w =>
    match (if sqlite3 host then SQLITE_DB (disk w) else None) with
    | Some db =>
        let rows := map snd (tbl_bots db) in
        let nid := fold_left
                     (fun nid bot =>
                        Math_max nid (num_succ (Number_ (Bot.id bot))))
                     rows (nextId w) in
        (Normal tt, set_nextId nid (set_bots (set_all_bots rows (bots w)) w))
    | None =>
        match JSON_DB (disk w) with
        | Some obj =>
            let l := match doc_bots obj with Some l => l | None => [] end in
            (Normal tt,
             set_bots (set_all_bots l (bots w))
                      (set_nextId (nextId_or_1 (doc_nextId obj)) w))
        | None => (Normal tt, w)
        end
    end.

(** [new BotManager()], without its timer. *)
Definition new_BotManager : M unit :=
  modify (fun w => set_nextId (Fin 1) (set_bots JsMap.empty w)) ;;
  loadFromStorage.

(** [createBot({name, role, webhook})]; [tok] is what [generateToken()]
    returns and [now] what [nowISO()] returns. *)
Definition createBot (name : string) (role : option string)
    (webhook : option string) (tok now : string) : M Bot.t :=
  nid <- gets nextId ;;
  let id := num_to_string nid in
  modify (set_nextId (num_succ nid)) ;;
  let bot := Bot.mk id name tok
               (match role with Some r => r | None => "command_creator" end)
               (or_null webhook) [] now in
  modify (fun w => set_bots (JsMap.set id bot (bots w)) w) ;;
  saveToStorage ;;
  ret bot.

Definition getBotById (id : string) (w : World) : option Bot.t :=
  JsMap.get id (bots w).

Definition getBotByToken (tok : string) (w : World) : option Bot.t :=
  find (fun b => String.eqb (Bot.token b) tok) (JsMap.values (bots w)).

(** The bot stored under [botId] is the object the method changes. *)
Definition attachCommandToBot (botId commandName : string) : M bool :=
  bot <- gets (getBotById botId) ;;
  match bot with
  | None => ret false
  | Some bot =>
      (if negb (includes (Bot.commands bot) commandName)
       then modify (fun w =>
              set_bots (JsMap.set botId
                          (Bot.with_commands (Bot.commands bot ++ [commandName]) bot)
                          (bots w)) w)
       else ret tt) ;;
      saveToStorage ;;
      ret true
  end.

Definition removeCommandFromBot (botId commandName : string) : M bool :=
  bot <- gets (getBotById botId) ;;
  match bot with
  | None => ret false
  | Some bot =>
      modify (fun w =>
        set_bots (JsMap.set botId
                    (Bot.with_commands
                       (filter (fun c => negb (String.eqb c commandName))
                               (Bot.commands bot)) bot)
                    (bots w)) w) ;;
      saveToStorage ;;
      ret true
  end.

(** *** CommandProxy *)

(** [saveCommands]: one REPLACE per command, or the JSON file overwritten
    with [{commands}]. *)
Definition saveCommands : M unit :=
  fun w =>
    if sqlite3 host then
      let db := match SQLITE_DB (disk w) with
                | Some db => db
                | None => Build_Sqlite [] []
                end in
      let rows := fold_left (fun tbl '(name, c) => replace_into name c tbl)
                            (commands w) (tbl_commands db) in
      (Normal tt,
       set_disk (Build_Disk (JSON_DB (disk w))
                            (Some (Build_Sqlite (tbl_bots db) rows))) w)
    else
      let obj := Build_JsonDoc None None (Some (JsMap.values (commands w))) in
      (Normal tt, set_disk (Build_Disk (Some obj) (SQLITE_DB (disk w))) w).

(** [for (const c of list) this.commands.set(c.command, c)] *)
Definition set_all_commands (l : list Meta.t) (m : JsMap.t Meta.t)
    : JsMap.t Meta.t :=
  fold_left (fun m c => JsMap.set (Meta.command c) c m) l m.

Definition initPersistence : M unit :=
  fun w =>
    match (if sqlite3 host then SQLITE_DB (disk w) else None) with
    | Some db =>
        (Normal tt,
         set_commands (set_all_commands (map snd (tbl_commands db)) (commands w)) w)
    | None =>
        match JSON_DB (disk w) with
        | Some obj =>
            let l := match doc_commands obj with Some l => l | None => [] end in
            (Normal tt, set_commands (set_all_commands l (commands w)) w)
        | None => (Normal tt, w)
        end
    end.

(** [new CommandProxy(kainure, botManager)], without its timer and without
    the listener it leaves with the runtime. *)
Definition new_CommandProxy : M unit :=
  modify (set_commands JsMap.empty) ;;
  initPersistence.

Definition registerCommandInVynixC (commandName : string) : M unit :=
  logInfo ["Registering command in proxy:"; commandName].

(** [createCommand({token, command, description, callback, webhook})];
    [now] is what [nowISO()] returns. *)
Definition createCommand (a : CreateCommand.t) (now : string) : M Meta.t :=
  bot <- gets (getBotByToken (CreateCommand.token a)) ;;
  match bot with
  | None => throw (Error_ "Invalid bot token")
  | Some bot =>
      if negb (truthy (CreateCommand.command a))
         || negb (is_string (CreateCommand.command a))
      then throw (Error_ "Invalid command")
      else
        let command :=
          toLowerCase
            (replace_leading_slashes (the_string (CreateCommand.command a))) in
        has <- gets (fun w => JsMap.has command (commands w)) ;;
        if has then throw (Error_ "Command already exists")
        else
          let meta := Meta.mk command
                        (CreateCommand.description a)
                        (Bot.id bot)
                        (or_null (CreateCommand.callback a))
                        (CreateCommand.webhook a)
                        now in
          modify (fun w => set_commands (JsMap.set command meta (commands w)) w) ;;
          attachCommandToBot (Bot.id bot) command ;;
          registerCommandInVynixC command ;;
          saveCommands ;;
          ret meta
  end.

(** [getCommand(name)]: the key is [String(name).toLowerCase()]. *)
Definition getCommand (name : JsValue) (w : World) : option Meta.t :=
  JsMap.get (toLowerCase (String_ name)) (commands w).

Definition deleteCommand (name : JsValue) : M bool :=
  let name := toLowerCase (String_ name) in
  meta <- gets (fun w => JsMap.get name (commands w)) ;;
  match meta with
  | None => ret false
  | Some meta =>
      modify (fun w => set_commands (JsMap.delete name (commands w)) w) ;;
      removeCommandFromBot (Meta.ownerId meta) name ;;
      saveCommands ;;
      ret true
  end.

(** [this.kainure.execConsoleCommand] and [this.kainure.callCallback] when
    [this.kainure] is set and the member is a function. *)
Definition kainure_execConsoleCommand
    : option (string -> Completion string) :=
  match kainure host with Some k => execConsoleCommand k | None => None end.

Definition kainure_callCallback
    : option (string -> CallbackPayload -> Completion unit) :=
  match kainure host with Some k => callCallback k | None => None end.

Definition runCommandAsConsole (cmd : string) (tok : string) : M string :=
  bot <- gets (getBotByToken tok) ;;
  match bot with
  | None => throw (Error_ "Invalid bot token")
  | Some bot =>
      if negb (includes ["admin"; "executor"] (Bot.role bot))
         && negb (String.eqb (Bot.role bot) "admin")
      then throw (Error_ "Bot permission denied")
      else
        match kainure_execConsoleCommand with
        | Some exec => emit (EvConsole cmd) ;; lift (exec cmd)
        | None =>
            try_catch
              (emit (EvShell cmd) ;; lift (execSync host cmd))
              (fun e =>
                 m <- message e ;;
                 throw (Error_ ("Exec error: " ++
                                match or_null m with
                                | Some s => s
                                | None => "unknown"
                                end)))
        end
  end.

(** [_sendWebhook(url, payload)]: [fetch] when there is one, else the
    [curl] child process. *)
Definition _sendWebhook (url : string) (payload : WebhookPayload) : M unit :=
  match fetchAPI host with
  | Some fetch => emit (EvFetch url payload) ;; lift (fetch url payload)
  | None => emit (EvCurl url payload) ;; lift (curl host url payload)
  end.

(** [handlePlayerCommand({playerId, playerName, commandName, args})];
    [now] is what [nowISO()] returns for the webhook timestamp. *)
Definition handlePlayerCommand (ev : PlayerCommand.t) (now : string) : M bool :=
  let commandName :=
    toLowerCase
      (replace_leading_slashes (String_ (PlayerCommand.commandName ev))) in
  meta <- gets (getCommand (JsString commandName)) ;;
  match meta with
  | None => ret false
  | Some meta =>
      try_catch
        ((* 1) local callback *)
         match or_null (Meta.callback meta), kainure_callCallback with
         | Some cb, Some call =>
             let payload :=
               Build_CallbackPayload (PlayerCommand.playerId ev)
                 (PlayerCommand.playerName ev) (PlayerCommand.args ev) meta in
             try_catch
               (emit (EvCallback cb payload) ;; lift (call cb payload))
               (fun e =>
                  m <- message e ;;
                  logWarn ["Callback execution error for";
                           Meta.command meta; show m])
         | _, _ => ret tt
         end ;;
         (* 2) webhook *)
         (if Meta.webhook meta then
            bot <- gets (getBotById (Meta.ownerId meta)) ;;
            match bot with
            | Some bot =>
                match or_null (Bot.webhook bot) with
                | Some url =>
                    try_catch
                      (_sendWebhook url
                         (Build_WebhookPayload "command_trigger"
                            (Meta.command meta)
                            (PlayerCommand.playerId ev)
                            (PlayerCommand.playerName ev)
                            (PlayerCommand.args ev) meta now))
                      (fun e =>
                         m <- message e ;;
                         logWarn ["Webhook fail"; show m])
                | None => ret tt
                end
            | None => ret tt
            end
          else ret tt) ;;
         ret true)
        (fun e =>
           m <- message e ;;
           logErr ["Error handling player command"; show m] ;;
           ret false)
  end.

(** A process start: the two constructors in the order the host
    application has to call them. *)
Definition startup : M unit :=
  new_BotManager ;;
  new_CommandProxy.

End Program.

(** ** Saving and loading the full state *)

(** The full state is saved by the two writers, [saveToStorage] and then
    [saveCommands]: this is the order in which [createCommand] reaches them
    and in which the timers of the two constructors fire. *)
Definition save_all (host : Host) : M unit :=
  (saveToStorage host ;; saveCommands host)%js.

(** The other order, as when a bot is created after the last command. *)
Definition save_all_commands_first (host : Host) : M unit :=
  (saveCommands host ;; saveToStorage host)%js.

(** Saving, then a new process that loads what the data directory holds. *)
Definition save_then_load (host : Host) (w : World) : World :=
  snd (startup host (snd (save_all host w))).

(** Every definition is stored under its name ([createCommand] and the
    loaders do [commands.set(c.command, c)]). *)
Definition commands_keyed_by_name (w : World) : Prop :=
  forall k c, In (k, c) (commands w) -> Meta.command c = k.

(** Every key of the registry is a fixed point of the normalization
    ([createCommand] stores under [normalize raw]). *)
Definition registry_keys_normalized (w : World) : Prop :=
  forall k, In k (JsMap.keys (commands w)) -> normalize k = k.

(** ** Predicates of the specification *)

(** Identity [i] has [n] among its owned commands. *)
Definition owns (w : World) (i n : string) : Prop :=
  exists b, JsMap.get i (bots w) = Some b /\ In n (Bot.commands b).

(** The invariant of the data model: a name is in the registry if and only
    if exactly one identity has it among its owned commands. *)
Definition registry_in_sync (w : World) : Prop :=
  forall n,
    JsMap.has n (commands w) = true <-> exists! i, owns w i n.

(** Every bot is stored under its own id ([createBot] and the loaders do
    [bots.set(bot.id, bot)]). *)
Definition bots_keyed_by_id (w : World) : Prop :=
  forall k b, In (k, b) (bots w) -> Bot.id b = k.

(** The owner a definition records is the identity that owns its name, and
    an owned name has a definition that records this owner. *)
Definition owner_linked (w : World) : Prop :=
  (forall n m, JsMap.get n (commands w) = Some m -> owns w (Meta.ownerId m) n)
  /\ (forall i n, owns w i n ->
        exists m, JsMap.get n (commands w) = Some m /\ Meta.ownerId m = i).

Definition consistent (w : World) : Prop :=
  bots_keyed_by_id w /\ owner_linked w.

(** A computation that leaves the two maps and [nextId] as they are. *)
Definition keeps_maps {A : Type} (c : M A) : Prop :=
  forall w,
    bots (snd (c w)) = bots w
    /\ nextId (snd (c w)) = nextId w
    /\ commands (snd (c w)) = commands w.

(** Every id in use is the decimal string of a number below [nextId]. *)
Definition ids_below_nextId (w : World) : Prop :=
  exists n,
    nextId w = Fin n
    /\ forall k, In k (JsMap.keys (bots w)) ->
         exists j, (j < n)%N /\ k = num_to_string (Fin j).

(** What [attachCommandToBot] and [removeCommandFromBot] do to the map of
    bots. *)
Definition attach_bots (i c : string) (bs : JsMap.t Bot.t) : JsMap.t Bot.t :=
  match JsMap.get i bs with
  | None => bs
  | Some b =>
      if includes (Bot.commands b) c then bs
      else JsMap.set i (Bot.with_commands (Bot.commands b ++ [c]) b) bs
  end.

Definition remove_bots (i c : string) (bs : JsMap.t Bot.t) : JsMap.t Bot.t :=
  match JsMap.get i bs with
  | None => bs
  | Some b =>
      JsMap.set i
        (Bot.with_commands
           (filter (fun x => negb (String.eqb x c)) (Bot.commands b)) b) bs
  end.

(** The definition a successful [createCommand] stores and returns. *)
Definition new_meta (a : CreateCommand.t) (now : string) (bot : Bot.t)
    (raw : string) : Meta.t :=
  Meta.mk (normalize raw) (CreateCommand.description a) (Bot.id bot)
    (or_null (CreateCommand.callback a)) (CreateCommand.webhook a) now.

(** How the network answers the post [_sendWebhook] makes, and the event
    the post leaves in the trace. *)
Definition transport (host : Host) (url : string) (p : WebhookPayload)
    : Completion unit :=
  match fetchAPI host with
  | Some fetch => fetch url p
  | None => curl host url p
  end.

Definition post_event (host : Host) (url : string) (p : WebhookPayload)
    : Event :=
  match fetchAPI host with
  | Some _ => EvFetch url p
  | None => EvCurl url p
  end.

(** A thrown value a [catch] block can read [e.message] from. *)
Definition not_nullish (e : Thrown) : Prop :=
  e <> ThrownUndefined /\ e <> ThrownNull.

(** The effects in a trace that reach the callback or the network. *)
Definition is_callback (ev : Event) : bool :=
  match ev with EvCallback _ _ => true | _ => false end.

Definition is_webhook (ev : Event) : bool :=
  match ev with EvFetch _ _ | EvCurl _ _ => true | _ => false end.

(** ** Example hosts and worlds *)

(** A host without sqlite and without a runtime object; the network
    answers every post. *)
Definition host_json : Host :=
  Build_Host false (Some (fun _ _ => Normal tt)) (fun _ _ => Normal tt)
    (fun _ => Normal "") None.

(** The same host with the sqlite driver. *)
Definition host_sqlite : Host :=
  Build_Host true (Some (fun _ _ => Normal tt)) (fun _ _ => Normal tt)
    (fun _ => Normal "") None.

Definition empty_disk : Disk := Build_Disk None None.

(** A first start in an empty data directory. *)
Definition fresh_world : World :=
  Build_World JsMap.empty (Fin 1) JsMap.empty empty_disk [].

(** The worlds one process reaches from a first start in an empty data
    directory. *)
Inductive reachable (host : Host) : World -> Prop :=
| reach_fresh : reachable host fresh_world
| reach_createBot w name role webhook tok now :
    reachable host w ->
    reachable host (snd (createBot host name role webhook tok now w))
| reach_createCommand w a now :
    reachable host w ->
    reachable host (snd (createCommand host a now w))
| reach_deleteCommand w name :
    reachable host w ->
    reachable host (snd (deleteCommand host name w))
| reach_handlePlayerCommand w ev now :
    reachable host w ->
    reachable host (snd (handlePlayerCommand host ev now w))
| reach_runCommandAsConsole w cmd tok :
    reachable host w ->
    reachable host (snd (runCommandAsConsole host cmd tok w)).

Definition t0 : string := "2024-01-01T00:00:00.000Z".
Definition t1 : string := "2024-01-01T00:00:01.000Z".

(** [createBot({name: 'Shop', role: 'admin', webhook: 'http://x/hook'})] on
    the fresh world. *)
Definition shop_world (host : Host) : World :=
  snd (createBot host "Shop" (Some "admin") (Some "http://x/hook")
         "tok-shop" t0 fresh_world).

(** ... followed by
    [createCommand({token, command: '/VIP', webhook: true})]. *)
Definition vip_args : CreateCommand.t :=
  CreateCommand.mk "tok-shop" (JsString "/VIP") "" None true.

Definition vip_world (host : Host) : World :=
  snd (createCommand host vip_args t1 (shop_world host)).

(** Two requests of the shop bot whose names normalize to the empty
    string, and one with a token nobody has. *)
Definition slash_args : CreateCommand.t :=
  CreateCommand.mk "tok-shop" (JsString "/") "" None false.

Definition empty_args : CreateCommand.t :=
  CreateCommand.mk "tok-shop" (JsString "") "" None false.

Definition stranger_args : CreateCommand.t :=
  CreateCommand.mk "tok-nobody" (JsString "/VIP") "" None true.

Definition slash_world (host : Host) : World :=
  snd (createCommand host slash_args t1 (shop_world host)).

(** [createBot({name: 'Guest'})] on the fresh world: the default role. *)
Definition guest_world (host : Host) : World :=
  snd (createBot host "Guest" None None "tok-guest" t0 fresh_world).

(** A host whose runtime object has [callCallback], which completes every
    call with [c]. *)
Definition host_callback (c : Completion unit) : Host :=
  Build_Host false (Some (fun _ _ => Normal tt)) (fun _ _ => Normal tt)
    (fun _ => Normal "")
    (Some (Build_Kainure None (Some (fun _ _ => c)))).

(** The shop's command with a callback and the webhook enabled, and a
    player who types it. *)
Definition vip_callback_args : CreateCommand.t :=
  CreateCommand.mk "tok-shop" (JsString "/VIP") "" (Some "OnVipActivate") true.

Definition vip_callback_world (host : Host) : World :=
  snd (createCommand host vip_callback_args t1 (shop_world host)).

Definition vip_event : PlayerCommand.t :=
  PlayerCommand.mk (JsNumber 1) "Ann" (JsString "vip") [].

Definition vip_callback_meta : Meta.t :=
  Meta.mk "vip" "" "1" (Some "OnVipActivate") true t1.

Definition vip_callback_payload : CallbackPayload :=
  Build_CallbackPayload (JsNumber 1) "Ann" [] vip_callback_meta.

Definition vip_webhook_payload (now : string) : WebhookPayload :=
  Build_WebhookPayload "command_trigger" "vip" (JsNumber 1) "Ann" []
    vip_callback_meta now.

(** ** Listings and runtime listeners *)

(** The public view of a bot in [listBots]: no token, no commands. *)
Record BotView : Type := {
  bv_id : string;
  bv_name : string;
  bv_role : string;
  bv_webhook : option string;
  bv_created_at : string
}.

Definition bot_view (b : Bot.t) : BotView :=
  Build_BotView (Bot.id b) (Bot.name b) (Bot.role b) (Bot.webhook b)
    (Bot.created_at b).

Definition listBots (w : World) : list BotView :=
  map bot_view (JsMap.values (bots w)).

(** The view of a command in [listCommands]: no callback, no webhook
    flag. *)
Record CommandView : Type := {
  cv_command : string;
  cv_description : string;
  cv_ownerId : string;
  cv_created_at : string
}.

Definition command_view (c : Meta.t) : CommandView :=
  Build_CommandView (Meta.command c) (Meta.description c) (Meta.ownerId c)
    (Meta.created_at c).

Definition listCommands (w : World) : list CommandView :=
  map command_view (JsMap.values (commands w)).

(** White space of [trim()] and of [\s] among the ASCII characters: tab,
    line feed, vertical tab, form feed, carriage return, space. The other
    Unicode spaces (U+00A0, U+2028, U+FEFF, ...) are not characters of an
    ASCII string; what is proved through [is_ws] is stated for ASCII
    words. *)
Definition is_ws (c : ascii) : bool :=
  let n := nat_of_ascii c in
  ((9 <=? n)%nat && (n <=? 13)%nat)%bool || (n =? 32)%nat.

Fixpoint trimStart (s : string) : string :=
  match s with
  | String c s' => if is_ws c then trimStart s' else s
  | EmptyString => EmptyString
  end.

Fixpoint trimEnd (s : string) : string :=
  match s with
  | String c s' =>
      match trimEnd s' with
      | EmptyString => if is_ws c then EmptyString else String c EmptyString
      | r => String c r
      end
  | EmptyString => EmptyString
  end.

Definition trim (s : string) : string := trimEnd (trimStart s).

(** [s.split(/\s+/)]: [cur] is the piece being read, [in_ws] says that the
    last character was white space (the separator is a maximal run). *)
Fixpoint split_ws_from (cur : string) (in_ws : bool) (s : string)
    : list string :=
  match s with
  | EmptyString => [cur]
  | String c s' =>
      if is_ws c then
        if in_ws then split_ws_from cur true s'
        else cur :: split_ws_from EmptyString true s'
      else split_ws_from (String.append cur (String c EmptyString)) false s'
  end.

Definition split_ws (s : string) : list string :=
  split_ws_from EmptyString false s.

(** The words of [String(rawCmd || '').trim().split(/\s+/)]. *)
Definition command_parts (rawCmd : JsValue) : list string :=
  split_ws (trim (String_ (if truthy rawCmd then rawCmd else JsString ""))).

Section Listeners.
Variable host : Host.

(** The listener [_registerGlobalHandler] leaves with
    [kainure.on('playerCommand', ...)]; [data] is the event object by its
    four members. *)
Definition playerCommand_listener (data : PlayerCommand.t) (now : string)
    : M unit :=
  handlePlayerCommand host
    (PlayerCommand.mk (PlayerCommand.playerId data)
       (PlayerCommand.playerName data) (PlayerCommand.commandName data)
       (PlayerCommand.args data)) now ;;
  ret tt.

(** The listener it leaves with [kainure.registerCommandHandler]:
    [parts.shift()] is the first word, the other words are the
    arguments. *)
Definition commandHandler_listener (playerId : JsValue) (playerName : string)
    (rawCmd : JsValue) (now : string) : M unit :=
  let parts := command_parts rawCmd in
  let cmd := replace_leading_slashes (hd EmptyString parts) in
  let args := tl parts in
  handlePlayerCommand host
    (PlayerCommand.mk playerId playerName (JsString cmd) args) now ;;
  ret tt.

End Listeners.

(** The part of a table or map whose keys are not keys of [m]. *)
Definition rows_without {V W : Type} (m : list (string * W))
    (tbl : list (string * V)) : list (string * V) :=
  filter (fun row => negb (includes (map fst m) (fst row))) tbl.

(** A character of the ASCII range. *)
Definition is_ascii (c : ascii) : bool := (nat_of_ascii c <? 128)%nat.

(** A string of ASCII characters only. *)
Definition is_ascii_string (s : string) : Prop :=
  forall c, In c (list_ascii_of_string s) -> is_ascii c = true.

(** A word: not empty, ASCII characters only, no white space. *)
Definition is_word (s : string) : Prop :=
  s <> EmptyString
  /\ forall c, In c (list_ascii_of_string s) ->
       is_ascii c = true /\ is_ws c = false.

(** The body of the callback of [db.all("SELECT json FROM bots", ...)] in
    [loadFromStorage], for a query that succeeded with [rows]: whenever it
    runs, each row's bot is stored under its id and [nextId] is raised to
    [Number(bot.id) + 1] where that is larger. *)
Definition bots_rows_callback (rows : list Bot.t) : M unit :=
  modify (fun w =>
    set_nextId
      (fold_left
         (fun nid bot => Math_max nid (num_succ (Number_ (Bot.id bot))))
         rows (nextId w))
      (set_bots (set_all_bots rows (bots w)) w)).

(** A host whose network rejects every post with an [Error] and whose
    runtime hook runs console commands. *)
Definition host_offline : Host :=
  Build_Host false (Some (fun _ _ => Throw (Error_ "ECONNREFUSED")))
    (fun _ _ => Throw (Error_ "curl failed"))
    (fun _ => Throw (Error_ "spawn failed"))
    (Some (Build_Kainure (Some (fun cmd => Normal (String.append "ran " cmd))) None)).

(** * Properties *)

(** ** Strings *)

Lemma lower_ascii_idem (c : ascii) : lower_ascii (lower_ascii c) = lower_ascii c.
Proof.
  destruct c as [[|] [|] [|] [|] [|] [|] [|] [|]]; reflexivity.
Qed.

Lemma toLowerCase_idem (s : string) : toLowerCase (toLowerCase s) = toLowerCase s.
Proof.
  induction s as [|c s IH]; simpl; [reflexivity|].
  now rewrite lower_ascii_idem, IH.
Qed.

Lemma lower_ascii_slash (c : ascii) :
  lower_ascii c = "/"%char -> c = "/"%char.
Proof.
  destruct c as [[|] [|] [|] [|] [|] [|] [|] [|]]; vm_compute; congruence.
Qed.

(** Lowercasing creates no leading slash, so a normalized name is a fixed
    point of the normalization. *)
Lemma replace_leading_slashes_lower (s : string) :
  replace_leading_slashes (toLowerCase (replace_leading_slashes s))
  = toLowerCase (replace_leading_slashes s).
Proof.
  induction s as [|c s IH]; [reflexivity|].
  destruct (ascii_dec c "/"%char) as [->|Hc]; [exact IH|].
  assert (E : replace_leading_slashes (String c s) = String c s).
  { simpl. destruct c as [[|] [|] [|] [|] [|] [|] [|] [|]];
      try reflexivity. now elim Hc. }
  rewrite E. simpl toLowerCase.
  assert (Hl : lower_ascii c <> "/"%char)
    by (intro H; apply Hc; now apply lower_ascii_slash).
  simpl. destruct (lower_ascii c) as [[|] [|] [|] [|] [|] [|] [|] [|]];
    try reflexivity. now elim Hl.
Qed.

Lemma normalize_idem (s : string) : normalize (normalize s) = normalize s.
Proof.
  unfold normalize. now rewrite replace_leading_slashes_lower, toLowerCase_idem.
Qed.

Lemma normalize_lower (s : string) : toLowerCase (normalize s) = normalize s.
Proof. unfold normalize. apply toLowerCase_idem. Qed.

Lemma replace_leading_slashes_length (s : string) :
  String.length (replace_leading_slashes s) <= String.length s.
Proof.
  induction s as [|c s IH]; [apply le_n|].
  destruct (ascii_dec c "/"%char) as [->|Hc].
  - simpl. lia.
  - replace (replace_leading_slashes (String c s)) with (String c s);
      [apply le_n|].
    simpl. destruct c as [[|] [|] [|] [|] [|] [|] [|] [|]];
      try reflexivity. now elim Hc.
Qed.

(** A normalized name does not start with a slash. *)
Lemma normalize_no_leading_slash (s t : string) :
  normalize s <> String "/"%char t.
Proof.
  intros E. pose proof (replace_leading_slashes_lower s) as H.
  fold (normalize s) in H. rewrite E in H. simpl in H.
  pose proof (replace_leading_slashes_length t) as L.
  rewrite H in L. simpl in L. lia.
Qed.

Example normalize_vip :
  normalize "/Vip" = "vip" /\ normalize "vip" = "vip" /\ normalize "//VIP" = "vip".
Proof. repeat split. Qed.

(** ** Maps *)

Module JsMapFacts.
Section Facts.
Variable V : Type.
Implicit Types (m : JsMap.t V) (k : string) (v : V).

Lemma get_set_eq m k v : JsMap.get k (JsMap.set k v m) = Some v.
Proof.
  induction m as [|[k' v'] m IH]; simpl.
  - now rewrite String.eqb_refl.
  - destruct (String.eqb k k') eqn:E; simpl; rewrite E; [reflexivity|exact IH].
Qed.

Lemma get_set_neq m k k' v :
  k <> k' -> JsMap.get k' (JsMap.set k v m) = JsMap.get k' m.
Proof.
  intros Hk. induction m as [|[k0 v0] m IH]; simpl.
  - destruct (String.eqb k' k) eqn:E; [|reflexivity].
    apply String.eqb_eq in E. congruence.
  - destruct (String.eqb k k0) eqn:E; simpl.
    + apply String.eqb_eq in E. subst k0.
      destruct (String.eqb k' k) eqn:E'; [|reflexivity].
      apply String.eqb_eq in E'. congruence.
    + now rewrite IH.
Qed.

Lemma get_delete_eq m k : JsMap.get k (JsMap.delete k m) = None.
Proof.
  induction m as [|[k' v'] m IH]; simpl; [reflexivity|].
  destruct (String.eqb k k') eqn:E; simpl; [exact IH|now rewrite E].
Qed.

Lemma get_delete_neq m k k' :
  k <> k' -> JsMap.get k' (JsMap.delete k m) = JsMap.get k' m.
Proof.
  intros Hk. induction m as [|[k0 v0] m IH]; simpl; [reflexivity|].
  destruct (String.eqb k k0) eqn:E; simpl.
  - apply String.eqb_eq in E. subst k0.
    destruct (String.eqb k' k) eqn:E'; [|exact IH].
    apply String.eqb_eq in E'. congruence.
  - now rewrite IH.
Qed.

Lemma has_get m k : JsMap.has k m = true <-> exists v, JsMap.get k m = Some v.
Proof.
  unfold JsMap.has. destruct (JsMap.get k m) as [v|].
  - split; [eauto|reflexivity].
  - split; [discriminate|intros [v Hv]; discriminate].
Qed.

Lemma has_false m k : JsMap.has k m = false <-> JsMap.get k m = None.
Proof.
  unfold JsMap.has. destruct (JsMap.get k m); split; congruence.
Qed.

Lemma in_set m k v k' v' :
  In (k', v') (JsMap.set k v m) -> (k' = k /\ v' = v) \/ In (k', v') m.
Proof.
  induction m as [|[k0 v0] m IH]; simpl.
  - intros [H|[]]. left. now inversion H.
  - destruct (String.eqb k k0) eqn:E; simpl.
    + apply String.eqb_eq in E. subst k0.
      intros [H|H]; [left; now inversion H|right; now right].
    + intros [H|H]; [right; now left|].
      destruct (IH H) as [?|?]; [now left|right; now right].
Qed.

Lemma in_get m k v : In (k, v) m -> exists v', JsMap.get k m = Some v'.
Proof.
  induction m as [|[k0 v0] m IH]; simpl; [intros []|].
  intros [H|H]; destruct (String.eqb k k0) eqn:E; eauto.
  inversion H; subst. now rewrite String.eqb_refl in E.
Qed.

Lemma get_in m k v : JsMap.get k m = Some v -> In (k, v) m.
Proof.
  induction m as [|[k0 v0] m IH]; simpl; [discriminate|].
  destruct (String.eqb k k0) eqn:E.
  - apply String.eqb_eq in E. subst k0. intros H; inversion H. now left.
  - intros H. right. now apply IH.
Qed.

Lemma in_delete m k k' v' :
  In (k', v') (JsMap.delete k m) -> In (k', v') m.
Proof.
  induction m as [|[k0 v0] m IH]; simpl; [auto|].
  destruct (String.eqb k k0); simpl; intuition.
Qed.

Lemma in_keys m k : In k (JsMap.keys m) <-> exists v, In (k, v) m.
Proof.
  unfold JsMap.keys. rewrite in_map_iff. split.
  - intros ([k0 v0] & E & H). simpl in E. subst. eauto.
  - intros [v H]. exists (k, v). auto.
Qed.

Lemma get_singleton k0 v0 k v :
  JsMap.get k [(k0, v0)] = Some v -> k = k0 /\ v = v0.
Proof.
  simpl. destruct (String.eqb_spec k k0); [|discriminate].
  intros H. inversion H. auto.
Qed.

(** A key that is not there: [set] appends, [delete] does nothing. *)
Lemma set_fresh m k v :
  ~ In k (JsMap.keys m) -> JsMap.set k v m = m ++ [(k, v)].
Proof.
  induction m as [|[k0 v0] m IH]; simpl; [reflexivity|].
  intros H. destruct (String.eqb k k0) eqn:E.
  - apply String.eqb_eq in E. subst. elim H. now left.
  - f_equal. apply IH. intros Hin. apply H. now right.
Qed.

Lemma delete_fresh m k : ~ In k (JsMap.keys m) -> JsMap.delete k m = m.
Proof.
  induction m as [|[k0 v0] m IH]; simpl; [reflexivity|].
  intros H. destruct (String.eqb k k0) eqn:E.
  - apply String.eqb_eq in E. subst. elim H. now left.
  - f_equal. apply IH. intros Hin. apply H. now right.
Qed.

End Facts.
End JsMapFacts.

(** ** Frames: what the persistence and ownership methods leave alone *)

Ltac run :=
  unfold bind, gets, modify, ret, throw, emit, lift, try_catch,
    logInfo, logWarn, logErr; simpl.

Lemma World_eta (w : World) :
  Build_World (bots w) (nextId w) (commands w) (disk w) (trace w) = w.
Proof. now destruct w. Qed.

Lemma saveToStorage_frame (host : Host) (w : World) :
  exists d, saveToStorage host w = (Normal tt, set_disk d w).
Proof. unfold saveToStorage. destruct (sqlite3 host); eexists; reflexivity. Qed.

Lemma saveCommands_frame (host : Host) (w : World) :
  exists d, saveCommands host w = (Normal tt, set_disk d w).
Proof. unfold saveCommands. destruct (sqlite3 host); eexists; reflexivity. Qed.

Lemma attachCommandToBot_frame (host : Host) (i c : string) (w : World) :
  exists r d,
    attachCommandToBot host i c w
    = (Normal r,
       Build_World (attach_bots i c (bots w)) (nextId w) (commands w) d (trace w)).
Proof.
  unfold attachCommandToBot, attach_bots, getBotById. run.
  destruct (JsMap.get i (bots w)) as [b|].
  - destruct (includes (Bot.commands b) c); simpl;
      match goal with
      | |- context [saveToStorage host ?w1] =>
          destruct (saveToStorage_frame host w1) as [d ->]
      end; exists true, d; reflexivity.
  - exists false, (disk w). now rewrite World_eta.
Qed.

Lemma removeCommandFromBot_frame (host : Host) (i c : string) (w : World) :
  exists r d,
    removeCommandFromBot host i c w
    = (Normal r,
       Build_World (remove_bots i c (bots w)) (nextId w) (commands w) d (trace w)).
Proof.
  unfold removeCommandFromBot, remove_bots, getBotById. run.
  destruct (JsMap.get i (bots w)) as [b|].
  - match goal with
    | |- context [saveToStorage host ?w1] =>
        destruct (saveToStorage_frame host w1) as [d ->]
    end. exists true, d. reflexivity.
  - exists false, (disk w). now rewrite World_eta.
Qed.

(** ** createCommand: its four outcomes *)

Section CreateCommand.
Variable host : Host.
Variables (a : CreateCommand.t) (now : string) (w : World).

Lemma createCommand_invalid_token :
  getBotByToken (CreateCommand.token a) w = None ->
  createCommand host a now w = (Throw InvalidToken, w).
Proof. intros H. unfold createCommand. run. now rewrite H. Qed.

Lemma createCommand_invalid_name (bot : Bot.t) :
  getBotByToken (CreateCommand.token a) w = Some bot ->
  negb (truthy (CreateCommand.command a))
  || negb (is_string (CreateCommand.command a)) = true ->
  createCommand host a now w = (Throw InvalidName, w).
Proof. intros H Hn. unfold createCommand. run. now rewrite H, Hn. Qed.

Lemma createCommand_duplicate (bot : Bot.t) (raw : string) :
  getBotByToken (CreateCommand.token a) w = Some bot ->
  CreateCommand.command a = JsString raw ->
  raw <> "" ->
  JsMap.has (normalize raw) (commands w) = true ->
  createCommand host a now w = (Throw DuplicateName, w).
Proof.
  intros H Hc Hr Hh. unfold createCommand. run. rewrite H, Hc. simpl.
  destruct raw as [|c raw']; [congruence|]. simpl.
  unfold normalize in Hh. simpl in Hh. now rewrite Hh.
Qed.

Lemma createCommand_success (bot : Bot.t) (raw : string) :
  getBotByToken (CreateCommand.token a) w = Some bot ->
  CreateCommand.command a = JsString raw ->
  raw <> "" ->
  JsMap.has (normalize raw) (commands w) = false ->
  exists d,
    createCommand host a now w
    = (Normal (new_meta a now bot raw),
       Build_World
         (attach_bots (Bot.id bot) (normalize raw) (bots w))
         (nextId w)
         (JsMap.set (normalize raw) (new_meta a now bot raw) (commands w))
         d
         (trace w ++ [EvLog Info ["Registering command in proxy:"; normalize raw]])).
Proof.
  intros H Hc Hr Hh. unfold createCommand. run. rewrite H, Hc. simpl.
  destruct raw as [|c raw']; [congruence|]. simpl.
  unfold normalize in *. simpl in Hh. rewrite Hh.
  match goal with
  | |- context [attachCommandToBot host ?i ?n ?w1] =>
      destruct (attachCommandToBot_frame host i n w1) as (r & d1 & ->)
  end. simpl. unfold registerCommandInVynixC. run.
  match goal with
  | |- context [saveCommands host ?w1] =>
      destruct (saveCommands_frame host w1) as (d2 & ->)
  end.
  exists d2. reflexivity.
Qed.

(** A throw of [createCommand] is one of the three validation errors and
    leaves the world as it was. *)
Lemma createCommand_throw (e : Thrown) (w' : World) :
  createCommand host a now w = (Throw e, w') ->
  w' = w /\ (e = InvalidToken \/ e = InvalidName \/ e = DuplicateName).
Proof.
  destruct (getBotByToken (CreateCommand.token a) w) as [bot|] eqn:Ht.
  2:{ rewrite (createCommand_invalid_token Ht). intros E. inversion E. auto. }
  destruct (negb (truthy (CreateCommand.command a))
            || negb (is_string (CreateCommand.command a))) eqn:Hn.
  { rewrite (createCommand_invalid_name Ht Hn). intros E. inversion E. auto. }
  apply orb_false_elim in Hn. destruct Hn as [Hn1 Hn2].
  destruct (CreateCommand.command a) as [| |b|z|raw] eqn:Hc; try discriminate.
  assert (Hr : raw <> "") by (intros ->; discriminate).
  destruct (JsMap.has (normalize raw) (commands w)) eqn:Hh.
  - rewrite (createCommand_duplicate Ht Hc Hr Hh). intros E. inversion E. auto.
  - destruct (createCommand_success Ht Hc Hr Hh) as [d ->]. discriminate.
Qed.

End CreateCommand.

(** A normal completion of [createCommand] went through every check. *)
Lemma createCommand_normal (host : Host) (a : CreateCommand.t) (now : string)
    (w w' : World) (m : Meta.t) :
  createCommand host a now w = (Normal m, w') ->
  exists bot raw,
    getBotByToken (CreateCommand.token a) w = Some bot
    /\ CreateCommand.command a = JsString raw
    /\ raw <> ""
    /\ JsMap.has (normalize raw) (commands w) = false
    /\ m = new_meta a now bot raw
    /\ bots w' = attach_bots (Bot.id bot) (normalize raw) (bots w)
    /\ commands w' = JsMap.set (normalize raw) m (commands w).
Proof.
  destruct (getBotByToken (CreateCommand.token a) w) as [bot|] eqn:Ht.
  2:{ rewrite (createCommand_invalid_token host a now w Ht). discriminate. }
  destruct (negb (truthy (CreateCommand.command a))
            || negb (is_string (CreateCommand.command a))) eqn:Hn.
  { rewrite (createCommand_invalid_name host a now w Ht Hn). discriminate. }
  apply orb_false_elim in Hn. destruct Hn as [Hn1 Hn2].
  destruct (CreateCommand.command a) as [| |b|z|raw] eqn:Hc; try discriminate.
  assert (Hr : raw <> "") by (intros ->; discriminate).
  destruct (JsMap.has (normalize raw) (commands w)) eqn:Hh.
  - rewrite (createCommand_duplicate host a now w Ht Hc Hr Hh). discriminate.
  - destruct (createCommand_success host a now w Ht Hc Hr Hh) as [d ->].
    intros E. inversion E. subst. exists bot, raw. simpl. auto 10.
Qed.

(** ** C4: validation failures change nothing *)

(** C4. When the token resolves to no identity, [createCommand] throws the
    invalid-token error and the world, so also the size of the registry, is
    the one before the call; an empty or non-text name and a name already
    registered throw their own errors in the same way; and whatever
    [createCommand] throws, it is one of these three errors and the world
    (registry, identities, files, trace) is unchanged. *)
Theorem createCommand_failure_leaves_world (host : Host)
    (a : CreateCommand.t) (now : string) (w : World) :
  (getBotByToken (CreateCommand.token a) w = None ->
     createCommand host a now w = (Throw InvalidToken, w)
     /\ length (commands (snd (createCommand host a now w)))
        = length (commands w))
  /\ (forall bot,
        getBotByToken (CreateCommand.token a) w = Some bot ->
        negb (truthy (CreateCommand.command a))
        || negb (is_string (CreateCommand.command a)) = true ->
        createCommand host a now w = (Throw InvalidName, w))
  /\ (forall bot raw,
        getBotByToken (CreateCommand.token a) w = Some bot ->
        CreateCommand.command a = JsString raw ->
        raw <> "" ->
        JsMap.has (normalize raw) (commands w) = true ->
        createCommand host a now w = (Throw DuplicateName, w))
  /\ (forall e w',
        createCommand host a now w = (Throw e, w') ->
        w' = w /\ (e = InvalidToken \/ e = InvalidName \/ e = DuplicateName)).
Proof.
  repeat split.
  - now apply createCommand_invalid_token.
  - now rewrite (createCommand_invalid_token host a now w H).
  - intros bot. now apply createCommand_invalid_name.
  - intros bot raw. now apply createCommand_duplicate.
  - now apply (createCommand_throw host a now w H).
  - now apply (createCommand_throw host a now w H).
Qed.

Lemma createCommand_failure_leaves_world_witness :
  getBotByToken (CreateCommand.token stranger_args) (shop_world host_json) = None
  /\ createCommand host_json stranger_args t1 (shop_world host_json)
     = (Throw InvalidToken, shop_world host_json)
  /\ createCommand host_json empty_args t1 (shop_world host_json)
     = (Throw InvalidName, shop_world host_json)
  /\ createCommand host_json vip_args t0 (vip_world host_json)
     = (Throw DuplicateName, vip_world host_json)
  /\ (vip_world host_json = vip_world host_json
      /\ (DuplicateName = InvalidToken \/ DuplicateName = InvalidName
          \/ DuplicateName = DuplicateName)).
Proof.
  pose proof (createCommand_failure_leaves_world host_json stranger_args t1
                (shop_world host_json)) as (H1 & _).
  pose proof (createCommand_failure_leaves_world host_json empty_args t1
                (shop_world host_json)) as (_ & H2 & _).
  pose proof (createCommand_failure_leaves_world host_json vip_args t0
                (vip_world host_json)) as (_ & _ & H3 & H4).
  split; [reflexivity|].
  split; [apply H1; reflexivity|].
  split; [apply (H2 (Bot.mk "1" "Shop" "tok-shop" "admin"
                       (Some "http://x/hook") [] t0)); reflexivity|].
  split; [apply (H3 (Bot.mk "1" "Shop" "tok-shop" "admin"
                       (Some "http://x/hook") ["vip"] t0) "/VIP");
          [reflexivity|reflexivity|discriminate|reflexivity]|].
  apply H4. reflexivity.
Defined.

(** ** C10: a name made of slashes only *)

(** C10. The name check of [createCommand] looks at the raw name, so a
    non-empty name that consists of slashes only (such as ["/"]) passes it,
    normalizes to the empty string, and the call succeeds and registers the
    definition under the empty-string key. *)
Theorem createCommand_slashes_register_empty_name (host : Host)
    (a : CreateCommand.t) (now : string) (w : World) (bot : Bot.t)
    (raw : string) :
  getBotByToken (CreateCommand.token a) w = Some bot ->
  CreateCommand.command a = JsString raw ->
  raw <> "" ->
  replace_leading_slashes raw = "" ->
  JsMap.has "" (commands w) = false ->
  negb (truthy (CreateCommand.command a))
  || negb (is_string (CreateCommand.command a)) = false
  /\ exists meta w',
       createCommand host a now w = (Normal meta, w')
       /\ Meta.command meta = ""
       /\ JsMap.get "" (commands w') = Some meta.
Proof.
  intros Ht Hc Hr Hs Hh.
  assert (Hn : normalize raw = "") by (unfold normalize; now rewrite Hs).
  split.
  - rewrite Hc. destruct raw; [congruence|reflexivity].
  - rewrite <- Hn in Hh.
    destruct (createCommand_success host a now w Ht Hc Hr Hh) as [d E].
    eexists. eexists. split; [exact E|]. simpl. split; [exact Hn|].
    rewrite Hn. apply JsMapFacts.get_set_eq.
Qed.

Lemma createCommand_slashes_register_empty_name_witness :
  negb (truthy (CreateCommand.command slash_args))
  || negb (is_string (CreateCommand.command slash_args)) = false
  /\ exists meta w',
       createCommand host_json slash_args t1 (shop_world host_json)
       = (Normal meta, w')
       /\ Meta.command meta = ""
       /\ JsMap.get "" (commands w') = Some meta.
Proof.
  apply (createCommand_slashes_register_empty_name host_json slash_args t1
           (shop_world host_json)
           (bot := Bot.mk "1" "Shop" "tok-shop" "admin"
                     (Some "http://x/hook") [] t0)
           (raw := "/")).
  - reflexivity.
  - reflexivity.
  - discriminate.
  - reflexivity.
  - reflexivity.
Defined.

(** ** C5: a second creation under the same normalized name *)

(** C5, as stated, at the name ["/"] followed by the empty name, both of
    one bot: the two normalize to the empty string and the first creation
    succeeds, yet the second stops at the name check and throws the
    invalid-name error. *)
Lemma createCommand_second_name_empty :
  normalize "/" = normalize ""
  /\ createCommand host_json slash_args t1 (shop_world host_json)
     = (Normal (Meta.mk "" "" "1" None false t1), slash_world host_json)
  /\ createCommand host_json empty_args t1 (slash_world host_json)
     = (Throw InvalidName, slash_world host_json)
  /\ InvalidName <> DuplicateName.
Proof. repeat split. discriminate. Qed.

(** C5, amended. When a creation succeeds, a second creation whose name has
    the same normalized form fails and leaves the world as it is; the
    error is the duplicate-name error whenever the second call passes the
    two earlier checks, that is, its token resolves to an identity and its
    raw name is not empty. *)
Theorem createCommand_second_same_name (host : Host)
    (a1 a2 : CreateCommand.t) (now1 now2 : string) (w w1 : World)
    (m : Meta.t) (n1 n2 : string) :
  CreateCommand.command a1 = JsString n1 ->
  CreateCommand.command a2 = JsString n2 ->
  normalize n1 = normalize n2 ->
  createCommand host a1 now1 w = (Normal m, w1) ->
  (exists e, createCommand host a2 now2 w1 = (Throw e, w1))
  /\ (getBotByToken (CreateCommand.token a2) w1 <> None ->
      n2 <> "" ->
      createCommand host a2 now2 w1 = (Throw DuplicateName, w1)).
Proof.
  intros H1 H2 Hn Hrun.
  destruct (createCommand_normal _ _ _ _ Hrun)
    as (bot & raw & _ & Hc & _ & _ & _ & _ & Hcmds).
  rewrite H1 in Hc. inversion Hc; subst raw.
  assert (Hhas : JsMap.has (normalize n2) (commands w1) = true).
  { rewrite Hcmds, <- Hn. apply JsMapFacts.has_get. eexists.
    apply JsMapFacts.get_set_eq. }
  assert (Hdup : getBotByToken (CreateCommand.token a2) w1 <> None ->
                 n2 <> "" ->
                 createCommand host a2 now2 w1 = (Throw DuplicateName, w1)).
  { intros Ht Hne.
    destruct (getBotByToken (CreateCommand.token a2) w1) as [b2|] eqn:E;
      [|congruence].
    exact (createCommand_duplicate host a2 now2 w1 E H2 Hne Hhas). }
  split; [|exact Hdup].
  destruct (getBotByToken (CreateCommand.token a2) w1) as [b2|] eqn:E.
  - destruct n2 as [|c n2'].
    + exists InvalidName. apply (createCommand_invalid_name host a2 now2 w1 E).
      now rewrite H2.
    + exists DuplicateName. apply Hdup; discriminate.
  - exists InvalidToken. now apply createCommand_invalid_token.
Qed.

Lemma createCommand_second_same_name_witness :
  CreateCommand.command vip_args = JsString "/VIP"
  /\ CreateCommand.command (CreateCommand.mk "tok-shop" (JsString "//vip") "again" None false)
     = JsString "//vip"
  /\ normalize "/VIP" = normalize "//vip"
  /\ createCommand host_json vip_args t1 (shop_world host_json)
     = (Normal (Meta.mk "vip" "" "1" None true t1), vip_world host_json)
  /\ getBotByToken "tok-shop" (vip_world host_json) <> None
  /\ "//vip" <> ""
  /\ createCommand host_json
       (CreateCommand.mk "tok-shop" (JsString "//vip") "again" None false)
       t0 (vip_world host_json)
     = (Throw DuplicateName, vip_world host_json).
Proof.
  assert (Run : createCommand host_json vip_args t1 (shop_world host_json)
                = (Normal (Meta.mk "vip" "" "1" None true t1),
                   vip_world host_json)) by reflexivity.
  assert (Tok : getBotByToken "tok-shop" (vip_world host_json) <> None)
    by discriminate.
  assert (Ne : "//vip" <> "") by discriminate.
  repeat (split; [first [reflexivity | assumption]|]).
  apply (@createCommand_second_same_name host_json vip_args
           (CreateCommand.mk "tok-shop" (JsString "//vip") "again" None false)
           t1 t0 (shop_world host_json) (vip_world host_json) _
           "/VIP" "//vip" eq_refl eq_refl eq_refl Run); assumption.
Defined.

(** ** C2: lookup by name *)

(** After a creation, [getCommand] finds the definition under every
    spelling that differs from the stored name by letter case only. *)
Lemma getCommand_after_create (host : Host) (a : CreateCommand.t)
    (now : string) (w w' : World) (m : Meta.t) (raw s : string) :
  createCommand host a now w = (Normal m, w') ->
  CreateCommand.command a = JsString raw ->
  toLowerCase s = normalize raw ->
  getCommand (JsString s) w' = Some m.
Proof.
  intros Hrun Hc Hs.
  destruct (createCommand_normal _ _ _ _ Hrun)
    as (bot & raw' & _ & Hc' & _ & _ & _ & _ & Hcmds).
  rewrite Hc in Hc'. inversion Hc'; subst raw'.
  unfold getCommand. simpl. rewrite Hs, Hcmds.
  apply JsMapFacts.get_set_eq.
Qed.

(** The keys of the registry stay normalized. *)
Lemma createCommand_keeps_keys_normalized (host : Host)
    (a : CreateCommand.t) (now : string) (w : World) :
  registry_keys_normalized w ->
  registry_keys_normalized (snd (createCommand host a now w)).
Proof.
  intros Hw. destruct (createCommand host a now w) as [[m|e] w'] eqn:E; simpl.
  - destruct (createCommand_normal _ _ _ _ E)
      as (bot & raw & _ & _ & _ & _ & _ & _ & Hc).
    intros k Hk. rewrite Hc in Hk. apply JsMapFacts.in_keys in Hk.
    destruct Hk as [v Hv]. apply JsMapFacts.in_set in Hv.
    destruct Hv as [[-> _]|Hv]; [apply normalize_idem|].
    apply Hw. apply JsMapFacts.in_keys. eauto.
  - apply createCommand_throw in E. destruct E as [-> _]. exact Hw.
Qed.

(** In a registry with normalized keys, [getCommand] finds nothing under a
    name that starts with a slash, whatever is registered. *)
Lemma getCommand_leading_slash (w : World) (s : string) :
  registry_keys_normalized w ->
  getCommand (JsString (String "/"%char s)) w = None.
Proof.
  intros Hw. unfold getCommand. simpl String_. simpl toLowerCase.
  change (lower_ascii "/"%char) with "/"%char.
  destruct (JsMap.get (String "/"%char (toLowerCase s)) (commands w))
    as [m|] eqn:E; [|reflexivity].
  apply JsMapFacts.get_in in E.
  assert (Hk : In (String "/"%char (toLowerCase s)) (JsMap.keys (commands w)))
    by (apply JsMapFacts.in_keys; eauto).
  apply Hw in Hk. now apply normalize_no_leading_slash in Hk.
Qed.

(** C2, on the code: the shop bot creates ["/VIP"], which is stored under
    ["vip"]. [getCommand] lowercases its argument and does not strip the
    slashes [createCommand] strips: it finds ["vip"] and ["VIP"], and
    returns [null] for ["/VIP"], the spelling the command was created
    with, and for ["/vip"]. *)
Theorem getCommand_keeps_leading_slashes :
  createCommand host_json vip_args t1 (shop_world host_json)
  = (Normal (Meta.mk "vip" "" "1" None true t1), vip_world host_json)
  /\ normalize "/VIP" = "vip"
  /\ getCommand (JsString "vip") (vip_world host_json)
     = Some (Meta.mk "vip" "" "1" None true t1)
  /\ getCommand (JsString "VIP") (vip_world host_json)
     = Some (Meta.mk "vip" "" "1" None true t1)
  /\ getCommand (JsString "/VIP") (vip_world host_json) = None
  /\ getCommand (JsString "/vip") (vip_world host_json) = None.
Proof. repeat split. Qed.

(** ** C7: a command that is not registered *)

(** C7. When the normalized form of the command name is not a key of the
    registry, [handlePlayerCommand] resolves to [false] and the world is the
    one before the call: nothing is added to the trace, so no callback is
    called and no webhook is posted. *)
Theorem handlePlayerCommand_unregistered (host : Host)
    (ev : PlayerCommand.t) (now : string) (w : World) :
  JsMap.get (normalize (String_ (PlayerCommand.commandName ev))) (commands w)
  = None ->
  handlePlayerCommand host ev now w = (Normal false, w)
  /\ filter is_callback (trace (snd (handlePlayerCommand host ev now w)))
     = filter is_callback (trace w)
  /\ filter is_webhook (trace (snd (handlePlayerCommand host ev now w)))
     = filter is_webhook (trace w).
Proof.
  intros H.
  assert (E : handlePlayerCommand host ev now w = (Normal false, w)).
  { unfold handlePlayerCommand, getCommand. run.
    fold (normalize (String_ (PlayerCommand.commandName ev))).
    now rewrite normalize_lower, H. }
  rewrite E. auto.
Qed.

Lemma handlePlayerCommand_unregistered_witness :
  JsMap.get (normalize (String_ (JsString "/Heal")))
    (commands (vip_world host_json)) = None
  /\ handlePlayerCommand host_json
       (PlayerCommand.mk (JsNumber 1) "Ann" (JsString "/Heal") []) t1
       (vip_world host_json)
     = (Normal false, vip_world host_json).
Proof.
  split; [reflexivity|].
  apply (handlePlayerCommand_unregistered host_json
           (PlayerCommand.mk (JsNumber 1) "Ann" (JsString "/Heal") []) t1
           (vip_world host_json)).
  reflexivity.
Defined.

(** ** C8: deletion *)

Lemma get_remove_bots (i c : string) (bs : JsMap.t Bot.t) (b : Bot.t) :
  JsMap.get i (remove_bots i c bs) = Some b -> ~ In c (Bot.commands b).
Proof.
  unfold remove_bots. destruct (JsMap.get i bs) as [b0|] eqn:E.
  - rewrite JsMapFacts.get_set_eq. intros H. inversion H. simpl.
    rewrite filter_In. intros [_ Hc]. now rewrite String.eqb_refl in Hc.
  - congruence.
Qed.

Lemma deleteCommand_found (host : Host) (name : JsValue) (w : World)
    (meta : Meta.t) :
  JsMap.get (toLowerCase (String_ name)) (commands w) = Some meta ->
  exists d,
    deleteCommand host name w
    = (Normal true,
       Build_World
         (remove_bots (Meta.ownerId meta) (toLowerCase (String_ name)) (bots w))
         (nextId w)
         (JsMap.delete (toLowerCase (String_ name)) (commands w))
         d (trace w)).
Proof.
  intros H. unfold deleteCommand. run. rewrite H.
  match goal with
  | |- context [removeCommandFromBot host ?i ?n ?w1] =>
      destruct (removeCommandFromBot_frame host i n w1) as (r & d1 & ->)
  end. simpl.
  match goal with
  | |- context [saveCommands host ?w1] =>
      destruct (saveCommands_frame host w1) as (d2 & ->)
  end.
  exists d2. reflexivity.
Qed.

(** [deleteCommand] on the key it looks up, the lowercased form of its
    argument. When this key is registered, the call returns [true], the
    key is no longer in the registry (the other keys are as before) and
    the bot the definition names as its owner no longer has the name among
    its commands; when the key is not registered, the call returns [false]
    and the world is unchanged. *)
Lemma deleteCommand_registered_or_absent (host : Host) (name : JsValue)
    (w : World) :
  (forall meta,
     JsMap.get (toLowerCase (String_ name)) (commands w) = Some meta ->
     exists w',
       deleteCommand host name w = (Normal true, w')
       /\ JsMap.get (toLowerCase (String_ name)) (commands w') = None
       /\ (forall k, k <> toLowerCase (String_ name) ->
             JsMap.get k (commands w') = JsMap.get k (commands w))
       /\ (forall b, getBotById (Meta.ownerId meta) w' = Some b ->
             ~ In (toLowerCase (String_ name)) (Bot.commands b))
       /\ (forall b, getBotById (Meta.ownerId meta) w = Some b ->
             exists b', getBotById (Meta.ownerId meta) w' = Some b'))
  /\ (JsMap.get (toLowerCase (String_ name)) (commands w) = None ->
      deleteCommand host name w = (Normal false, w)).
Proof.
  split.
  - intros meta H. destruct (deleteCommand_found host name w H) as [d E].
    eexists. split; [exact E|]. unfold getBotById. simpl.
    split; [apply JsMapFacts.get_delete_eq|].
    split; [intros k Hk; apply JsMapFacts.get_delete_neq; congruence|].
    split; [intros b; apply get_remove_bots|].
    intros b Hb. unfold remove_bots. rewrite Hb.
    rewrite JsMapFacts.get_set_eq. eauto.
  - intros H. unfold deleteCommand. run. now rewrite H.
Qed.

Lemma deleteCommand_registered_or_absent_witness :
  JsMap.get (toLowerCase (String_ (JsString "VIP")))
    (commands (vip_world host_json))
  = Some (Meta.mk "vip" "" "1" None true t1)
  /\ JsMap.get (toLowerCase (String_ (JsString "heal")))
       (commands (vip_world host_json)) = None
  /\ (exists w',
        deleteCommand host_json (JsString "VIP") (vip_world host_json)
        = (Normal true, w')
        /\ JsMap.get "vip" (commands w') = None
        /\ (forall b, getBotById "1" w' = Some b -> ~ In "vip" (Bot.commands b)))
  /\ deleteCommand host_json (JsString "heal") (vip_world host_json)
     = (Normal false, vip_world host_json).
Proof.
  pose proof (deleteCommand_registered_or_absent host_json (JsString "VIP")
                (vip_world host_json)) as [Hfound _].
  pose proof (deleteCommand_registered_or_absent host_json (JsString "heal")
                (vip_world host_json)) as [_ Habsent].
  split; [reflexivity|]. split; [reflexivity|]. split.
  - destruct (Hfound (Meta.mk "vip" "" "1" None true t1) eq_refl)
      as (w' & E & Hg & _ & Hb & _).
    exists w'. repeat split; assumption.
  - apply Habsent. reflexivity.
Defined.

(** Every key of a registry with normalized keys is its own lowercased
    form, so [deleteCommand] finds every stored name when it is given as
    stored; and deletion keeps the keys normalized. *)
Lemma deleteCommand_stored_name (host : Host) (k : string) (w : World)
    (meta : Meta.t) :
  registry_keys_normalized w ->
  JsMap.get k (commands w) = Some meta ->
  fst (deleteCommand host (JsString k) w) = Normal true
  /\ JsMap.get k (commands (snd (deleteCommand host (JsString k) w))) = None.
Proof.
  intros Hw Hk.
  assert (E : toLowerCase (String_ (JsString k)) = k).
  { simpl. rewrite <- (Hw k) at 1.
    - rewrite normalize_lower. apply Hw.
      apply JsMapFacts.in_keys. exists meta. now apply JsMapFacts.get_in.
    - apply JsMapFacts.in_keys. exists meta. now apply JsMapFacts.get_in. }
  rewrite <- E in Hk.
  destruct (deleteCommand_found host (JsString k) w Hk) as [d ->].
  rewrite E. simpl. split; [reflexivity|apply JsMapFacts.get_delete_eq].
Qed.

Lemma deleteCommand_keeps_keys_normalized (host : Host) (name : JsValue)
    (w : World) :
  registry_keys_normalized w ->
  registry_keys_normalized (snd (deleteCommand host name w)).
Proof.
  intros Hw.
  destruct (JsMap.get (toLowerCase (String_ name)) (commands w))
    as [meta|] eqn:E.
  - destruct (deleteCommand_found host name w E) as [d ->]. simpl.
    intros k Hk. apply JsMapFacts.in_keys in Hk. destruct Hk as [v Hv].
    apply JsMapFacts.in_delete in Hv.
    apply Hw. apply JsMapFacts.in_keys. eauto.
  - unfold deleteCommand. run. rewrite E. exact Hw.
Qed.

(** In a registry with normalized keys, [deleteCommand] finds nothing
    under a name that starts with a slash, whatever is registered: it
    returns [false] and changes nothing. *)
Lemma deleteCommand_leading_slash (host : Host) (w : World) (s : string) :
  registry_keys_normalized w ->
  deleteCommand host (JsString (String "/"%char s)) w = (Normal false, w).
Proof.
  intros Hw. pose proof (getCommand_leading_slash s Hw) as H.
  unfold getCommand in H. unfold deleteCommand. run.
  simpl in H. now rewrite H.
Qed.

(** C8, on the code: the shop bot creates ["/VIP"], stored under ["vip"]
    and attached to the bot. [deleteCommand] lowercases its argument and
    does not strip the slashes [createCommand] strips. Called with
    ["/VIP"], the name the command was created with, whose normalized form
    is registered, it returns [false] and removes nothing: the definition
    stays in the registry and the name stays in the owner's list. Called
    with ["vip"] or ["VIP"] it returns [true] and removes the name from
    the registry and from the owner's list; called with a name whose
    normalized form is not registered it returns [false] and changes
    nothing. *)
Theorem deleteCommand_keeps_leading_slashes :
  createCommand host_json vip_args t1 (shop_world host_json)
  = (Normal (Meta.mk "vip" "" "1" None true t1), vip_world host_json)
  /\ normalize "/VIP" = "vip"
  /\ JsMap.get (normalize "/VIP") (commands (vip_world host_json))
     = Some (Meta.mk "vip" "" "1" None true t1)
  /\ deleteCommand host_json (JsString "/VIP") (vip_world host_json)
     = (Normal false, vip_world host_json)
  /\ getBotById "1" (vip_world host_json)
     = Some (Bot.mk "1" "Shop" "tok-shop" "admin" (Some "http://x/hook")
               ["vip"] t0)
  /\ fst (deleteCommand host_json (JsString "VIP") (vip_world host_json))
     = Normal true
  /\ commands (snd (deleteCommand host_json (JsString "VIP")
                      (vip_world host_json))) = []
  /\ getBotById "1"
       (snd (deleteCommand host_json (JsString "VIP") (vip_world host_json)))
     = Some (Bot.mk "1" "Shop" "tok-shop" "admin" (Some "http://x/hook")
               [] t0)
  /\ JsMap.get (normalize "heal") (commands (vip_world host_json)) = None
  /\ deleteCommand host_json (JsString "heal") (vip_world host_json)
     = (Normal false, vip_world host_json).
Proof. repeat split. Qed.

(** ** C9: console execution *)

(** C9. [runCommandAsConsole] throws the invalid-token error when the
    token resolves to no identity, and the permission error when it
    resolves to an identity whose role is neither ["admin"] nor
    ["executor"], whatever the command text; in both cases the world is
    unchanged, so nothing was executed. *)
Theorem runCommandAsConsole_gate (host : Host) (cmd tok : string) (w : World) :
  (getBotByToken tok w = None ->
     runCommandAsConsole host cmd tok w = (Throw InvalidToken, w))
  /\ (forall bot,
        getBotByToken tok w = Some bot ->
        Bot.role bot <> "admin" ->
        Bot.role bot <> "executor" ->
        runCommandAsConsole host cmd tok w = (Throw PermissionDenied, w)).
Proof.
  split.
  - intros H. unfold runCommandAsConsole. run. now rewrite H.
  - intros bot H Ha He. unfold runCommandAsConsole. run. rewrite H.
    unfold includes. simpl.
    apply String.eqb_neq in Ha, He. now rewrite Ha, He.
Qed.

Lemma runCommandAsConsole_gate_witness :
  getBotByToken "tok-nobody" (guest_world host_json) = None
  /\ runCommandAsConsole host_json "say hello" "tok-nobody" (guest_world host_json)
     = (Throw InvalidToken, guest_world host_json)
  /\ getBotByToken "tok-guest" (guest_world host_json)
     = Some (Bot.mk "1" "Guest" "tok-guest" "command_creator" None [] t0)
  /\ "command_creator" <> "admin"
  /\ "command_creator" <> "executor"
  /\ runCommandAsConsole host_json "say hello" "tok-guest" (guest_world host_json)
     = (Throw PermissionDenied, guest_world host_json).
Proof.
  pose proof (runCommandAsConsole_gate host_json "say hello" "tok-nobody"
                (guest_world host_json)) as [Hnone _].
  pose proof (runCommandAsConsole_gate host_json "say hello" "tok-guest"
                (guest_world host_json)) as [_ Hrole].
  split; [reflexivity|].
  split; [apply Hnone; reflexivity|].
  split; [reflexivity|].
  split; [discriminate|].
  split; [discriminate|].
  apply (Hrole (Bot.mk "1" "Guest" "tok-guest" "command_creator" None [] t0));
    [reflexivity|discriminate|discriminate].
Defined.

(** The gate opens for the two privileged roles: the command reaches the
    runtime hook or the shell. *)
Lemma runCommandAsConsole_privileged (host : Host) (cmd tok : string)
    (w : World) (bot : Bot.t) :
  getBotByToken tok w = Some bot ->
  Bot.role bot = "admin" \/ Bot.role bot = "executor" ->
  exists ev,
    (ev = EvConsole cmd \/ ev = EvShell cmd)
    /\ trace (snd (runCommandAsConsole host cmd tok w)) = trace w ++ [ev].
Proof.
  intros H Hr. unfold runCommandAsConsole. run. rewrite H.
  assert (E : negb (includes ["admin"; "executor"] (Bot.role bot))
              && negb (String.eqb (Bot.role bot) "admin") = false)
    by (destruct Hr as [-> | ->]; reflexivity).
  unfold includes in E. simpl in E. rewrite E.
  destruct (kainure_execConsoleCommand host) as [exec|].
  - exists (EvConsole cmd). split; [now left|].
    simpl. now destruct (exec cmd).
  - exists (EvShell cmd). split; [now right|].
    simpl. destruct (execSync host cmd) as [out|e]; [reflexivity|].
    now destruct e.
Qed.

(** ** C6: a callback that fails *)

Lemma message_reads (e : Thrown) (w : World) :
  not_nullish e -> exists m, message e w = (Normal m, w).
Proof. destruct e; intros [H1 H2]; try congruence; eexists; reflexivity. Qed.

Lemma _sendWebhook_run (host : Host) (url : string) (p : WebhookPayload)
    (w : World) :
  _sendWebhook host url p w
  = (transport host url p, set_trace (trace w ++ [post_event host url p]) w).
Proof.
  unfold _sendWebhook, transport, post_event. run.
  destruct (fetchAPI host) as [f|]; simpl.
  - now destruct (f url p) as [[]|].
  - now destruct (curl host url p) as [[]|].
Qed.

(** A callback that throws a value with a readable [message] (an [Error],
    a string, an object) is isolated: the webhook is still posted when it
    is enabled and the owner has a URL, and the dispatch resolves to
    [true], provided the network does not reject with [undefined] or
    [null] either. *)
Lemma handlePlayerCommand_callback_failure_isolated (host : Host)
    (ev : PlayerCommand.t) (now : string) (w : World) (meta : Meta.t)
    (cb : string) (call : string -> CallbackPayload -> Completion unit)
    (e : Thrown) :
  JsMap.get (normalize (String_ (PlayerCommand.commandName ev))) (commands w)
  = Some meta ->
  or_null (Meta.callback meta) = Some cb ->
  kainure_callCallback host = Some call ->
  call cb (Build_CallbackPayload (PlayerCommand.playerId ev)
             (PlayerCommand.playerName ev) (PlayerCommand.args ev) meta)
  = Throw e ->
  not_nullish e ->
  (forall url p e', transport host url p = Throw e' -> not_nullish e') ->
  fst (handlePlayerCommand host ev now w) = Normal true
  /\ (forall bot url,
        Meta.webhook meta = true ->
        getBotById (Meta.ownerId meta) w = Some bot ->
        or_null (Bot.webhook bot) = Some url ->
        In (post_event host url
              (Build_WebhookPayload "command_trigger" (Meta.command meta)
                 (PlayerCommand.playerId ev) (PlayerCommand.playerName ev)
                 (PlayerCommand.args ev) meta now))
           (trace (snd (handlePlayerCommand host ev now w)))).
Proof.
  intros Hget Hcb Hcall Hthrow He Hnet.
  unfold handlePlayerCommand, getCommand. run.
  fold (normalize (String_ (PlayerCommand.commandName ev))).
  rewrite normalize_lower, Hget, Hcb, Hcall, Hthrow.
  match goal with
  | |- context [message e ?w1] =>
      destruct (message_reads w1 He) as [m ->]
  end. simpl.
  destruct (Meta.webhook meta); simpl.
  2:{ split; [reflexivity|]. intros; discriminate. }
  unfold getBotById. simpl.
  destruct (JsMap.get (Meta.ownerId meta) (bots w)) as [bot|]; simpl.
  2:{ split; [reflexivity|]. intros; discriminate. }
  destruct (or_null (Bot.webhook bot)) as [url|] eqn:Eu; simpl.
  2:{ split; [reflexivity|]. intros b u _ Hb Hu. congruence. }
  rewrite _sendWebhook_run.
  destruct (transport host url _) as [[]|e'] eqn:Et; simpl.
  - split; [reflexivity|]. intros b u _ Hb Hu.
    inversion Hb; subst b. rewrite Eu in Hu. inversion Hu; subst u.
    rewrite !in_app_iff. simpl. auto.
  - match goal with
    | |- context [message e' ?w1] =>
        destruct (message_reads w1 (Hnet _ _ _ Et)) as [m' ->]
    end. simpl.
    split; [reflexivity|]. intros b u _ Hb Hu.
    inversion Hb; subst b. rewrite Eu in Hu. inversion Hu; subst u.
    rewrite !in_app_iff. simpl. auto.
Qed.

(** C6, on the code. The shop's command has a callback and its webhook
    enabled, and the owner has a webhook URL. When the callback rejects
    with an [Error], the dispatch logs a warning, posts the webhook and
    resolves to [true]. When the callback rejects with [undefined] (as
    [Promise.reject()] does), reading [e.message] in the [catch] block
    throws, the outer [catch] takes over: no webhook is posted and the
    dispatch resolves to [false]. *)
Theorem handlePlayerCommand_callback_rejects_undefined :
  fst (handlePlayerCommand (host_callback (Throw (Error_ "boom"))) vip_event t1
         (vip_callback_world (host_callback (Throw (Error_ "boom")))))
  = Normal true
  /\ filter is_webhook
       (trace (snd (handlePlayerCommand
                      (host_callback (Throw (Error_ "boom"))) vip_event t1
                      (vip_callback_world (host_callback (Throw (Error_ "boom")))))))
     = [EvFetch "http://x/hook" (vip_webhook_payload t1)]
  /\ getCommand (JsString "vip")
       (vip_callback_world (host_callback (Throw ThrownUndefined)))
     = Some vip_callback_meta
  /\ fst (handlePlayerCommand (host_callback (Throw ThrownUndefined)) vip_event t1
            (vip_callback_world (host_callback (Throw ThrownUndefined))))
     = Normal false
  /\ filter is_callback
       (trace (snd (handlePlayerCommand
                      (host_callback (Throw ThrownUndefined)) vip_event t1
                      (vip_callback_world (host_callback (Throw ThrownUndefined))))))
     = [EvCallback "OnVipActivate" vip_callback_payload]
  /\ filter is_webhook
       (trace (snd (handlePlayerCommand
                      (host_callback (Throw ThrownUndefined)) vip_event t1
                      (vip_callback_world (host_callback (Throw ThrownUndefined))))))
     = [].
Proof. repeat split. Qed.

(** ** C3: the registry and the owned commands stay in step *)

Lemma includes_In (xs : list string) (x : string) :
  includes xs x = true <-> In x xs.
Proof.
  unfold includes. rewrite existsb_exists. split.
  - intros (y & Hy & E). apply String.eqb_eq in E. now subst.
  - intros H. exists x. split; [exact H|apply String.eqb_refl].
Qed.

Section Ownership.
Variables (i c : string) (bs : JsMap.t Bot.t).

Lemma get_attach_other (j : string) :
  j <> i -> JsMap.get j (attach_bots i c bs) = JsMap.get j bs.
Proof.
  intros Hj. unfold attach_bots.
  destruct (JsMap.get i bs) as [b|]; [|reflexivity].
  destruct (includes (Bot.commands b) c); [reflexivity|].
  apply JsMapFacts.get_set_neq. congruence.
Qed.

Lemma get_attach_same (b : Bot.t) :
  JsMap.get i bs = Some b ->
  exists b',
    JsMap.get i (attach_bots i c bs) = Some b'
    /\ Bot.id b' = Bot.id b
    /\ forall n, In n (Bot.commands b') <-> In n (Bot.commands b) \/ n = c.
Proof.
  intros Hb. unfold attach_bots. rewrite Hb.
  destruct (includes (Bot.commands b) c) eqn:E.
  - exists b. repeat split; auto.
    intros [H| ->]; [exact H|now apply includes_In].
  - eexists. split; [apply JsMapFacts.get_set_eq|]. split; [reflexivity|].
    intros n. simpl. rewrite in_app_iff. simpl. intuition.
Qed.

Lemma get_attach_none :
  JsMap.get i bs = None -> attach_bots i c bs = bs.
Proof. intros H. unfold attach_bots. now rewrite H. Qed.

Lemma get_remove_other (j : string) :
  j <> i -> JsMap.get j (remove_bots i c bs) = JsMap.get j bs.
Proof.
  intros Hj. unfold remove_bots.
  destruct (JsMap.get i bs) as [b|]; [|reflexivity].
  apply JsMapFacts.get_set_neq. congruence.
Qed.

Lemma get_remove_same (b : Bot.t) :
  JsMap.get i bs = Some b ->
  exists b',
    JsMap.get i (remove_bots i c bs) = Some b'
    /\ Bot.id b' = Bot.id b
    /\ forall n, In n (Bot.commands b') <-> In n (Bot.commands b) /\ n <> c.
Proof.
  intros Hb. unfold remove_bots. rewrite Hb.
  eexists. split; [apply JsMapFacts.get_set_eq|]. split; [reflexivity|].
  intros n. simpl. rewrite filter_In.
  destruct (String.eqb n c) eqn:E; simpl.
  - apply String.eqb_eq in E. intuition congruence.
  - apply String.eqb_neq in E. intuition.
Qed.

Lemma get_remove_none :
  JsMap.get i bs = None -> remove_bots i c bs = bs.
Proof. intros H. unfold remove_bots. now rewrite H. Qed.

Lemma keyed_attach :
  (forall k b, In (k, b) bs -> Bot.id b = k) ->
  forall k b, In (k, b) (attach_bots i c bs) -> Bot.id b = k.
Proof.
  intros Hk k b. unfold attach_bots.
  destruct (JsMap.get i bs) as [b0|] eqn:E; [|apply Hk].
  destruct (includes (Bot.commands b0) c); [apply Hk|].
  intros H. apply JsMapFacts.in_set in H. destruct H as [[-> ->]|H].
  - simpl. apply Hk. now apply JsMapFacts.get_in.
  - now apply Hk.
Qed.

Lemma keyed_remove :
  (forall k b, In (k, b) bs -> Bot.id b = k) ->
  forall k b, In (k, b) (remove_bots i c bs) -> Bot.id b = k.
Proof.
  intros Hk k b. unfold remove_bots.
  destruct (JsMap.get i bs) as [b0|] eqn:E; [|apply Hk].
  intros H. apply JsMapFacts.in_set in H. destruct H as [[-> ->]|H].
  - simpl. apply Hk. now apply JsMapFacts.get_in.
  - now apply Hk.
Qed.

End Ownership.

(** The bot a token resolves to is stored under its id. *)
Lemma getBotByToken_stored (tok : string) (w : World) (bot : Bot.t) :
  bots_keyed_by_id w ->
  getBotByToken tok w = Some bot ->
  exists b, JsMap.get (Bot.id bot) (bots w) = Some b.
Proof.
  intros Hk H. unfold getBotByToken in H. apply find_some in H.
  destruct H as [Hin _]. unfold JsMap.values in Hin.
  apply in_map_iff in Hin. destruct Hin as ([k b] & E & Hin). simpl in E.
  subst b. rewrite (Hk _ _ Hin). exact (JsMapFacts.in_get _ _ _ Hin).
Qed.

(** The linked form of the invariant gives the form of the
    specification. *)
Lemma consistent_in_sync (w : World) : consistent w -> registry_in_sync w.
Proof.
  intros (_ & I1 & I2) n. rewrite JsMapFacts.has_get. split.
  - intros [m Hm]. exists (Meta.ownerId m). split; [now apply I1|].
    intros i' Ho. destruct (I2 _ _ Ho) as (m' & Hm' & <-). congruence.
  - intros (i & Ho & _). destruct (I2 _ _ Ho) as (m & Hm & _). eauto.
Qed.

Lemma create_step_consistent (w w' : World) (bot : Bot.t) (c : string)
    (meta : Meta.t) :
  consistent w ->
  (exists b0, JsMap.get (Bot.id bot) (bots w) = Some b0) ->
  JsMap.get c (commands w) = None ->
  Meta.ownerId meta = Bot.id bot ->
  bots w' = attach_bots (Bot.id bot) c (bots w) ->
  commands w' = JsMap.set c meta (commands w) ->
  consistent w'.
Proof.
  intros (K & I1 & I2) [b0 Hb0] Hfree Hown Hb Hc. split; [|split].
  - unfold bots_keyed_by_id. rewrite Hb. apply keyed_attach. exact K.
  - intros n m Hm. rewrite Hc in Hm. unfold owns. rewrite Hb.
    destruct (string_dec c n) as [<-|Hn].
    + rewrite JsMapFacts.get_set_eq in Hm. inversion Hm; subst m.
      rewrite Hown.
      destruct (@get_attach_same _ c _ _ Hb0) as (b' & Hg & _ & Hin).
      exists b'. split; [exact Hg|]. apply Hin. now right.
    + rewrite JsMapFacts.get_set_neq in Hm by exact Hn.
      destruct (I1 _ _ Hm) as (b & Hg & Hin).
      destruct (string_dec (Meta.ownerId m) (Bot.id bot)) as [E|E].
      * rewrite E in *.
        destruct (@get_attach_same _ c _ _ Hg) as (b' & Hg' & _ & Hin').
        exists b'. split; [exact Hg'|]. apply Hin'. now left.
      * exists b. rewrite get_attach_other by exact E. auto.
  - intros i n (b & Hg & Hin). rewrite Hb in Hg. rewrite Hc.
    destruct (string_dec i (Bot.id bot)) as [->|E].
    + destruct (@get_attach_same _ c _ _ Hb0) as (b' & Hg' & _ & Hin').
      rewrite Hg' in Hg. inversion Hg; subst b'.
      apply Hin' in Hin. destruct Hin as [Hin| ->].
      * destruct (I2 (Bot.id bot) n) as (m & Hm & Ho); [exists b0; auto|].
        exists m. split; [|exact Ho].
        rewrite JsMapFacts.get_set_neq; [exact Hm|]. intros ->. congruence.
      * exists meta. split; [apply JsMapFacts.get_set_eq|exact Hown].
    + rewrite get_attach_other in Hg by exact E.
      destruct (I2 i n) as (m & Hm & Ho); [exists b; auto|].
      exists m. split; [|exact Ho].
      rewrite JsMapFacts.get_set_neq; [exact Hm|]. intros ->. congruence.
Qed.

Lemma delete_step_consistent (w w' : World) (key : string) (meta : Meta.t) :
  consistent w ->
  JsMap.get key (commands w) = Some meta ->
  bots w' = remove_bots (Meta.ownerId meta) key (bots w) ->
  commands w' = JsMap.delete key (commands w) ->
  consistent w'.
Proof.
  intros (K & I1 & I2) Hmeta Hb Hc. split; [|split].
  - unfold bots_keyed_by_id. rewrite Hb. apply keyed_remove. exact K.
  - intros n m Hm. rewrite Hc in Hm. unfold owns. rewrite Hb.
    destruct (string_dec key n) as [<-|Hn].
    + rewrite JsMapFacts.get_delete_eq in Hm. discriminate.
    + rewrite JsMapFacts.get_delete_neq in Hm by exact Hn.
      destruct (I1 _ _ Hm) as (b & Hg & Hin).
      destruct (string_dec (Meta.ownerId m) (Meta.ownerId meta)) as [E|E].
      * rewrite E in *.
        destruct (@get_remove_same _ key _ _ Hg) as (b' & Hg' & _ & Hin').
        exists b'. split; [exact Hg'|]. apply Hin'. split; [exact Hin|].
        congruence.
      * exists b. rewrite get_remove_other by exact E. auto.
  - intros i n (b & Hg & Hin). rewrite Hb in Hg. rewrite Hc.
    assert (Hold : owns w i n /\ (i = Meta.ownerId meta -> n <> key)).
    { destruct (string_dec i (Meta.ownerId meta)) as [->|E].
      - destruct (JsMap.get (Meta.ownerId meta) (bots w)) as [b0|] eqn:E0.
        + destruct (@get_remove_same _ key _ _ E0) as (b' & Hg' & _ & Hin').
          rewrite Hg' in Hg. inversion Hg; subst b'.
          apply Hin' in Hin. destruct Hin as [Hin Hne].
          split; [exists b0; auto|auto].
        + rewrite (@get_remove_none _ key _ E0) in Hg. congruence.
      - rewrite get_remove_other in Hg by exact E.
        split; [exists b; auto|congruence]. }
    destruct Hold as [Ho Hne].
    destruct (I2 _ _ Ho) as (m & Hm & Hi).
    exists m. split; [|exact Hi].
    rewrite JsMapFacts.get_delete_neq; [exact Hm|].
    intros ->. rewrite Hmeta in Hm. inversion Hm; subst m. now apply Hne.
Qed.

(** C3, as stated, at [attachCommandToBot] and [removeCommandFromBot]:
    the world with the shop bot and an empty registry is in step, and
    attaching ["vip"] to the bot leaves an owned name without a
    definition; the world with the shop's command is in step, and removing
    ["vip"] from the bot leaves a definition nobody owns. *)
Lemma attach_and_remove_break_sync :
  registry_in_sync (shop_world host_json)
  /\ ~ registry_in_sync
         (snd (attachCommandToBot host_json "1" "vip" (shop_world host_json)))
  /\ registry_in_sync (vip_world host_json)
  /\ ~ registry_in_sync
         (snd (removeCommandFromBot host_json "1" "vip" (vip_world host_json))).
Proof.
  assert (B0 : bots (shop_world host_json)
               = [("1", Bot.mk "1" "Shop" "tok-shop" "admin"
                          (Some "http://x/hook") [] t0)]) by reflexivity.
  assert (B1 : bots (vip_world host_json)
               = [("1", Bot.mk "1" "Shop" "tok-shop" "admin"
                          (Some "http://x/hook") ["vip"] t0)]) by reflexivity.
  assert (C1 : commands (vip_world host_json)
               = [("vip", Meta.mk "vip" "" "1" None true t1)]) by reflexivity.
  assert (B2 : bots (snd (attachCommandToBot host_json "1" "vip"
                            (shop_world host_json)))
               = bots (vip_world host_json)) by reflexivity.
  assert (B3 : bots (snd (removeCommandFromBot host_json "1" "vip"
                            (vip_world host_json)))
               = bots (shop_world host_json)) by reflexivity.
  assert (C3 : commands (snd (removeCommandFromBot host_json "1" "vip"
                                (vip_world host_json)))
               = commands (vip_world host_json)) by reflexivity.
  unfold registry_in_sync, owns. rewrite B2, B3, C3, B0, B1, C1.
  repeat split.
  - discriminate.
  - intros (i & (b & Hg & Hin) & _).
    apply JsMapFacts.get_singleton in Hg. destruct Hg as [_ ->]. destruct Hin.
  - intros H. specialize (H "vip"). destruct H as [_ H].
    assert (E : JsMap.has "vip"
                  (commands (snd (attachCommandToBot host_json "1" "vip"
                                    (shop_world host_json)))) = true).
    { apply H. exists "1". split.
      - eexists. split; [reflexivity|]. now left.
      - intros i' (b & Hg & _). apply JsMapFacts.get_singleton in Hg.
        now destruct Hg. }
    discriminate.
  - intros H. exists "1". apply JsMapFacts.has_get in H.
    destruct H as [m Hm]. apply JsMapFacts.get_singleton in Hm.
    destruct Hm as [-> _]. split.
    + eexists. split; [reflexivity|]. now left.
    + intros i' (b & Hg & _). apply JsMapFacts.get_singleton in Hg.
      now destruct Hg.
  - intros (i & (b & Hg & Hin) & _). apply JsMapFacts.get_singleton in Hg.
    destruct Hg as [_ ->]. destruct Hin as [<-|[]]. reflexivity.
  - intros H. specialize (H "vip"). destruct H as [H _].
    destruct (H eq_refl) as (i & (b & Hg & Hin) & _).
    apply JsMapFacts.get_singleton in Hg. destruct Hg as [_ ->]. destruct Hin.
Qed.

(** What the two steps do to ownership. *)
Lemma owns_attach_bots (i c : string) (bs : JsMap.t Bot.t) (j n : string) :
  (exists b, JsMap.get j (attach_bots i c bs) = Some b /\ In n (Bot.commands b))
  <-> (exists b, JsMap.get j bs = Some b
                 /\ (In n (Bot.commands b) \/ (j = i /\ n = c))).
Proof.
  destruct (string_dec j i) as [->|Hj].
  - destruct (JsMap.get i bs) as [b|] eqn:E.
    + destruct (@get_attach_same _ c _ _ E) as (b' & Hg & _ & Hin). split.
      * intros (b0 & Hg0 & Hn). rewrite Hg in Hg0. inversion Hg0; subst b0.
        exists b. split; [reflexivity|]. apply Hin in Hn.
        destruct Hn; auto.
      * intros (b0 & Hg0 & Hn). inversion Hg0; subst b0.
        exists b'. split; [exact Hg|]. apply Hin.
        destruct Hn as [Hn|[_ ->]]; auto.
    + rewrite (@get_attach_none _ c _ E), E.
      split; intros (b0 & Hg0 & _); discriminate.
  - rewrite get_attach_other by exact Hj.
    split; intros (b & Hg & Hn); exists b; (split; [exact Hg|]); auto.
    destruct Hn as [Hn|[E _]]; [exact Hn|contradiction].
Qed.

Lemma owns_remove_bots (i c : string) (bs : JsMap.t Bot.t) (j n : string) :
  (exists b, JsMap.get j (remove_bots i c bs) = Some b /\ In n (Bot.commands b))
  <-> (exists b, JsMap.get j bs = Some b
                 /\ In n (Bot.commands b) /\ ~ (j = i /\ n = c)).
Proof.
  destruct (string_dec j i) as [->|Hj].
  - destruct (JsMap.get i bs) as [b|] eqn:E.
    + destruct (@get_remove_same _ c _ _ E) as (b' & Hg & _ & Hin). split.
      * intros (b0 & Hg0 & Hn). rewrite Hg in Hg0. inversion Hg0; subst b0.
        exists b. split; [reflexivity|]. apply Hin in Hn.
        destruct Hn as [Hn Hne]. split; [exact Hn|]. intros [_ Hc]. congruence.
      * intros (b0 & Hg0 & Hn & Hne). inversion Hg0; subst b0.
        exists b'. split; [exact Hg|]. apply Hin. split; [exact Hn|].
        intros Hc. apply Hne. auto.
    + rewrite (@get_remove_none _ c _ E), E.
      split; intros (b0 & Hg0 & _); discriminate.
  - rewrite get_remove_other by exact Hj.
    split.
    + intros (b & Hg & Hn). exists b. split; [exact Hg|]. split; [exact Hn|].
      intros [E _]. contradiction.
    + intros (b & Hg & Hn & _). exists b. auto.
Qed.

(** C3, amended. Take a world where every bot is stored under its id,
    every definition is linked with its owner (the owner the definition
    records has the name among its commands, and an owned name has a
    definition that records this owner) and every key of the registry is
    normalized. There a name is in the registry if and only if exactly one
    identity owns it, and [createCommand] and [deleteCommand], whatever
    their outcome, lead to a world with the same properties. A creation
    that passes the three checks succeeds and adds the name to both
    structures: before, the name is in the registry and in no list; after,
    it is in the registry and in the list of the token's bot and of no
    other bot, and the other names are where they were. A creation that
    throws changes nothing. The deletion of a name of the registry
    succeeds and removes the name from both: before, it is in the registry
    and in its owner's list; after, it is in the registry no more and in
    no bot's list, and the other names are where they were. A deletion
    that returns [false] changes nothing. *)
Theorem createCommand_deleteCommand_keep_sync (host : Host) (w : World) :
  consistent w ->
  registry_keys_normalized w ->
  registry_in_sync w
  /\ (forall a now,
        consistent (snd (createCommand host a now w))
        /\ registry_keys_normalized (snd (createCommand host a now w))
        /\ registry_in_sync (snd (createCommand host a now w)))
  /\ (forall a now bot raw,
        getBotByToken (CreateCommand.token a) w = Some bot ->
        CreateCommand.command a = JsString raw ->
        raw <> "" ->
        JsMap.has (normalize raw) (commands w) = false ->
        exists m w',
          createCommand host a now w = (Normal m, w')
          /\ Meta.command m = normalize raw
          /\ Meta.ownerId m = Bot.id bot
          /\ JsMap.get (normalize raw) (commands w) = None
          /\ (forall i, ~ owns w i (normalize raw))
          /\ JsMap.get (normalize raw) (commands w') = Some m
          /\ owns w' (Bot.id bot) (normalize raw)
          /\ (forall i, owns w' i (normalize raw) -> i = Bot.id bot)
          /\ (forall n, n <> normalize raw ->
                JsMap.get n (commands w') = JsMap.get n (commands w)
                /\ forall i, owns w' i n <-> owns w i n))
  /\ (forall a now e w',
        createCommand host a now w = (Throw e, w') -> w' = w)
  /\ (forall name,
        consistent (snd (deleteCommand host name w))
        /\ registry_keys_normalized (snd (deleteCommand host name w))
        /\ registry_in_sync (snd (deleteCommand host name w)))
  /\ (forall n meta,
        JsMap.get n (commands w) = Some meta ->
        exists w',
          deleteCommand host (JsString n) w = (Normal true, w')
          /\ owns w (Meta.ownerId meta) n
          /\ JsMap.get n (commands w') = None
          /\ (forall i, ~ owns w' i n)
          /\ (forall k, k <> n ->
                JsMap.get k (commands w') = JsMap.get k (commands w)
                /\ forall i, owns w' i k <-> owns w i k))
  /\ (forall name w',
        deleteCommand host name w = (Normal false, w') -> w' = w).
Proof.
  intros Hw Hk.
  assert (Hcreate : forall a now, consistent (snd (createCommand host a now w))).
  { intros a now.
    destruct (createCommand host a now w) as [[m|e] w'] eqn:E; simpl.
    - destruct (createCommand_normal _ _ _ _ E)
        as (bot & raw & Ht & _ & _ & Hh & Hm & Hb & Hc).
      apply (@create_step_consistent w w' bot (normalize raw) m); auto.
      + apply (getBotByToken_stored _ (proj1 Hw) Ht).
      + now apply JsMapFacts.has_false.
      + subst m. reflexivity.
    - apply createCommand_throw in E. destruct E as [-> _]. exact Hw. }
  assert (Hdelete : forall name, consistent (snd (deleteCommand host name w))).
  { intros name.
    destruct (JsMap.get (toLowerCase (String_ name)) (commands w))
      as [meta|] eqn:E.
    - destruct (deleteCommand_found host name w E) as [d ->]. simpl.
      apply (@delete_step_consistent w _ (toLowerCase (String_ name)) meta);
        auto.
    - unfold deleteCommand. run. rewrite E. exact Hw. }
  destruct Hw as (K & I1 & I2).
  split; [apply consistent_in_sync; repeat split; assumption|].
  split.
  { intros a now. split; [apply Hcreate|].
    split; [now apply createCommand_keeps_keys_normalized|].
    apply consistent_in_sync, Hcreate. }
  split.
  { intros a now bot raw Ht Hc Hr Hh.
    destruct (createCommand_success host a now w Ht Hc Hr Hh) as [d E].
    assert (Hfree : JsMap.get (normalize raw) (commands w) = None)
      by now apply JsMapFacts.has_false.
    assert (Hnone : forall i, ~ owns w i (normalize raw)).
    { intros i Ho. destruct (I2 _ _ Ho) as (m' & Hm' & _). congruence. }
    destruct (getBotByToken_stored _ K Ht) as [b0 Hb0].
    eexists. eexists. split; [exact E|]. unfold owns. simpl.
    split; [reflexivity|]. split; [reflexivity|].
    split; [exact Hfree|]. split; [exact Hnone|].
    split; [apply JsMapFacts.get_set_eq|].
    split; [apply owns_attach_bots; exists b0; auto|].
    split.
    - intros i Ho. apply owns_attach_bots in Ho.
      destruct Ho as (b & Hg & [Hin|[Hi _]]); [|exact Hi].
      elim (Hnone i). exists b. auto.
    - intros n Hn. split; [apply JsMapFacts.get_set_neq; congruence|].
      intros i. rewrite owns_attach_bots. split.
      + intros (b & Hg & [Hin|[_ Hc']]); [exists b; auto|contradiction].
      + intros (b & Hg & Hin). exists b. auto. }
  split.
  { intros a now e w' E. now apply createCommand_throw in E. }
  split.
  { intros name. split; [apply Hdelete|].
    split; [now apply deleteCommand_keeps_keys_normalized|].
    apply consistent_in_sync, Hdelete. }
  split.
  { intros n meta Hn.
    assert (Hlow : toLowerCase (String_ (JsString n)) = n).
    { simpl. rewrite <- (Hk n) at 1.
      - rewrite normalize_lower. apply Hk.
        apply JsMapFacts.in_keys. exists meta. now apply JsMapFacts.get_in.
      - apply JsMapFacts.in_keys. exists meta. now apply JsMapFacts.get_in. }
    assert (Hn' : JsMap.get (toLowerCase (String_ (JsString n))) (commands w)
                  = Some meta) by now rewrite Hlow.
    destruct (deleteCommand_found host (JsString n) w Hn') as [d E].
    rewrite Hlow in E.
    eexists. split; [exact E|]. unfold owns. simpl.
    split; [exact (I1 _ _ Hn)|].
    split; [apply JsMapFacts.get_delete_eq|].
    split.
    - intros i Ho. apply owns_remove_bots in Ho.
      destruct Ho as (b & Hg & Hin & Hne).
      destruct (I2 i n) as (m' & Hm' & Hi); [exists b; auto|].
      rewrite Hn in Hm'. inversion Hm'; subst m'. apply Hne. auto.
    - intros k Hkn. split; [apply JsMapFacts.get_delete_neq; congruence|].
      intros i. rewrite owns_remove_bots. split.
      + intros (b & Hg & Hin & _). exists b. auto.
      + intros (b & Hg & Hin). exists b. split; [exact Hg|].
        split; [exact Hin|]. intros [_ Hc]. contradiction. }
  intros name w' E.
  destruct (JsMap.get (toLowerCase (String_ name)) (commands w))
    as [meta|] eqn:Eg.
  - destruct (deleteCommand_found host name w Eg) as [d E'].
    rewrite E' in E. discriminate.
  - revert E. unfold deleteCommand. run. rewrite Eg.
    intros E. now inversion E.
Qed.

Lemma shop_world_consistent : consistent (shop_world host_json).
Proof.
  assert (B0 : bots (shop_world host_json)
               = [("1", Bot.mk "1" "Shop" "tok-shop" "admin"
                          (Some "http://x/hook") [] t0)]) by reflexivity.
  assert (C0 : commands (shop_world host_json) = []) by reflexivity.
  unfold consistent, bots_keyed_by_id, owner_linked, owns.
  rewrite B0, C0. repeat split.
  - intros k b [H|[]]. now inversion H.
  - discriminate.
  - intros i n (b & Hg & Hin). apply JsMapFacts.get_singleton in Hg.
    destruct Hg as [_ ->]. destruct Hin.
Defined.

Lemma shop_world_keys_normalized : registry_keys_normalized (shop_world host_json).
Proof. intros k Hin. destruct Hin. Defined.

Lemma createCommand_deleteCommand_keep_sync_witness :
  consistent (shop_world host_json)
  /\ registry_keys_normalized (shop_world host_json)
  /\ registry_in_sync (vip_world host_json)
  /\ JsMap.get "vip" (commands (shop_world host_json)) = None
  /\ JsMap.get "vip" (commands (vip_world host_json))
     = Some (Meta.mk "vip" "" "1" None true t1)
  /\ owns (vip_world host_json) "1" "vip"
  /\ (exists w',
        deleteCommand host_json (JsString "vip") (vip_world host_json)
        = (Normal true, w')
        /\ JsMap.get "vip" (commands w') = None
        /\ (forall i, ~ owns w' i "vip")
        /\ registry_in_sync w').
Proof.
  pose proof (createCommand_deleteCommand_keep_sync host_json
                shop_world_consistent shop_world_keys_normalized)
    as (_ & Hinv & Hadd & _).
  destruct (Hinv vip_args t1) as (Hvip & Hnorm & Hsync).
  destruct (Hadd vip_args t1
              (Bot.mk "1" "Shop" "tok-shop" "admin" (Some "http://x/hook")
                 [] t0) "/VIP" eq_refl eq_refl)
    as (m & w' & E & _ & _ & Hbefore & _ & Hafter & Hown & _);
    [discriminate|reflexivity|].
  assert (Ew : vip_world host_json = w') by (now inversion E).
  assert (Em : m = Meta.mk "vip" "" "1" None true t1) by (now inversion E).
  subst w' m.
  pose proof (createCommand_deleteCommand_keep_sync host_json Hvip Hnorm)
    as (_ & _ & _ & _ & Hdinv & Hdel & _).
  split; [exact shop_world_consistent|].
  split; [exact shop_world_keys_normalized|].
  split; [exact Hsync|].
  split; [exact Hbefore|].
  split; [exact Hafter|].
  split; [exact Hown|].
  destruct (Hdel "vip" (Meta.mk "vip" "" "1" None true t1) eq_refl)
    as (w2 & E2 & _ & Hgone & Hnobody & _).
  exists w2. split; [exact E2|]. split; [exact Hgone|].
  split; [exact Hnobody|].
  pose proof (f_equal snd E2) as E3. cbn [snd] in E3. rewrite <- E3.
  apply (Hdinv (JsString "vip")).
Defined.

(** *** The worlds a process reaches *)

(** [Number(String(n))] is [n]: the two conversions of the model agree on
    the ids [createBot] makes. *)
Lemma Number_num_to_string (n : N) : Number_ (num_to_string (Fin n)) = Fin n.
Proof.
  unfold Number_, num_to_string.
  assert (Hn : N.to_uint n <> Decimal.Nil).
  { destruct n; simpl; [discriminate|apply Unsigned.to_uint_nonnil]. }
  pose proof (NilZero.usu _ Hn) as H. unfold NilZero.uint_of_string in H.
  destruct (NilZero.string_of_uint (N.to_uint n)); [discriminate|].
  rewrite H. now rewrite DecimalN.Unsigned.of_to.
Qed.

Lemma num_to_string_inj (a b : N) :
  num_to_string (Fin a) = num_to_string (Fin b) -> a = b.
Proof.
  intros H. apply (f_equal Number_) in H.
  rewrite !Number_num_to_string in H. now inversion H.
Qed.

Lemma createBot_frame (host : Host) (name : string) (role webhook : option string)
    (tok now : string) (w : World) :
  exists bot d,
    Bot.id bot = num_to_string (nextId w)
    /\ Bot.commands bot = []
    /\ createBot host name role webhook tok now w
       = (Normal bot,
          Build_World (JsMap.set (Bot.id bot) bot (bots w))
            (num_succ (nextId w)) (commands w) d (trace w)).
Proof.
  unfold createBot. run.
  match goal with
  | |- context [saveToStorage host ?w1] =>
      destruct (saveToStorage_frame host w1) as [d ->]
  end.
  exists (Bot.mk (num_to_string (nextId w)) name tok
            (match role with Some r => r | None => "command_creator" end)
            (or_null webhook) [] now), d.
  repeat split.
Qed.

Section KeepsMaps.
Context {A B : Type}.

Lemma keeps_ret (a : A) : keeps_maps (ret a).
Proof. intros w. simpl. auto. Qed.

Lemma keeps_throw (e : Thrown) : keeps_maps (@throw A e).
Proof. intros w. simpl. auto. Qed.

Lemma keeps_gets (f : World -> A) : keeps_maps (gets f).
Proof. intros w. simpl. auto. Qed.

Lemma keeps_lift (c : Completion A) : keeps_maps (lift c).
Proof. intros w. simpl. auto. Qed.

Lemma keeps_bind (c : M A) (k : A -> M B) :
  keeps_maps c -> (forall a, keeps_maps (k a)) -> keeps_maps (bind c k).
Proof.
  intros Hc Hk w. unfold bind. specialize (Hc w).
  destruct (c w) as [[a|e] w1]; simpl in *; [|exact Hc].
  destruct (Hk a w1) as (E1 & E2 & E3). destruct Hc as (F1 & F2 & F3).
  rewrite E1, E2, E3. auto.
Qed.

Lemma keeps_try_catch (c : M A) (h : Thrown -> M A) :
  keeps_maps c -> (forall e, keeps_maps (h e)) -> keeps_maps (try_catch c h).
Proof.
  intros Hc Hh w. unfold try_catch. specialize (Hc w).
  destruct (c w) as [[a|e] w1]; simpl in *; [exact Hc|].
  destruct (Hh e w1) as (E1 & E2 & E3). destruct Hc as (F1 & F2 & F3).
  rewrite E1, E2, E3. auto.
Qed.

End KeepsMaps.

Lemma keeps_emit (ev : Event) : keeps_maps (emit ev).
Proof. intros w. simpl. auto. Qed.

Lemma keeps_message (e : Thrown) : keeps_maps (message e).
Proof. destruct e; intros w; simpl; auto. Qed.

Ltac keeps :=
  repeat first
    [ apply keeps_ret | apply keeps_throw | apply keeps_gets
    | apply keeps_lift | apply keeps_emit | apply keeps_message
    | apply keeps_bind | apply keeps_try_catch
    | match goal with
      | |- keeps_maps (match ?x with _ => _ end) => destruct x
      | |- forall _, _ => intro
      end ].

Lemma handlePlayerCommand_frame (host : Host) (ev : PlayerCommand.t)
    (now : string) : keeps_maps (handlePlayerCommand host ev now).
Proof.
  unfold handlePlayerCommand, _sendWebhook, logWarn, logErr. keeps.
Qed.

Lemma runCommandAsConsole_frame (host : Host) (cmd tok : string) :
  keeps_maps (runCommandAsConsole host cmd tok).
Proof. unfold runCommandAsConsole. keeps. Qed.

Lemma keys_attach (i c k : string) (bs : JsMap.t Bot.t) :
  In k (JsMap.keys (attach_bots i c bs)) -> In k (JsMap.keys bs).
Proof.
  unfold attach_bots. destruct (JsMap.get i bs) as [b|] eqn:E; [|auto].
  destruct (includes (Bot.commands b) c); [auto|].
  rewrite !JsMapFacts.in_keys. intros [v Hv].
  apply JsMapFacts.in_set in Hv. destruct Hv as [[-> _]|Hv]; [|eauto].
  exists b. now apply JsMapFacts.get_in.
Qed.

Lemma keys_remove (i c k : string) (bs : JsMap.t Bot.t) :
  In k (JsMap.keys (remove_bots i c bs)) -> In k (JsMap.keys bs).
Proof.
  unfold remove_bots. destruct (JsMap.get i bs) as [b|] eqn:E; [|auto].
  rewrite !JsMapFacts.in_keys. intros [v Hv].
  apply JsMapFacts.in_set in Hv. destruct Hv as [[-> _]|Hv]; [|eauto].
  exists b. now apply JsMapFacts.get_in.
Qed.

(** A new bot under an id nobody has keeps the world consistent. *)
Lemma createBot_step_consistent (w w' : World) (bot : Bot.t) :
  consistent w ->
  JsMap.get (Bot.id bot) (bots w) = None ->
  Bot.commands bot = [] ->
  bots w' = JsMap.set (Bot.id bot) bot (bots w) ->
  commands w' = commands w ->
  consistent w'.
Proof.
  intros (K & I1 & I2) Hfresh Hnil Hb Hc. split; [|split].
  - intros k b Hin. rewrite Hb in Hin. apply JsMapFacts.in_set in Hin.
    destruct Hin as [[-> ->]|Hin]; [reflexivity|now apply K].
  - intros n m Hm. rewrite Hc in Hm. destruct (I1 _ _ Hm) as (b & Hg & Hin).
    exists b. split; [|exact Hin]. rewrite Hb.
    rewrite JsMapFacts.get_set_neq; [exact Hg|]. intros E. congruence.
  - intros i n (b & Hg & Hin). rewrite Hb in Hg. rewrite Hc.
    destruct (string_dec (Bot.id bot) i) as [<-|E].
    + rewrite JsMapFacts.get_set_eq in Hg. inversion Hg; subst b.
      rewrite Hnil in Hin. destruct Hin.
    + rewrite JsMapFacts.get_set_neq in Hg by exact E.
      apply I2. exists b. auto.
Qed.

(** Every world a process reaches from a first start is consistent, gives
    ids below [nextId] and keeps the keys of the registry normalized; so
    the registry and the owned commands are in step in each of them. *)
Lemma reachable_consistent (host : Host) (w : World) :
  reachable host w ->
  consistent w /\ ids_below_nextId w /\ registry_keys_normalized w.
Proof.
  induction 1 as [|w name role webhook tok now Hr (Hc & (n & Hn & Hids) & Hk)
                  |w a now Hr (Hc & (n & Hn & Hids) & Hk)
                  |w name Hr (Hc & (n & Hn & Hids) & Hk)
                  |w ev now Hr (Hc & Hi & Hk)
                  |w cmd tok Hr (Hc & Hi & Hk)].
  - split; [|split].
    + split; [intros k b []|split].
      * intros n m Hm. discriminate.
      * intros i n (b & Hg & _). discriminate.
    + exists 1%N. split; [reflexivity|]. intros k [].
    + intros k [].
  - destruct (createBot_frame host name role webhook tok now w)
      as (bot & d & Hid & Hnil & ->). simpl.
    assert (Hfresh : JsMap.get (Bot.id bot) (bots w) = None).
    { destruct (JsMap.get (Bot.id bot) (bots w)) as [b|] eqn:E; [|reflexivity].
      apply JsMapFacts.get_in in E.
      destruct (Hids (Bot.id bot)) as (j & Hj & Ej);
        [apply JsMapFacts.in_keys; eauto|].
      rewrite Hid, Hn in Ej. apply num_to_string_inj in Ej. lia. }
    split; [|split].
    + now apply (@createBot_step_consistent w _ bot).
    + exists (n + 1)%N. simpl. rewrite Hn. split; [reflexivity|].
      intros k Hin. apply JsMapFacts.in_keys in Hin. destruct Hin as [v Hv].
      apply JsMapFacts.in_set in Hv. destruct Hv as [[-> _]|Hv].
      * exists n. split; [lia|]. now rewrite Hid, Hn.
      * destruct (Hids k) as (j & Hj & Ej);
          [apply JsMapFacts.in_keys; eauto|].
        exists j. split; [lia|exact Ej].
    + exact Hk.
  - split; [|split].
    + destruct (createCommand host a now w) as [[m|e] w'] eqn:E; simpl.
      * destruct (createCommand_normal _ _ _ _ E)
          as (bot & raw & Ht & _ & _ & Hh & Hm & Hb & Hcm).
        apply (@create_step_consistent w w' bot (normalize raw) m); auto.
        -- apply (getBotByToken_stored _ (proj1 Hc) Ht).
        -- now apply JsMapFacts.has_false.
        -- subst m. reflexivity.
      * apply createCommand_throw in E. destruct E as [-> _]. exact Hc.
    + destruct (createCommand host a now w) as [[m|e] w'] eqn:E; simpl.
      * destruct (createCommand_normal _ _ _ _ E)
          as (bot & raw & Ht & Hcmd & Hraw & Hh & _ & _ & _).
        destruct (createCommand_success host a now w Ht Hcmd Hraw Hh)
          as [d E']. rewrite E' in E. inversion E; subst. simpl.
        exists n. split; [exact Hn|].
        intros k Hin. apply Hids. now apply keys_attach in Hin.
      * apply createCommand_throw in E. destruct E as [-> _].
        exists n. auto.
    + now apply createCommand_keeps_keys_normalized.
  - split; [|split].
    + destruct (JsMap.get (toLowerCase (String_ name)) (commands w))
        as [meta|] eqn:E.
      * destruct (deleteCommand_found host name w E) as [d ->]. simpl.
        apply (@delete_step_consistent w _ (toLowerCase (String_ name)) meta);
          auto.
      * unfold deleteCommand. run. rewrite E. exact Hc.
    + destruct (JsMap.get (toLowerCase (String_ name)) (commands w))
        as [meta|] eqn:E.
      * destruct (deleteCommand_found host name w E) as [d ->]. simpl.
        exists n. split; [exact Hn|].
        intros k Hin. apply Hids. now apply keys_remove in Hin.
      * unfold deleteCommand. run. rewrite E. exists n. auto.
    + now apply deleteCommand_keeps_keys_normalized.
  - destruct (@handlePlayerCommand_frame host ev now w) as (Eb & En & Ec).
    unfold consistent, bots_keyed_by_id, owner_linked, owns,
      ids_below_nextId, registry_keys_normalized in *.
    rewrite Eb, En, Ec. auto.
  - destruct (@runCommandAsConsole_frame host cmd tok w) as (Eb & En & Ec).
    unfold consistent, bots_keyed_by_id, owner_linked, owns,
      ids_below_nextId, registry_keys_normalized in *.
    rewrite Eb, En, Ec. auto.
Qed.

Lemma reachable_in_sync (host : Host) (w : World) :
  reachable host w -> registry_in_sync w.
Proof.
  intros H. apply consistent_in_sync. now apply reachable_consistent in H.
Qed.

(** ** C1: saving and loading *)

Section Tables.
Variable V : Type.
Variable key_of : V -> string.

Lemma keys_app (m1 m2 : JsMap.t V) :
  JsMap.keys (m1 ++ m2) = JsMap.keys m1 ++ JsMap.keys m2.
Proof. unfold JsMap.keys. apply map_app. Qed.

(** REPLACE of rows with new, distinct keys adds them in order. *)
Lemma replace_all_fresh (m acc : list (string * V)) :
  NoDup (JsMap.keys acc ++ JsMap.keys m) ->
  fold_left (fun tbl '(k, v) => replace_into k v tbl) m acc = acc ++ m.
Proof.
  revert acc. induction m as [|[k v] m IH]; intros acc Hnd; simpl.
  - now rewrite app_nil_r.
  - unfold replace_into at 2. rewrite JsMapFacts.delete_fresh.
    + rewrite IH.
      * now rewrite <- app_assoc.
      * rewrite keys_app. simpl. now rewrite <- app_assoc.
    + simpl in Hnd. apply NoDup_remove_2 in Hnd.
      intros Hin. apply Hnd. apply in_or_app. now left.
Qed.

(** Loading rows with distinct keys, each stored under its own key,
    rebuilds the map in order. *)
Lemma set_all_fresh (m acc : JsMap.t V) :
  (forall k v, In (k, v) m -> key_of v = k) ->
  NoDup (JsMap.keys acc ++ JsMap.keys m) ->
  fold_left (fun mp v => JsMap.set (key_of v) v mp) (map snd m) acc = acc ++ m.
Proof.
  revert acc. induction m as [|[k v] m IH]; intros acc Hk Hnd; simpl.
  - now rewrite app_nil_r.
  - rewrite (Hk k v) by now left.
    rewrite JsMapFacts.set_fresh.
    + rewrite IH.
      * now rewrite <- app_assoc.
      * intros k' v' Hin. apply Hk. now right.
      * rewrite keys_app. simpl. now rewrite <- app_assoc.
    + simpl in Hnd. apply NoDup_remove_2 in Hnd.
      intros Hin. apply Hnd. apply in_or_app. now left.
Qed.

End Tables.

(** The structured-table backend, first save into an empty data
    directory: a new process loads the bots and the commands that were
    saved, entry for entry and in the same order. *)
Lemma sqlite_save_then_load (host : Host) (w : World) :
  sqlite3 host = true ->
  SQLITE_DB (disk w) = None ->
  NoDup (JsMap.keys (bots w)) -> bots_keyed_by_id w ->
  NoDup (JsMap.keys (commands w)) -> commands_keyed_by_name w ->
  bots (save_then_load host w) = bots w
  /\ commands (save_then_load host w) = commands w.
Proof.
  intros Hs Hd Nb Kb Nc Kc.
  unfold save_then_load, save_all, startup, new_BotManager, new_CommandProxy,
    saveToStorage, saveCommands, loadFromStorage, initPersistence.
  run. rewrite ?Hs, ?Hd. simpl. rewrite ?Hs, ?Hd. simpl.
  rewrite !replace_all_fresh by (simpl; assumption). simpl.
  unfold set_all_bots, set_all_commands, JsMap.empty.
  rewrite (set_all_fresh Bot.id) by (simpl; assumption).
  rewrite (set_all_fresh Meta.command) by (simpl; assumption).
  auto.
Qed.

(** The flat-document backend: both writers overwrite the one file
    [vynixc_commands.json], so what a new process loads is what the second
    writer left. After [saveToStorage] then [saveCommands] no bot is
    loaded and [nextId] starts again at 1. *)
Lemma json_save_then_load (host : Host) (w : World) :
  sqlite3 host = false ->
  bots (save_then_load host w) = []
  /\ nextId (save_then_load host w) = Fin 1
  /\ commands (save_then_load host w)
     = set_all_commands (JsMap.values (commands w)) [].
Proof.
  intros Hs.
  unfold save_then_load, save_all, startup, new_BotManager, new_CommandProxy,
    saveToStorage, saveCommands, loadFromStorage, initPersistence.
  run. rewrite ?Hs. simpl. rewrite ?Hs. simpl. auto.
Qed.

(** With the writers in the other order, no command is loaded. *)
Lemma json_save_commands_first_then_load (host : Host) (w : World) :
  sqlite3 host = false ->
  commands (snd (startup host (snd (save_all_commands_first host w)))) = []
  /\ bots (snd (startup host (snd (save_all_commands_first host w))))
     = set_all_bots (JsMap.values (bots w)) [].
Proof.
  intros Hs.
  unfold save_all_commands_first, startup, new_BotManager, new_CommandProxy,
    saveToStorage, saveCommands, loadFromStorage, initPersistence.
  run. rewrite ?Hs. simpl. rewrite ?Hs. simpl. auto.
Qed.

(** C1, on the code, flat-document backend. The world holds the shop bot
    and its command ["vip"]. Saving the full state and loading it in a new
    process gives back the command and no bot, and [nextId] is 1 again, so
    the next bot gets the id of the shop bot; with the writers in the other
    order the bot comes back and the command is lost. The file the last
    [createCommand] left holds the commands only. *)
Theorem json_backend_loses_bots :
  sqlite3 host_json = false
  /\ bots (vip_world host_json)
     = [("1", Bot.mk "1" "Shop" "tok-shop" "admin" (Some "http://x/hook")
                ["vip"] t0)]
  /\ nextId (vip_world host_json) = Fin 2
  /\ JSON_DB (disk (vip_world host_json))
     = Some (Build_JsonDoc None None
               (Some [Meta.mk "vip" "" "1" None true t1]))
  /\ bots (save_then_load host_json (vip_world host_json)) = []
  /\ nextId (save_then_load host_json (vip_world host_json)) = Fin 1
  /\ commands (save_then_load host_json (vip_world host_json))
     = commands (vip_world host_json)
  /\ commands (snd (startup host_json
                      (snd (save_all_commands_first host_json
                              (vip_world host_json))))) = []
  /\ bots (snd (startup host_json
                  (snd (save_all_commands_first host_json
                          (vip_world host_json)))))
     = bots (vip_world host_json).
Proof. repeat split. Qed.

(** The structured-table backend never deletes a row: a command that was
    deleted, and the state saved, is loaded again by the next process. *)
Example sqlite_deleted_command_returns :
  commands (snd (deleteCommand host_sqlite (JsString "vip")
                   (vip_world host_sqlite))) = []
  /\ commands (save_then_load host_sqlite
                 (snd (deleteCommand host_sqlite (JsString "vip")
                         (vip_world host_sqlite))))
     = [("vip", Meta.mk "vip" "" "1" None true t1)].
Proof. repeat split. Qed.

(** The structured-table backend on the same world, from an empty data
    directory: the bot and the command come back. *)
Example sqlite_shop_round_trip :
  bots (snd (startup host_sqlite (vip_world host_sqlite)))
  = bots (vip_world host_sqlite)
  /\ commands (snd (startup host_sqlite (vip_world host_sqlite)))
     = commands (vip_world host_sqlite)
  /\ nextId (snd (startup host_sqlite (vip_world host_sqlite)))
     = nextId (vip_world host_sqlite).
Proof. repeat split. Qed.

(** ** The scenario of the specification *)

(** The shop bot is created, then its command ["/VIP"] with the webhook
    enabled: the registry has the key ["vip"] with the bot's id as owner,
    and a player typing ["vip"] gets [true] and exactly one webhook post,
    with [command: "vip"]. *)
Example shop_vip_scenario :
  JsMap.get "vip" (commands (vip_world host_json))
  = Some (Meta.mk "vip" "" "1" None true t1)
  /\ getBotByToken "tok-shop" (vip_world host_json)
     = Some (Bot.mk "1" "Shop" "tok-shop" "admin" (Some "http://x/hook")
               ["vip"] t0)
  /\ fst (handlePlayerCommand host_json vip_event t1 (vip_world host_json))
     = Normal true
  /\ filter is_webhook
       (trace (snd (handlePlayerCommand host_json vip_event t1
                      (vip_world host_json))))
     = [EvFetch "http://x/hook"
          (Build_WebhookPayload "command_trigger" "vip" (JsNumber 1) "Ann" []
             (Meta.mk "vip" "" "1" None true t1) t1)].
Proof. repeat split. Qed.

(** After such a restart on the flat-document backend the registry holds a
    definition whose owner is gone: the two structures are out of step. *)
Example json_restart_breaks_sync :
  registry_in_sync (vip_world host_json)
  /\ ~ registry_in_sync (save_then_load host_json (vip_world host_json)).
Proof.
  split.
  - apply reachable_in_sync with (host := host_json).
    apply reach_createCommand. apply reach_createBot. apply reach_fresh.
  - intros H. destruct (H "vip") as [H1 _].
    destruct (H1 eq_refl) as (i & (b & Hg & _) & _). discriminate.
Qed.

(** * More of the program *)

(** ** Keys of a map *)

Section KeyFacts.
Variable V : Type.
Implicit Types (m : JsMap.t V) (k : string) (v : V).

Lemma keys_set_present m k v :
  In k (JsMap.keys m) -> JsMap.keys (JsMap.set k v m) = JsMap.keys m.
Proof.
  induction m as [|[k0 v0] m IH]; simpl; [intros []|].
  destruct (String.eqb_spec k k0) as [->|Hk]; simpl; [reflexivity|].
  intros [E|Hin]; [congruence|]. now rewrite IH.
Qed.

Lemma get_none_keys m k : JsMap.get k m = None <-> ~ In k (JsMap.keys m).
Proof.
  split.
  - intros Hg Hin. apply JsMapFacts.in_keys in Hin. destruct Hin as [v Hv].
    apply JsMapFacts.in_get in Hv. destruct Hv as [v' Hv']. congruence.
  - intros Hn. destruct (JsMap.get k m) as [v|] eqn:E; [|reflexivity].
    elim Hn. apply JsMapFacts.in_keys. exists v. now apply JsMapFacts.get_in.
Qed.

Lemma nodup_set m k v :
  NoDup (JsMap.keys m) -> NoDup (JsMap.keys (JsMap.set k v m)).
Proof.
  intros Hn. destruct (in_dec string_dec k (JsMap.keys m)) as [Hin|Hout].
  - now rewrite keys_set_present.
  - rewrite JsMapFacts.set_fresh by exact Hout.
    unfold JsMap.keys. rewrite map_app. simpl.
    apply NoDup_app; [exact Hn|repeat constructor; auto|].
    intros x Hx [<-|[]]. now apply Hout.
Qed.

Lemma keys_delete m k :
  JsMap.keys (JsMap.delete k m)
  = filter (fun x => negb (String.eqb k x)) (JsMap.keys m).
Proof.
  induction m as [|[k0 v0] m IH]; simpl; [reflexivity|].
  destruct (String.eqb k k0); simpl; now rewrite IH.
Qed.

Lemma nodup_delete m k :
  NoDup (JsMap.keys m) -> NoDup (JsMap.keys (JsMap.delete k m)).
Proof. intros Hn. rewrite keys_delete. now apply NoDup_filter. Qed.

Lemma nodup_in_get m k v :
  NoDup (JsMap.keys m) -> In (k, v) m -> JsMap.get k m = Some v.
Proof.
  induction m as [|[k0 v0] m IH]; simpl; [intros _ []|].
  intros Hn [E|Hin].
  - inversion E; subst. now rewrite String.eqb_refl.
  - inversion Hn as [|x l Hx Hl]; subst.
    destruct (String.eqb_spec k k0) as [->|Hk]; [|now apply IH].
    elim Hx. apply JsMapFacts.in_keys. eauto.
Qed.

(** Writing back under a key what differs from the stored value only in a
    way [f] does not see leaves the [f]-image of the values as it is. *)
Lemma map_values_set (W : Type) (f : V -> W) m k v v' :
  JsMap.get k m = Some v -> f v' = f v ->
  map f (JsMap.values (JsMap.set k v' m)) = map f (JsMap.values m).
Proof.
  intros Hg Hf. induction m as [|[k0 v0] m IH]; simpl in *; [discriminate|].
  destruct (String.eqb k k0); simpl.
  - inversion Hg; subst. now rewrite Hf.
  - now rewrite IH.
Qed.

Lemma set_same m k v : JsMap.get k m = Some v -> JsMap.set k v m = m.
Proof.
  induction m as [|[k0 v0] m IH]; simpl; [discriminate|].
  destruct (String.eqb_spec k k0) as [->|Hk].
  - intros E. now inversion E.
  - intros E. now rewrite IH.
Qed.

Lemma set_set m k v v' :
  JsMap.set k v' (JsMap.set k v m) = JsMap.set k v' m.
Proof.
  induction m as [|[k0 v0] m IH]; simpl.
  - now rewrite String.eqb_refl.
  - destruct (String.eqb k k0) eqn:E; simpl; rewrite E; [reflexivity|].
    now rewrite IH.
Qed.

Lemma delete_set_fresh m k v :
  JsMap.get k m = None -> JsMap.delete k (JsMap.set k v m) = m.
Proof.
  induction m as [|[k0 v0] m IH]; simpl.
  - now rewrite String.eqb_refl.
  - destruct (String.eqb k k0) eqn:E; [discriminate|]. simpl. rewrite E.
    intros H. now rewrite IH.
Qed.

End KeyFacts.

Lemma keys_attach_bots (i c : string) (bs : JsMap.t Bot.t) :
  JsMap.keys (attach_bots i c bs) = JsMap.keys bs.
Proof.
  unfold attach_bots. destruct (JsMap.get i bs) as [b|] eqn:E; [|reflexivity].
  destruct (includes (Bot.commands b) c); [reflexivity|].
  apply keys_set_present. apply JsMapFacts.in_keys. exists b.
  now apply JsMapFacts.get_in.
Qed.

Lemma keys_remove_bots (i c : string) (bs : JsMap.t Bot.t) :
  JsMap.keys (remove_bots i c bs) = JsMap.keys bs.
Proof.
  unfold remove_bots. destruct (JsMap.get i bs) as [b|] eqn:E; [|reflexivity].
  apply keys_set_present. apply JsMapFacts.in_keys. exists b.
  now apply JsMapFacts.get_in.
Qed.

(** In every world a process reaches no key occurs twice in a map. *)
Lemma reachable_nodup (host : Host) (w : World) :
  reachable host w ->
  NoDup (JsMap.keys (bots w)) /\ NoDup (JsMap.keys (commands w)).
Proof.
  induction 1 as [|w name role webhook tok now Hr [Hb Hc]
                  |w a now Hr [Hb Hc]
                  |w name Hr [Hb Hc]
                  |w ev now Hr [Hb Hc]
                  |w cmd tok Hr [Hb Hc]].
  - split; constructor.
  - destruct (createBot_frame host name role webhook tok now w)
      as (bot & d & _ & _ & ->). simpl. split; [now apply nodup_set|exact Hc].
  - destruct (createCommand host a now w) as [[m|e] w'] eqn:E; simpl.
    + destruct (createCommand_normal _ _ _ _ E)
        as (bot & raw & _ & _ & _ & _ & _ & Eb & Ec).
      rewrite Eb, Ec, keys_attach_bots. split; [exact Hb|now apply nodup_set].
    + apply createCommand_throw in E. destruct E as [-> _]. auto.
  - destruct (JsMap.get (toLowerCase (String_ name)) (commands w))
      as [meta|] eqn:E.
    + destruct (deleteCommand_found host name w E) as [d ->]. simpl.
      rewrite keys_remove_bots. split; [exact Hb|now apply nodup_delete].
    + unfold deleteCommand. run. rewrite E. auto.
  - destruct (@handlePlayerCommand_frame host ev now w) as (Eb & _ & Ec).
    now rewrite Eb, Ec.
  - destruct (@runCommandAsConsole_frame host cmd tok w) as (Eb & _ & Ec).
    now rewrite Eb, Ec.
Qed.

Lemma shop_world_reachable (host : Host) : reachable host (shop_world host).
Proof. apply reach_createBot. apply reach_fresh. Defined.

Lemma vip_world_reachable (host : Host) : reachable host (vip_world host).
Proof. apply reach_createCommand. apply shop_world_reachable. Defined.

(** ** BotManager *)

(** [createBot] in a running process always succeeds and adds one bot: the
    bot gets the id [String(nextId)], which no bot has yet, the given
    token, the role ["command_creator"] unless one is given and no
    commands; it goes last in the map, every earlier bot stays as it is,
    [nextId] moves on by one, the registry is untouched and the listing
    grows by the view of the new bot. *)
Theorem createBot_adds_a_new_bot (host : Host) (w : World) (name : string)
    (role webhook : option string) (tok now : string) :
  reachable host w ->
  exists bot w',
    createBot host name role webhook tok now w = (Normal bot, w')
    /\ bot = Bot.mk (num_to_string (nextId w)) name tok
               (match role with Some r => r | None => "command_creator" end)
               (or_null webhook) [] now
    /\ getBotById (Bot.id bot) w = None
    /\ bots w' = bots w ++ [(Bot.id bot, bot)]
    /\ nextId w' = num_succ (nextId w)
    /\ commands w' = commands w
    /\ listBots w' = listBots w ++ [bot_view bot].
Proof.
  intros Hr.
  destruct (reachable_consistent Hr) as (_ & (n & Hn & Hids) & _).
  set (bot := Bot.mk (num_to_string (nextId w)) name tok
                (match role with Some r => r | None => "command_creator" end)
                (or_null webhook) [] now).
  assert (Hfresh : ~ In (Bot.id bot) (JsMap.keys (bots w))).
  { intros Hin. destruct (Hids _ Hin) as (j & Hj & Ej). simpl in Ej.
    rewrite Hn in Ej. apply num_to_string_inj in Ej. lia. }
  unfold createBot. run.
  match goal with
  | |- context [saveToStorage host ?w1] =>
      destruct (saveToStorage_frame host w1) as [d ->]
  end.
  exists bot. eexists. split; [reflexivity|]. simpl.
  split; [reflexivity|].
  split; [now apply get_none_keys|].
  fold bot. change (num_to_string (nextId w)) with (Bot.id bot).
  rewrite JsMapFacts.set_fresh by exact Hfresh.
  repeat split. unfold listBots, JsMap.values. simpl.
  now rewrite !map_app.
Qed.

Lemma createBot_adds_a_new_bot_witness :
  reachable host_json (shop_world host_json)
  /\ exists bot w',
       createBot host_json "Guest" None (Some "") "tok-guest" t1
         (shop_world host_json) = (Normal bot, w')
       /\ bot = Bot.mk "2" "Guest" "tok-guest" "command_creator" None [] t1
       /\ getBotById (Bot.id bot) (shop_world host_json) = None
       /\ nextId w' = Fin 3.
Proof.
  split; [apply shop_world_reachable|].
  destruct (createBot_adds_a_new_bot "Guest" None (Some "") "tok-guest" t1
              (shop_world_reachable host_json))
    as (bot & w' & E & Hb & Hg & _ & Hn & _).
  exists bot, w'. repeat split; assumption.
Defined.

(** [getBotByToken] in a running process: a bot it returns has exactly the
    token asked for and is the object stored under its own id, the one
    [getBotById] and [attachCommandToBot] reach; it returns [null] exactly
    when no stored bot has the token. *)
Theorem getBotByToken_exact (host : Host) (w : World) (tok : string) :
  reachable host w ->
  (forall b, getBotByToken tok w = Some b ->
     Bot.token b = tok /\ getBotById (Bot.id b) w = Some b)
  /\ (getBotByToken tok w = None <->
      forall i b, getBotById i w = Some b -> Bot.token b <> tok).
Proof.
  intros Hr.
  destruct (reachable_consistent Hr) as ((K & _) & _ & _).
  destruct (reachable_nodup Hr) as [Nb _].
  unfold getBotByToken, getBotById. split; [|split].
  - intros b H. apply find_some in H. destruct H as [Hin Ht].
    apply String.eqb_eq in Ht. split; [exact Ht|].
    unfold JsMap.values in Hin. apply in_map_iff in Hin.
    destruct Hin as ([k b'] & E & Hin). simpl in E. subst b'.
    rewrite (K _ _ Hin). now apply nodup_in_get.
  - intros H i b Hg Ht.
    assert (Hf : String.eqb (Bot.token b) tok = false).
    { apply (find_none _ _ H b). unfold JsMap.values. apply in_map_iff.
      exists (i, b). split; [reflexivity|now apply JsMapFacts.get_in]. }
    apply String.eqb_neq in Hf. contradiction.
  - intros H.
    destruct (find _ (JsMap.values (bots w))) as [b|] eqn:E; [|reflexivity].
    apply find_some in E. destruct E as [Hin Ht].
    apply String.eqb_eq in Ht.
    unfold JsMap.values in Hin. apply in_map_iff in Hin.
    destruct Hin as ([k b'] & E & Hin). simpl in E. subst b'.
    elim (H k b); [now apply nodup_in_get|exact Ht].
Qed.

Lemma getBotByToken_exact_witness :
  reachable host_json (vip_world host_json)
  /\ getBotByToken "tok-shop" (vip_world host_json)
     = Some (Bot.mk "1" "Shop" "tok-shop" "admin" (Some "http://x/hook")
               ["vip"] t0)
  /\ getBotById "1" (vip_world host_json)
     = Some (Bot.mk "1" "Shop" "tok-shop" "admin" (Some "http://x/hook")
               ["vip"] t0)
  /\ getBotByToken "tok-sho" (vip_world host_json) = None.
Proof.
  split; [apply vip_world_reachable|].
  split; [reflexivity|].
  split.
  - apply (proj1 (getBotByToken_exact "tok-shop"
                    (vip_world_reachable host_json))
             (Bot.mk "1" "Shop" "tok-shop" "admin" (Some "http://x/hook")
                ["vip"] t0)).
    reflexivity.
  - reflexivity.
Defined.

Lemma attach_bots_idem (i c : string) (bs : JsMap.t Bot.t) :
  attach_bots i c (attach_bots i c bs) = attach_bots i c bs.
Proof.
  unfold attach_bots at 2. destruct (JsMap.get i bs) as [b|] eqn:E.
  - destruct (includes (Bot.commands b) c) eqn:Ei.
    + unfold attach_bots. now rewrite E, Ei.
    + unfold attach_bots. rewrite E, Ei, JsMapFacts.get_set_eq. simpl.
      replace (includes (Bot.commands b ++ [c]) c) with true; [reflexivity|].
      symmetry. apply includes_In. apply in_or_app. right. now left.
  - unfold attach_bots. now rewrite E.
Qed.

Lemma nodup_snoc (l : list string) (c : string) :
  NoDup l -> ~ In c l -> NoDup (l ++ [c]).
Proof.
  intros Hn Hc. apply NoDup_app; [exact Hn|repeat constructor; auto|].
  intros x Hx [<-|[]]. now apply Hc.
Qed.

(** [attachCommandToBot]: for an id no bot has it returns [false] and
    changes nothing; otherwise it returns [true], the bot's list gets the
    name at its end unless it is there already (so a list without
    repetition stays one), the registry is untouched, and a second call
    with the same arguments changes no bot. *)
Theorem attachCommandToBot_idempotent (host : Host) (i c : string) (w : World) :
  (getBotById i w = None ->
     attachCommandToBot host i c w = (Normal false, w))
  /\ (forall b, getBotById i w = Some b ->
        fst (attachCommandToBot host i c w) = Normal true
        /\ getBotById i (snd (attachCommandToBot host i c w))
           = Some (Bot.with_commands
                     (if includes (Bot.commands b) c then Bot.commands b
                      else Bot.commands b ++ [c]) b)
        /\ (NoDup (Bot.commands b) ->
            NoDup (if includes (Bot.commands b) c then Bot.commands b
                   else Bot.commands b ++ [c]))
        /\ commands (snd (attachCommandToBot host i c w)) = commands w
        /\ bots (snd (attachCommandToBot host i c
                        (snd (attachCommandToBot host i c w))))
           = bots (snd (attachCommandToBot host i c w))).
Proof.
  split.
  - intros H. unfold attachCommandToBot. run. now rewrite H.
  - intros b Hb.
    destruct (attachCommandToBot_frame host i c w) as (r & d & E).
    assert (Hr : r = true).
    { revert E. unfold attachCommandToBot. run. rewrite Hb.
      destruct (includes (Bot.commands b) c); simpl;
        match goal with
        | |- context [saveToStorage host ?w1] =>
            destruct (saveToStorage_frame host w1) as [d' ->]
        end; intros E; now inversion E. }
    subst r. rewrite E. simpl.
    destruct (attachCommandToBot_frame host i c
                (Build_World (attach_bots i c (bots w)) (nextId w)
                   (commands w) d (trace w))) as (r2 & d2 & E2).
    rewrite E2. simpl. rewrite attach_bots_idem.
    unfold getBotById in *. simpl. unfold attach_bots. rewrite Hb.
    destruct (includes (Bot.commands b) c) eqn:Ei.
    + repeat split; auto. rewrite Hb. now destruct b.
    + rewrite JsMapFacts.get_set_eq. repeat split; auto.
      intros Hn. apply nodup_snoc; [exact Hn|].
      intros Hin. apply includes_In in Hin. congruence.
Qed.

Lemma attachCommandToBot_idempotent_witness :
  getBotById "7" (shop_world host_json) = None
  /\ attachCommandToBot host_json "7" "heal" (shop_world host_json)
     = (Normal false, shop_world host_json)
  /\ getBotById "1" (vip_world host_json)
     = Some (Bot.mk "1" "Shop" "tok-shop" "admin" (Some "http://x/hook")
               ["vip"] t0)
  /\ getBotById "1"
       (snd (attachCommandToBot host_json "1" "heal" (vip_world host_json)))
     = Some (Bot.mk "1" "Shop" "tok-shop" "admin" (Some "http://x/hook")
               ["vip"; "heal"] t0)
  /\ NoDup ["vip"; "heal"].
Proof.
  pose proof (attachCommandToBot_idempotent host_json "7" "heal"
                (shop_world host_json)) as [Hnone _].
  pose proof (attachCommandToBot_idempotent host_json "1" "heal"
                (vip_world host_json)) as [_ Hsome].
  split; [reflexivity|].
  split; [apply Hnone; reflexivity|].
  split; [reflexivity|].
  destruct (Hsome _ eq_refl) as (_ & Hg & Hn & _).
  split; [exact Hg|].
  apply Hn. repeat constructor; simpl; auto.
Defined.

Lemma filter_out_absent (l : list string) (c : string) :
  ~ In c l -> filter (fun x => negb (String.eqb x c)) l = l.
Proof.
  induction l as [|x l IH]; simpl; [reflexivity|].
  intros H. destruct (String.eqb_spec x c) as [->|Hx]; simpl.
  - elim H. now left.
  - f_equal. apply IH. intros Hin. apply H. now right.
Qed.

Lemma filter_out_snoc (l : list string) (c : string) :
  ~ In c l -> filter (fun x => negb (String.eqb x c)) (l ++ [c]) = l.
Proof.
  intros H. rewrite filter_app, filter_out_absent by exact H. simpl.
  rewrite String.eqb_refl. simpl. apply app_nil_r.
Qed.

Lemma filter_out_idem (l : list string) (c : string) :
  filter (fun x => negb (String.eqb x c))
    (filter (fun x => negb (String.eqb x c)) l)
  = filter (fun x => negb (String.eqb x c)) l.
Proof.
  apply filter_out_absent. rewrite filter_In. intros [_ H].
  now rewrite String.eqb_refl in H.
Qed.

Lemma remove_bots_idem (i c : string) (bs : JsMap.t Bot.t) :
  remove_bots i c (remove_bots i c bs) = remove_bots i c bs.
Proof.
  unfold remove_bots. destruct (JsMap.get i bs) as [b|] eqn:E.
  - rewrite JsMapFacts.get_set_eq, set_set. simpl.
    now rewrite filter_out_idem.
  - now rewrite E.
Qed.

(** Removing a name that was just attached to a bot that did not have it
    gives back the map of bots. *)
Lemma remove_attach_bots (i c : string) (bs : JsMap.t Bot.t) :
  (forall b, JsMap.get i bs = Some b -> ~ In c (Bot.commands b)) ->
  remove_bots i c (attach_bots i c bs) = bs.
Proof.
  intros H. unfold attach_bots. destruct (JsMap.get i bs) as [b|] eqn:E.
  - specialize (H b eq_refl).
    replace (includes (Bot.commands b) c) with false.
    + unfold remove_bots. rewrite JsMapFacts.get_set_eq, set_set. simpl.
      rewrite filter_out_snoc by exact H.
      apply set_same. rewrite E. now destruct b.
    + symmetry. destruct (includes (Bot.commands b) c) eqn:Ei;
        [|reflexivity]. apply includes_In in Ei. contradiction.
  - unfold remove_bots. now rewrite E.
Qed.

(** [removeCommandFromBot]: for an id no bot has it returns [false] and
    changes nothing; otherwise it returns [true] and the bot's list is the
    old one without every occurrence of the name, the other names in
    their order; the registry is untouched, a second call changes no bot,
    and removing a name right after attaching it to a bot that did not
    have it gives back the bots as they were. *)
Theorem removeCommandFromBot_filters (host : Host) (i c : string) (w : World) :
  (getBotById i w = None ->
     removeCommandFromBot host i c w = (Normal false, w))
  /\ (forall b, getBotById i w = Some b ->
        fst (removeCommandFromBot host i c w) = Normal true
        /\ getBotById i (snd (removeCommandFromBot host i c w))
           = Some (Bot.with_commands
                     (filter (fun x => negb (String.eqb x c)) (Bot.commands b))
                     b)
        /\ ~ In c (filter (fun x => negb (String.eqb x c)) (Bot.commands b))
        /\ commands (snd (removeCommandFromBot host i c w)) = commands w
        /\ bots (snd (removeCommandFromBot host i c
                        (snd (removeCommandFromBot host i c w))))
           = bots (snd (removeCommandFromBot host i c w))
        /\ (~ In c (Bot.commands b) ->
            bots (snd (removeCommandFromBot host i c
                         (snd (attachCommandToBot host i c w))))
            = bots w)).
Proof.
  split.
  - intros H. unfold removeCommandFromBot. run. now rewrite H.
  - intros b Hb.
    destruct (removeCommandFromBot_frame host i c w) as (r & d & E).
    assert (Hr : r = true).
    { revert E. unfold removeCommandFromBot. run. rewrite Hb.
      match goal with
      | |- context [saveToStorage host ?w1] =>
          destruct (saveToStorage_frame host w1) as [d' ->]
      end. intros E; now inversion E. }
    subst r. rewrite E. simpl.
    destruct (removeCommandFromBot_frame host i c
                (Build_World (remove_bots i c (bots w)) (nextId w)
                   (commands w) d (trace w))) as (r2 & d2 & E2).
    rewrite E2. simpl. rewrite remove_bots_idem.
    destruct (attachCommandToBot_frame host i c w) as (r3 & d3 & E3).
    rewrite E3. simpl.
    destruct (removeCommandFromBot_frame host i c
                (Build_World (attach_bots i c (bots w)) (nextId w)
                   (commands w) d3 (trace w))) as (r4 & d4 & E4).
    rewrite E4. simpl.
    unfold getBotById in *. simpl.
    split; [reflexivity|]. split.
    { unfold remove_bots. rewrite Hb. apply JsMapFacts.get_set_eq. }
    split.
    { rewrite filter_In. intros [_ H]. now rewrite String.eqb_refl in H. }
    split; [reflexivity|]. split; [reflexivity|].
    intros Hc. apply remove_attach_bots. intros b' Hb'.
    rewrite Hb in Hb'. inversion Hb'; subst b'. exact Hc.
Qed.

Lemma removeCommandFromBot_filters_witness :
  getBotById "7" (vip_world host_json) = None
  /\ removeCommandFromBot host_json "7" "vip" (vip_world host_json)
     = (Normal false, vip_world host_json)
  /\ getBotById "1" (vip_world host_json)
     = Some (Bot.mk "1" "Shop" "tok-shop" "admin" (Some "http://x/hook")
               ["vip"] t0)
  /\ getBotById "1"
       (snd (removeCommandFromBot host_json "1" "vip" (vip_world host_json)))
     = Some (Bot.mk "1" "Shop" "tok-shop" "admin" (Some "http://x/hook")
               [] t0)
  /\ ~ In "heal" ["vip"]
  /\ bots (snd (removeCommandFromBot host_json "1" "heal"
                  (snd (attachCommandToBot host_json "1" "heal"
                          (vip_world host_json)))))
     = bots (vip_world host_json).
Proof.
  pose proof (removeCommandFromBot_filters host_json "7" "vip"
                (vip_world host_json)) as [Hnone _].
  pose proof (removeCommandFromBot_filters host_json "1" "vip"
                (vip_world host_json)) as [_ Hvip].
  pose proof (removeCommandFromBot_filters host_json "1" "heal"
                (vip_world host_json)) as [_ Hheal].
  assert (Hno : ~ In "heal" ["vip"]) by (intros [H|[]]; discriminate).
  split; [reflexivity|].
  split; [apply Hnone; reflexivity|].
  split; [reflexivity|].
  destruct (Hvip _ eq_refl) as (_ & Hg & _).
  split; [exact Hg|].
  split; [exact Hno|].
  destruct (Hheal _ eq_refl) as (_ & _ & _ & _ & _ & Hundo).
  apply Hundo. exact Hno.
Defined.

Lemma listBots_attach (i c : string) (bs : JsMap.t Bot.t) :
  map bot_view (JsMap.values (attach_bots i c bs))
  = map bot_view (JsMap.values bs).
Proof.
  unfold attach_bots. destruct (JsMap.get i bs) as [b|] eqn:E; [|reflexivity].
  destruct (includes (Bot.commands b) c); [reflexivity|].
  now apply map_values_set with (v := b).
Qed.

Lemma listBots_remove (i c : string) (bs : JsMap.t Bot.t) :
  map bot_view (JsMap.values (remove_bots i c bs))
  = map bot_view (JsMap.values bs).
Proof.
  unfold remove_bots. destruct (JsMap.get i bs) as [b|] eqn:E; [|reflexivity].
  now apply map_values_set with (v := b).
Qed.

(** [listBots] gives one view per bot, in the order of creation, and no
    operation on commands changes it: creating and deleting commands,
    attaching and removing names, dispatching a player command and running
    a console command leave the listing as it is. *)
Theorem listBots_ignores_commands (host : Host) (w : World) :
  length (listBots w) = length (bots w)
  /\ map bv_id (listBots w) = map Bot.id (JsMap.values (bots w))
  /\ (forall a now, listBots (snd (createCommand host a now w)) = listBots w)
  /\ (forall name, listBots (snd (deleteCommand host name w)) = listBots w)
  /\ (forall i c,
        listBots (snd (attachCommandToBot host i c w)) = listBots w
        /\ listBots (snd (removeCommandFromBot host i c w)) = listBots w)
  /\ (forall ev now,
        listBots (snd (handlePlayerCommand host ev now w)) = listBots w)
  /\ (forall cmd tok,
        listBots (snd (runCommandAsConsole host cmd tok w)) = listBots w).
Proof.
  unfold listBots. repeat split.
  - unfold JsMap.values. now rewrite !length_map.
  - rewrite map_map. reflexivity.
  - intros a now.
    destruct (createCommand host a now w) as [[m|e] w'] eqn:E; simpl.
    + destruct (createCommand_normal _ _ _ _ E)
        as (bot & raw & _ & _ & _ & _ & _ & Eb & _).
      rewrite Eb. apply listBots_attach.
    + apply createCommand_throw in E. now destruct E as [-> _].
  - intros name.
    destruct (JsMap.get (toLowerCase (String_ name)) (commands w))
      as [meta|] eqn:E.
    + destruct (deleteCommand_found host name w E) as [d ->]. simpl.
      apply listBots_remove.
    + unfold deleteCommand. run. now rewrite E.
  - destruct (attachCommandToBot_frame host i c w) as (r & d & ->).
    apply listBots_attach.
  - destruct (removeCommandFromBot_frame host i c w) as (r & d & ->).
    apply listBots_remove.
  - intros ev now.
    destruct (@handlePlayerCommand_frame host ev now w) as (-> & _). reflexivity.
  - intros cmd tok.
    destruct (@runCommandAsConsole_frame host cmd tok w) as (-> & _).
    reflexivity.
Qed.

(** ** CommandProxy: how the operations compose *)

(** In a consistent world [deleteCommand] undoes [createCommand]: deleting
    the name a successful creation returned succeeds and gives back the
    bots, the registry and [nextId] exactly as they were before the
    creation. *)
Theorem deleteCommand_undoes_createCommand (host : Host)
    (a : CreateCommand.t) (now : string) (w w1 : World) (m : Meta.t) :
  consistent w ->
  createCommand host a now w = (Normal m, w1) ->
  exists w2,
    deleteCommand host (JsString (Meta.command m)) w1 = (Normal true, w2)
    /\ bots w2 = bots w
    /\ commands w2 = commands w
    /\ nextId w2 = nextId w.
Proof.
  intros (K & I1 & I2) Hrun.
  destruct (createCommand_normal _ _ _ _ Hrun)
    as (bot & raw & Ht & Hc & Hr & Hh & Hm & _ & _).
  destruct (createCommand_success host a now w Ht Hc Hr Hh) as [d E].
  rewrite E in Hrun. inversion Hrun; subst m w1. clear Hrun.
  assert (Hfree : JsMap.get (normalize raw) (commands w) = None)
    by now apply JsMapFacts.has_false.
  assert (Hkey : toLowerCase (String_ (JsString (Meta.command
                   (new_meta a now bot raw)))) = normalize raw)
    by (simpl; apply normalize_lower).
  match goal with
  | |- context [deleteCommand host ?n ?w1] =>
      destruct (@deleteCommand_found host n w1 (new_meta a now bot raw))
        as [d2 E2]
  end.
  { rewrite Hkey. simpl. apply JsMapFacts.get_set_eq. }
  rewrite E2, Hkey. eexists. split; [reflexivity|]. simpl.
  split; [|split; [now apply delete_set_fresh|reflexivity]].
  apply remove_attach_bots. intros b Hb Hin.
  destruct (I2 (Bot.id bot) (normalize raw)) as (m' & Hm' & _);
    [exists b; auto|]. congruence.
Qed.

Lemma deleteCommand_undoes_createCommand_witness :
  consistent (shop_world host_json)
  /\ createCommand host_json vip_args t1 (shop_world host_json)
     = (Normal (Meta.mk "vip" "" "1" None true t1), vip_world host_json)
  /\ exists w2,
       deleteCommand host_json (JsString "vip") (vip_world host_json)
       = (Normal true, w2)
       /\ bots w2 = bots (shop_world host_json)
       /\ commands w2 = commands (shop_world host_json)
       /\ nextId w2 = nextId (shop_world host_json).
Proof.
  split; [exact shop_world_consistent|].
  split; [reflexivity|].
  exact (@deleteCommand_undoes_createCommand host_json vip_args t1
           (shop_world host_json) (vip_world host_json)
           (Meta.mk "vip" "" "1" None true t1)
           shop_world_consistent eq_refl).
Defined.

(** A token resolves exactly when some stored bot carries it. *)
Lemma getBotByToken_some_iff (tok : string) (w : World) :
  (exists b, getBotByToken tok w = Some b)
  <-> In tok (map Bot.token (JsMap.values (bots w))).
Proof.
  unfold getBotByToken. induction (JsMap.values (bots w)) as [|b l IH]; simpl.
  - split; [intros [b H]; discriminate|intros []].
  - destruct (String.eqb_spec (Bot.token b) tok) as [E|E].
    + split; [auto|eauto].
    + rewrite IH. split; [auto|]. intros [H|H]; [contradiction|exact H].
Qed.

Lemma tokens_remove_bots (i c : string) (bs : JsMap.t Bot.t) :
  map Bot.token (JsMap.values (remove_bots i c bs))
  = map Bot.token (JsMap.values bs).
Proof.
  unfold remove_bots. destruct (JsMap.get i bs) as [b|] eqn:E; [|reflexivity].
  now apply map_values_set with (v := b).
Qed.

(** A name that was deleted can be registered again: after a successful
    [deleteCommand], a [createCommand] whose token resolved before the
    deletion and whose non-empty name normalizes to the deleted key
    succeeds. *)
Theorem createCommand_after_deleteCommand (host : Host) (name : JsValue)
    (a : CreateCommand.t) (now : string) (w : World) (meta : Meta.t)
    (bot : Bot.t) (raw : string) :
  JsMap.get (toLowerCase (String_ name)) (commands w) = Some meta ->
  getBotByToken (CreateCommand.token a) w = Some bot ->
  CreateCommand.command a = JsString raw ->
  raw <> "" ->
  normalize raw = toLowerCase (String_ name) ->
  exists m w2,
    createCommand host a now (snd (deleteCommand host name w)) = (Normal m, w2)
    /\ Meta.command m = normalize raw
    /\ JsMap.get (normalize raw) (commands w2) = Some m.
Proof.
  intros Hget Ht Hc Hr Hn.
  destruct (deleteCommand_found host name w Hget) as [d ->]. simpl.
  match goal with
  | |- context [createCommand host a now ?x] => set (w1 := x)
  end.
  assert (Ht1 : exists b1, getBotByToken (CreateCommand.token a) w1 = Some b1).
  { apply getBotByToken_some_iff. unfold w1. simpl.
    rewrite tokens_remove_bots. apply getBotByToken_some_iff. eauto. }
  destruct Ht1 as [b1 Ht1].
  assert (Hh : JsMap.has (normalize raw) (commands w1) = false).
  { apply JsMapFacts.has_false. unfold w1. simpl. rewrite Hn.
    apply JsMapFacts.get_delete_eq. }
  destruct (createCommand_success host a now w1 Ht1 Hc Hr Hh) as [d2 E].
  rewrite E. eexists. eexists. split; [reflexivity|]. simpl.
  split; [reflexivity|apply JsMapFacts.get_set_eq].
Qed.

Lemma createCommand_after_deleteCommand_witness :
  JsMap.get (toLowerCase (String_ (JsString "VIP")))
    (commands (vip_world host_json))
  = Some (Meta.mk "vip" "" "1" None true t1)
  /\ getBotByToken "tok-shop" (vip_world host_json)
     = Some (Bot.mk "1" "Shop" "tok-shop" "admin" (Some "http://x/hook")
               ["vip"] t0)
  /\ normalize "/VIP" = toLowerCase (String_ (JsString "VIP"))
  /\ exists m w2,
       createCommand host_json vip_args t1
         (snd (deleteCommand host_json (JsString "VIP") (vip_world host_json)))
       = (Normal m, w2)
       /\ Meta.command m = "vip"
       /\ JsMap.get "vip" (commands w2) = Some m.
Proof.
  split; [reflexivity|]. split; [reflexivity|]. split; [reflexivity|].
  apply (@createCommand_after_deleteCommand host_json (JsString "VIP")
           vip_args t1 (vip_world host_json)
           (Meta.mk "vip" "" "1" None true t1)
           (Bot.mk "1" "Shop" "tok-shop" "admin" (Some "http://x/hook")
              ["vip"] t0) "/VIP");
    first [reflexivity | discriminate].
Defined.

(** In every world a process reaches, each definition is stored under its
    own name. *)
Lemma reachable_keyed_by_name (host : Host) (w : World) :
  reachable host w -> commands_keyed_by_name w.
Proof.
  induction 1 as [|w name role webhook tok now Hr IH
                  |w a now Hr IH |w name Hr IH
                  |w ev now Hr IH |w cmd tok Hr IH].
  - intros k c [].
  - destruct (createBot_frame host name role webhook tok now w)
      as (bot & d & _ & _ & ->). exact IH.
  - destruct (createCommand host a now w) as [[m|e] w'] eqn:E; simpl.
    + destruct (createCommand_normal _ _ _ _ E)
        as (bot & raw & _ & _ & _ & _ & Hm & _ & Ec).
      intros k c Hin. rewrite Ec in Hin. apply JsMapFacts.in_set in Hin.
      destruct Hin as [[-> ->]|Hin]; [now subst m|now apply IH].
    + apply createCommand_throw in E. now destruct E as [-> _].
  - destruct (JsMap.get (toLowerCase (String_ name)) (commands w))
      as [meta|] eqn:E.
    + destruct (deleteCommand_found host name w E) as [d ->].
      intros k c Hin. simpl in Hin. apply JsMapFacts.in_delete in Hin.
      now apply IH.
    + unfold deleteCommand. run. now rewrite E.
  - destruct (@handlePlayerCommand_frame host ev now w) as (_ & _ & Ec).
    unfold commands_keyed_by_name. now rewrite Ec.
  - destruct (@runCommandAsConsole_frame host cmd tok w) as (_ & _ & Ec).
    unfold commands_keyed_by_name. now rewrite Ec.
Qed.

Lemma values_delete_keyed (m : JsMap.t Meta.t) (k : string) :
  (forall k' c, In (k', c) m -> Meta.command c = k') ->
  map command_view (JsMap.values (JsMap.delete k m))
  = filter (fun v => negb (String.eqb k (cv_command v)))
      (map command_view (JsMap.values m)).
Proof.
  induction m as [|[k0 c0] m IH]; intros Hk; simpl; [reflexivity|].
  rewrite (Hk k0 c0) by now left.
  destruct (String.eqb k k0); simpl; rewrite IH; auto;
    intros k' c Hin; apply Hk; now right.
Qed.

(** [listCommands] follows the registry of a running process: a
    successful creation adds the view of the new definition at the end, a
    failed one changes nothing, a deletion removes the views of the
    deleted name and keeps the others in their order, and the names in the
    listing are pairwise distinct. *)
Theorem listCommands_follows_registry (host : Host) (w : World) :
  reachable host w ->
  NoDup (map cv_command (listCommands w))
  /\ (forall a now m w',
        createCommand host a now w = (Normal m, w') ->
        listCommands w' = listCommands w ++ [command_view m])
  /\ (forall a now e w',
        createCommand host a now w = (Throw e, w') ->
        listCommands w' = listCommands w)
  /\ (forall name,
        listCommands (snd (deleteCommand host name w))
        = filter (fun v => negb (String.eqb (toLowerCase (String_ name))
                                   (cv_command v)))
            (listCommands w)).
Proof.
  intros Hr. pose proof (reachable_keyed_by_name Hr) as Hk.
  destruct (reachable_nodup Hr) as [_ Nc].
  unfold listCommands. repeat split.
  - replace (map cv_command (map command_view (JsMap.values (commands w))))
      with (JsMap.keys (commands w)); [exact Nc|].
    unfold JsMap.keys, JsMap.values. rewrite !map_map.
    apply map_ext_in. intros [k c] Hin. simpl. symmetry. now apply Hk.
  - intros a now m w' E.
    destruct (createCommand_normal _ _ _ _ E)
      as (bot & raw & _ & _ & _ & Hh & _ & _ & Ec).
    rewrite Ec, JsMapFacts.set_fresh.
    + unfold JsMap.values. now rewrite !map_app.
    + apply get_none_keys. now apply JsMapFacts.has_false.
  - intros a now e w' E. apply createCommand_throw in E.
    now destruct E as [-> _].
  - intros name.
    destruct (JsMap.get (toLowerCase (String_ name)) (commands w))
      as [meta|] eqn:E.
    + destruct (deleteCommand_found host name w E) as [d ->]. simpl.
      now apply values_delete_keyed.
    + replace (snd (deleteCommand host name w)) with w
        by (unfold deleteCommand; run; now rewrite E).
      rewrite <- values_delete_keyed by exact Hk.
      rewrite JsMapFacts.delete_fresh; [reflexivity|].
      now apply get_none_keys.
Qed.

Lemma listCommands_follows_registry_witness :
  reachable host_json (shop_world host_json)
  /\ createCommand host_json vip_args t1 (shop_world host_json)
     = (Normal (Meta.mk "vip" "" "1" None true t1), vip_world host_json)
  /\ listCommands (vip_world host_json)
     = listCommands (shop_world host_json)
       ++ [Build_CommandView "vip" "" "1" t1].
Proof.
  split; [apply shop_world_reachable|]. split; [reflexivity|].
  destruct (listCommands_follows_registry (shop_world_reachable host_json))
    as (_ & Hc & _).
  apply (Hc vip_args t1 (Meta.mk "vip" "" "1" None true t1)). reflexivity.
Defined.

(** ** Dispatch *)

(** One case split on a scrutinee that has no case split inside. *)
Ltac break_match :=
  match goal with
  | |- context [match ?x with _ => _ end] =>
      lazymatch x with
      | context [match _ with _ => _ end] => fail
      | _ => destruct x eqn:?
      end
  end.

Ltac dispatch_cases :=
  unfold handlePlayerCommand, _sendWebhook, getBotById, message; run;
  repeat (break_match; simpl).

(** [handlePlayerCommand] is contained: whatever the callback and the
    network do, it resolves (to [true] or [false]) and never rejects; it
    leaves the bots, [nextId], the registry and the files as they are; all
    it does is add events to the trace, among them at most one callback
    call and at most one webhook post; and it resolves to [true] only for
    a registered command. *)
Theorem handlePlayerCommand_contained (host : Host) (ev : PlayerCommand.t)
    (now : string) (w : World) :
  exists r evs,
    fst (handlePlayerCommand host ev now w) = Normal r
    /\ bots (snd (handlePlayerCommand host ev now w)) = bots w
    /\ nextId (snd (handlePlayerCommand host ev now w)) = nextId w
    /\ commands (snd (handlePlayerCommand host ev now w)) = commands w
    /\ disk (snd (handlePlayerCommand host ev now w)) = disk w
    /\ trace (snd (handlePlayerCommand host ev now w)) = trace w ++ evs
    /\ length (filter is_callback evs) <= 1
    /\ length (filter is_webhook evs) <= 1
    /\ (r = true ->
        JsMap.get (normalize (String_ (PlayerCommand.commandName ev)))
          (commands w) <> None).
Proof.
  assert (Hreg : forall r,
            fst (handlePlayerCommand host ev now w) = Normal r ->
            r = true ->
            JsMap.get (normalize (String_ (PlayerCommand.commandName ev)))
              (commands w) <> None).
  { intros r Hr -> Hnone.
    revert Hr. unfold handlePlayerCommand, getCommand. run.
    fold (normalize (String_ (PlayerCommand.commandName ev))).
    rewrite normalize_lower, Hnone. simpl. discriminate. }
  destruct (fst (handlePlayerCommand host ev now w)) as [r|e] eqn:Er.
  - exists r. specialize (Hreg r eq_refl). revert Er Hreg.
    dispatch_cases; intros Er Hreg;
      (eexists;
       split; [reflexivity|]; split; [reflexivity|]; split; [reflexivity|];
       split; [reflexivity|]; split; [reflexivity|];
       split; [first [ rewrite <- ?app_assoc; reflexivity
                     | symmetry; apply app_nil_r ]|];
       split; [simpl; lia|]; split; [simpl; lia|exact Hreg]).
  - exfalso. revert Er. dispatch_cases; discriminate.
Qed.

Ltac nullish_absurd Hcb Hnet :=
  exfalso;
  match goal with
  | Hc : kainure_callCallback _ = Some ?c, H : ?c _ _ = Throw ?e |- _ =>
      first [ destruct (Hcb _ _ _ _ Hc H)
            | destruct (Hcb _ _ _ _ eq_refl H) ]; congruence
  | Hf : fetchAPI _ = Some ?f, H : ?f ?u ?p = Throw ?e |- _ =>
      let N := fresh in
      pose proof (Hnet u p e) as N; unfold transport in N; rewrite Hf in N;
      destruct (N H); congruence
  | Hf : fetchAPI _ = None, H : curl _ ?u ?p = Throw ?e |- _ =>
      let N := fresh in
      pose proof (Hnet u p e) as N; unfold transport in N; rewrite Hf in N;
      destruct (N H); congruence
  end.

Lemma handlePlayerCommand_registered (host : Host)
    (ev : PlayerCommand.t) (now : string) (w : World) (meta : Meta.t) :
  (forall call cb p e,
     kainure_callCallback host = Some call -> call cb p = Throw e ->
     not_nullish e) ->
  (forall url p e, transport host url p = Throw e -> not_nullish e) ->
  JsMap.get (normalize (String_ (PlayerCommand.commandName ev))) (commands w)
  = Some meta ->
  fst (handlePlayerCommand host ev now w) = Normal true.
Proof.
  intros Hcb Hnet Hget.
  unfold handlePlayerCommand, getCommand. run.
  fold (normalize (String_ (PlayerCommand.commandName ev))).
  rewrite normalize_lower, Hget.
  unfold _sendWebhook, getBotById, message. run.
  repeat (break_match; simpl);
    first [reflexivity | nullish_absurd Hcb Hnet].
Qed.

(** When neither the callback nor the network rejects with [undefined] or
    [null], [handlePlayerCommand] resolves to [true] exactly for the
    registered commands and to [false] exactly for the others, whether the
    callback and the webhook succeed or fail. *)
Theorem handlePlayerCommand_reports_registration (host : Host)
    (ev : PlayerCommand.t) (now : string) (w : World) :
  (forall call cb p e,
     kainure_callCallback host = Some call -> call cb p = Throw e ->
     not_nullish e) ->
  (forall url p e, transport host url p = Throw e -> not_nullish e) ->
  (fst (handlePlayerCommand host ev now w) = Normal true
   <-> JsMap.get (normalize (String_ (PlayerCommand.commandName ev)))
         (commands w) <> None)
  /\ (fst (handlePlayerCommand host ev now w) = Normal false
      <-> JsMap.get (normalize (String_ (PlayerCommand.commandName ev)))
            (commands w) = None).
Proof.
  intros Hcb Hnet.
  destruct (JsMap.get (normalize (String_ (PlayerCommand.commandName ev)))
              (commands w)) as [meta|] eqn:Hget.
  - rewrite (@handlePlayerCommand_registered host ev now w meta Hcb Hnet Hget).
    split; split; congruence.
  - assert (E : fst (handlePlayerCommand host ev now w) = Normal false).
    { unfold handlePlayerCommand, getCommand. run.
      fold (normalize (String_ (PlayerCommand.commandName ev))).
      now rewrite normalize_lower, Hget. }
    rewrite E. split; split; congruence.
Qed.

Lemma host_offline_not_nullish :
  (forall call cb p e,
     kainure_callCallback host_offline = Some call -> call cb p = Throw e ->
     not_nullish e)
  /\ (forall url p e, transport host_offline url p = Throw e -> not_nullish e).
Proof.
  split.
  - intros call cb p e H. discriminate.
  - intros url p e H. inversion H. split; discriminate.
Defined.

Lemma handlePlayerCommand_reports_registration_witness :
  JsMap.get (normalize (String_ (PlayerCommand.commandName vip_event)))
    (commands (vip_world host_offline)) <> None
  /\ fst (handlePlayerCommand host_offline vip_event t1
            (vip_world host_offline)) = Normal true
  /\ filter is_webhook
       (trace (snd (handlePlayerCommand host_offline vip_event t1
                      (vip_world host_offline))))
     = [EvFetch "http://x/hook"
          (Build_WebhookPayload "command_trigger" "vip" (JsNumber 1) "Ann" []
             (Meta.mk "vip" "" "1" None true t1) t1)].
Proof.
  assert (Hreg : JsMap.get
                   (normalize (String_ (PlayerCommand.commandName vip_event)))
                   (commands (vip_world host_offline)) <> None)
    by discriminate.
  split; [exact Hreg|]. split; [|reflexivity].
  apply (proj1 (@handlePlayerCommand_reports_registration host_offline
                  vip_event t1 (vip_world host_offline)
                  (proj1 host_offline_not_nullish)
                  (proj2 host_offline_not_nullish))).
  exact Hreg.
Defined.

(** The webhook of a dispatch. For a registered command no post is made
    when the command has the webhook disabled, when its owner is not among
    the bots, or when the owner has no webhook URL, even if the command
    enables the webhook; when the webhook is enabled and the owner has a
    URL (and the callback does not reject with [undefined] or [null]),
    exactly one post is made, to that URL, with the command name, the
    player, the arguments, the definition and the timestamp. *)
Theorem handlePlayerCommand_webhook_gate (host : Host)
    (ev : PlayerCommand.t) (now : string) (w : World) (meta : Meta.t) :
  JsMap.get (normalize (String_ (PlayerCommand.commandName ev))) (commands w)
  = Some meta ->
  (Meta.webhook meta = false
   \/ getBotById (Meta.ownerId meta) w = None
   \/ (exists bot, getBotById (Meta.ownerId meta) w = Some bot
                   /\ or_null (Bot.webhook bot) = None) ->
   filter is_webhook (trace (snd (handlePlayerCommand host ev now w)))
   = filter is_webhook (trace w))
  /\ (forall bot url,
        Meta.webhook meta = true ->
        getBotById (Meta.ownerId meta) w = Some bot ->
        or_null (Bot.webhook bot) = Some url ->
        (forall call cb p e,
           kainure_callCallback host = Some call -> call cb p = Throw e ->
           not_nullish e) ->
        filter is_webhook (trace (snd (handlePlayerCommand host ev now w)))
        = filter is_webhook (trace w)
          ++ [post_event host url
                (Build_WebhookPayload "command_trigger" (Meta.command meta)
                   (PlayerCommand.playerId ev) (PlayerCommand.playerName ev)
                   (PlayerCommand.args ev) meta now)]).
Proof.
  intros Hget.
  split.
  - intros Hoff. unfold handlePlayerCommand, getCommand. run.
    fold (normalize (String_ (PlayerCommand.commandName ev))).
    rewrite normalize_lower, Hget.
    unfold _sendWebhook, getBotById, message in *. run.
    destruct Hoff as [Hoff|[Hoff|(bot & Hb & Hu)]];
      repeat (break_match; simpl);
      rewrite ?filter_app; simpl; rewrite ?app_nil_r;
      first [reflexivity | congruence].
  - intros bot url Hon Hb Hu Hcb.
    unfold handlePlayerCommand, getCommand. run.
    fold (normalize (String_ (PlayerCommand.commandName ev))).
    rewrite normalize_lower, Hget.
    unfold _sendWebhook, getBotById, message, post_event in *. run.
    repeat (break_match; simpl);
      rewrite ?filter_app; simpl; rewrite ?app_nil_r;
      first [reflexivity | congruence | nullish_absurd Hcb Hcb].
Qed.

Lemma handlePlayerCommand_webhook_gate_witness :
  JsMap.get (normalize (String_ (JsString "/"))) (commands (slash_world host_json))
  = Some (Meta.mk "" "" "1" None false t1)
  /\ filter is_webhook
       (trace (snd (handlePlayerCommand host_json
                      (PlayerCommand.mk (JsNumber 1) "Ann" (JsString "/") [])
                      t1 (slash_world host_json))))
     = filter is_webhook (trace (slash_world host_json))
  /\ JsMap.get (normalize (String_ (PlayerCommand.commandName vip_event)))
       (commands (vip_world host_json))
     = Some (Meta.mk "vip" "" "1" None true t1)
  /\ filter is_webhook
       (trace (snd (handlePlayerCommand host_json vip_event t1
                      (vip_world host_json))))
     = filter is_webhook (trace (vip_world host_json))
       ++ [EvFetch "http://x/hook"
             (Build_WebhookPayload "command_trigger" "vip" (JsNumber 1) "Ann"
                [] (Meta.mk "vip" "" "1" None true t1) t1)].
Proof.
  pose proof (@handlePlayerCommand_webhook_gate host_json
                (PlayerCommand.mk (JsNumber 1) "Ann" (JsString "/") []) t1
                (slash_world host_json) (Meta.mk "" "" "1" None false t1)
                eq_refl) as [Hoff _].
  pose proof (@handlePlayerCommand_webhook_gate host_json vip_event t1
                (vip_world host_json) (Meta.mk "vip" "" "1" None true t1)
                eq_refl) as [_ Hon].
  split; [reflexivity|].
  split; [apply Hoff; left; reflexivity|].
  split; [reflexivity|].
  apply (Hon (Bot.mk "1" "Shop" "tok-shop" "admin" (Some "http://x/hook")
                ["vip"] t0) "http://x/hook");
    try reflexivity.
  intros call cb p e H. discriminate.
Defined.

(** ** Console execution for the privileged roles *)

(** [runCommandAsConsole] for a bot with role ["admin"] or ["executor"].
    With a runtime hook the command goes to the hook and not to the shell,
    and the call completes as the hook does: what the hook returns is
    returned, what it throws is thrown unchanged. Without the hook the
    command goes to the shell: the output is returned, and a failure with
    a message [m] is thrown again as [Error("Exec error: " + m)], with
    ["unknown"] for an empty or missing message. The maps are not
    touched. *)
Theorem runCommandAsConsole_executes (host : Host) (cmd tok : string)
    (w : World) (bot : Bot.t) :
  getBotByToken tok w = Some bot ->
  Bot.role bot = "admin" \/ Bot.role bot = "executor" ->
  (forall exec,
     kainure_execConsoleCommand host = Some exec ->
     runCommandAsConsole host cmd tok w
     = (exec cmd, set_trace (trace w ++ [EvConsole cmd]) w))
  /\ (kainure_execConsoleCommand host = None ->
      (forall out,
         execSync host cmd = Normal out ->
         runCommandAsConsole host cmd tok w
         = (Normal out, set_trace (trace w ++ [EvShell cmd]) w))
      /\ (forall m,
            execSync host cmd = Throw (Error_ m) ->
            runCommandAsConsole host cmd tok w
            = (Throw (ExecutionError (if truthy_string m then m else "unknown")),
               set_trace (trace w ++ [EvShell cmd]) w))
      /\ (execSync host cmd = Throw ThrownValue ->
          runCommandAsConsole host cmd tok w
          = (Throw (ExecutionError "unknown"),
             set_trace (trace w ++ [EvShell cmd]) w))).
Proof.
  intros Ht Hr.
  assert (E : negb (includes ["admin"; "executor"] (Bot.role bot))
              && negb (String.eqb (Bot.role bot) "admin") = false)
    by (destruct Hr as [-> | ->]; reflexivity).
  unfold includes in E. simpl in E.
  split.
  - intros exec He. unfold runCommandAsConsole. run. rewrite Ht, E, He.
    simpl. now destruct (exec cmd).
  - intros He. repeat split.
    + intros out Ho. unfold runCommandAsConsole. run.
      now rewrite Ht, E, He, Ho.
    + intros m Hm. unfold runCommandAsConsole. run.
      rewrite Ht, E, He, Hm. simpl. unfold ExecutionError.
      now destruct m.
    + intros Hm. unfold runCommandAsConsole. run.
      now rewrite Ht, E, He, Hm.
Qed.

Lemma runCommandAsConsole_executes_witness :
  getBotByToken "tok-shop" (shop_world host_offline)
  = Some (Bot.mk "1" "Shop" "tok-shop" "admin" (Some "http://x/hook") [] t0)
  /\ runCommandAsConsole host_offline "say hi" "tok-shop"
       (shop_world host_offline)
     = (Normal "ran say hi",
        set_trace (trace (shop_world host_offline) ++ [EvConsole "say hi"])
          (shop_world host_offline))
  /\ kainure_execConsoleCommand host_json = None
  /\ runCommandAsConsole host_json "say hi" "tok-shop" (shop_world host_json)
     = (Normal "",
        set_trace (trace (shop_world host_json) ++ [EvShell "say hi"])
          (shop_world host_json)).
Proof.
  pose proof (@runCommandAsConsole_executes host_offline "say hi" "tok-shop"
                (shop_world host_offline)
                (Bot.mk "1" "Shop" "tok-shop" "admin" (Some "http://x/hook")
                   [] t0) eq_refl (or_introl eq_refl)) as [Hhook _].
  pose proof (@runCommandAsConsole_executes host_json "say hi" "tok-shop"
                (shop_world host_json)
                (Bot.mk "1" "Shop" "tok-shop" "admin" (Some "http://x/hook")
                   [] t0) eq_refl (or_introl eq_refl)) as [_ Hshell].
  split; [reflexivity|].
  split; [apply (Hhook (fun cmd => Normal (String.append "ran " cmd)));
          reflexivity|].
  split; [reflexivity|].
  destruct (Hshell eq_refl) as (Hout & _). apply Hout. reflexivity.
Defined.

(** ** Persistence *)

Section Rows.
Variables V W : Type.
Implicit Types (m : list (string * W)) (tbl : list (string * V)).

Lemma rows_without_nil tbl : rows_without (@nil (string * W)) tbl = tbl.
Proof.
  unfold rows_without. simpl. induction tbl as [|r tbl IH]; simpl; congruence.
Qed.

Lemma rows_without_cons m k (x : W) tbl :
  rows_without ((k, x) :: m) tbl = rows_without m (JsMap.delete k tbl).
Proof.
  unfold rows_without, includes. simpl.
  induction tbl as [|[k0 v0] tbl IH]; simpl; [reflexivity|].
  rewrite (String.eqb_sym k0 k).
  destruct (String.eqb k k0); simpl; rewrite IH; reflexivity.
Qed.

Lemma rows_without_app m tbl1 tbl2 :
  rows_without m (tbl1 ++ tbl2) = rows_without m tbl1 ++ rows_without m tbl2.
Proof. unfold rows_without. apply filter_app. Qed.

Lemma rows_without_fresh m k (v : V) :
  ~ In k (map fst m) -> rows_without m [(k, v)] = [(k, v)].
Proof.
  intros H. unfold rows_without. simpl.
  destruct (includes (map fst m) k) eqn:E; [|reflexivity].
  apply includes_In in E. contradiction.
Qed.

Lemma rows_without_idem m tbl :
  rows_without m (rows_without m tbl) = rows_without m tbl.
Proof.
  unfold rows_without. induction tbl as [|r tbl IH]; simpl; [reflexivity|].
  destruct (negb (includes (map fst m) (fst r))) eqn:E; simpl;
    [rewrite E, IH|]; auto.
Qed.

End Rows.

(** One REPLACE per entry of a map without repeated keys: the rows under
    other keys stay, in their order, and the entries follow, in theirs. *)
Lemma replace_all (V : Type) (m tbl : list (string * V)) :
  NoDup (map fst m) ->
  fold_left (fun t '(k, v) => replace_into k v t) m tbl
  = rows_without m tbl ++ m.
Proof.
  revert tbl. induction m as [|[k v] m IH]; intros tbl Hn; simpl.
  - now rewrite rows_without_nil, app_nil_r.
  - inversion Hn as [|x l Hk Hm]; subst.
    rewrite IH by exact Hm. unfold replace_into.
    rewrite rows_without_app, rows_without_fresh by exact Hk.
    rewrite <- app_assoc. simpl. f_equal. symmetry.
    apply rows_without_cons.
Qed.

Lemma rows_without_self (V : Type) (m : list (string * V)) :
  rows_without m m = [].
Proof.
  unfold rows_without.
  assert (H : forall l : list (string * V),
            (forall r, In r l -> In (fst r) (map fst m)) ->
            filter (fun row => negb (includes (map fst m) (fst row))) l = []).
  { induction l as [|r l IH]; intros Hl; simpl; [reflexivity|].
    replace (includes (map fst m) (fst r)) with true.
    - simpl. apply IH. intros r' Hr'. apply Hl. now right.
    - symmetry. apply includes_In. apply Hl. now left. }
  apply H. intros r Hr. now apply in_map.
Qed.

(** The structured-table backend only adds and replaces rows. After a
    full save, each table holds first the rows it had under keys that are
    no longer in memory, then one row per entry in memory: nothing is ever
    deleted from a table, and the JSON file is not touched. *)
Theorem sqlite_save_keeps_other_rows (host : Host) (w : World) (db : Sqlite) :
  sqlite3 host = true ->
  SQLITE_DB (disk w) = Some db ->
  NoDup (JsMap.keys (bots w)) ->
  NoDup (JsMap.keys (commands w)) ->
  disk (snd (save_all host w))
  = Build_Disk (JSON_DB (disk w))
      (Some (Build_Sqlite
               (rows_without (bots w) (tbl_bots db) ++ bots w)
               (rows_without (commands w) (tbl_commands db) ++ commands w))).
Proof.
  intros Hs Hd Nb Nc. unfold save_all, saveToStorage, saveCommands. run.
  rewrite ?Hs, ?Hd. simpl. rewrite ?Hs, ?Hd. simpl.
  now rewrite !replace_all by assumption.
Qed.

Lemma sqlite_save_keeps_other_rows_witness :
  sqlite3 host_sqlite = true
  /\ SQLITE_DB (disk (vip_world host_sqlite))
     = Some (Build_Sqlite (bots (vip_world host_sqlite))
               (commands (vip_world host_sqlite)))
  /\ tbl_commands
       (match SQLITE_DB
                (disk (snd (save_all host_sqlite
                              (snd (deleteCommand host_sqlite (JsString "vip")
                                      (vip_world host_sqlite))))))
        with Some db => db | None => Build_Sqlite [] [] end)
     = [("vip", Meta.mk "vip" "" "1" None true t1)].
Proof.
  split; [reflexivity|]. split; [reflexivity|].
  rewrite (@sqlite_save_keeps_other_rows host_sqlite
             (snd (deleteCommand host_sqlite (JsString "vip")
                     (vip_world host_sqlite)))
             (Build_Sqlite
                [("1", Bot.mk "1" "Shop" "tok-shop" "admin"
                         (Some "http://x/hook") [] t0)]
                [("vip", Meta.mk "vip" "" "1" None true t1)])
             eq_refl eq_refl).
  - reflexivity.
  - repeat constructor. simpl. intuition.
  - constructor.
Defined.

(** Saving is idempotent on both backends: a second full save right after
    the first leaves the files as the first left them, and no save
    changes the bots, [nextId], the registry or the trace. *)
Theorem save_all_idempotent (host : Host) (w : World) :
  NoDup (JsMap.keys (bots w)) ->
  NoDup (JsMap.keys (commands w)) ->
  disk (snd (save_all host (snd (save_all host w))))
  = disk (snd (save_all host w))
  /\ bots (snd (save_all host w)) = bots w
  /\ nextId (snd (save_all host w)) = nextId w
  /\ commands (snd (save_all host w)) = commands w
  /\ trace (snd (save_all host w)) = trace w.
Proof.
  intros Nb Nc. unfold save_all, saveToStorage, saveCommands. run.
  destruct (sqlite3 host) eqn:Hs; simpl; rewrite ?Hs; simpl;
    [|repeat split].
  repeat split. f_equal. f_equal.
  rewrite !replace_all by assumption.
  rewrite !rows_without_app, !rows_without_idem, !rows_without_self.
  now rewrite !app_nil_r.
Qed.

Lemma save_all_idempotent_witness :
  NoDup (JsMap.keys (bots (vip_world host_sqlite)))
  /\ NoDup (JsMap.keys (commands (vip_world host_sqlite)))
  /\ disk (snd (save_all host_sqlite (snd (save_all host_sqlite
                                             (vip_world host_sqlite)))))
     = disk (snd (save_all host_sqlite (vip_world host_sqlite))).
Proof.
  destruct (reachable_nodup (vip_world_reachable host_sqlite)) as [Nb Nc].
  split; [exact Nb|]. split; [exact Nc|].
  apply (proj1 (@save_all_idempotent host_sqlite _ Nb Nc)).
Defined.

(** On the flat-document backend each writer round-trips its own set as
    long as the other writer has not run since: after [saveToStorage] a
    new [BotManager] loads the bots, in their order, and [nextId]; after
    [saveCommands] a new [CommandProxy] loads the registry. *)
Theorem json_writers_round_trip (host : Host) (w : World) :
  sqlite3 host = false ->
  (NoDup (JsMap.keys (bots w)) ->
   bots_keyed_by_id w ->
   (exists n, nextId w = Fin n /\ n <> 0%N) ->
   bots (snd (new_BotManager host (snd (saveToStorage host w)))) = bots w
   /\ nextId (snd (new_BotManager host (snd (saveToStorage host w))))
      = nextId w)
  /\ (NoDup (JsMap.keys (commands w)) ->
      commands_keyed_by_name w ->
      commands (snd (new_CommandProxy host (snd (saveCommands host w))))
      = commands w).
Proof.
  intros Hs. split.
  - intros Nb Kb (n & Hn & Hn0).
    unfold new_BotManager, saveToStorage, loadFromStorage. run.
    rewrite ?Hs. simpl. rewrite ?Hs. simpl. rewrite Hn. simpl.
    unfold set_all_bots, JsMap.empty, JsMap.values.
    rewrite (set_all_fresh Bot.id) by (simpl; assumption). simpl.
    split; [reflexivity|]. apply N.eqb_neq in Hn0. now rewrite Hn0.
  - intros Nc Kc.
    unfold new_CommandProxy, saveCommands, initPersistence. run.
    rewrite ?Hs. simpl. rewrite ?Hs. simpl.
    unfold set_all_commands, JsMap.empty, JsMap.values.
    now rewrite (set_all_fresh Meta.command) by (simpl; assumption).
Qed.

Lemma json_writers_round_trip_witness :
  sqlite3 host_json = false
  /\ bots (snd (new_BotManager host_json
                  (snd (saveToStorage host_json (vip_world host_json)))))
     = bots (vip_world host_json)
  /\ nextId (snd (new_BotManager host_json
                    (snd (saveToStorage host_json (vip_world host_json)))))
     = Fin 2
  /\ commands (snd (new_CommandProxy host_json
                      (snd (saveCommands host_json (vip_world host_json)))))
     = commands (vip_world host_json).
Proof.
  destruct (reachable_nodup (vip_world_reachable host_json)) as [Nb Nc].
  destruct (reachable_consistent (vip_world_reachable host_json))
    as ((Kb & _) & _ & _).
  pose proof (reachable_keyed_by_name (vip_world_reachable host_json)) as Kc.
  destruct (@json_writers_round_trip host_json (vip_world host_json) eq_refl)
    as [Hbots Hcmds].
  split; [reflexivity|].
  destruct (Hbots Nb Kb) as [Eb En].
  { exists 2%N. split; [reflexivity|discriminate]. }
  split; [exact Eb|]. split; [exact En|].
  exact (Hcmds Nc Kc).
Defined.

Lemma sqlite_save_then_load_witness :
  sqlite3 host_sqlite = true
  /\ SQLITE_DB (disk (set_disk empty_disk (vip_world host_sqlite))) = None
  /\ bots (save_then_load host_sqlite
             (set_disk empty_disk (vip_world host_sqlite)))
     = bots (vip_world host_sqlite)
  /\ commands (save_then_load host_sqlite
                 (set_disk empty_disk (vip_world host_sqlite)))
     = commands (vip_world host_sqlite).
Proof.
  destruct (reachable_nodup (vip_world_reachable host_sqlite)) as [Nb Nc].
  destruct (reachable_consistent (vip_world_reachable host_sqlite))
    as ((Kb & _) & _ & _).
  pose proof (reachable_keyed_by_name (vip_world_reachable host_sqlite)) as Kc.
  split; [reflexivity|]. split; [reflexivity|].
  exact (@sqlite_save_then_load host_sqlite
           (set_disk empty_disk (vip_world host_sqlite))
           eq_refl eq_refl Nb Kb Nc Kc).
Defined.

Lemma load_nextId_bound (rows : list Bot.t) (a : N) :
  (a <= 9007199254740992)%N ->
  (forall b, In b rows ->
     exists j, Bot.id b = num_to_string (Fin j) /\ (j < 9007199254740992)%N) ->
  exists n,
    fold_left (fun nid bot => Math_max nid (num_succ (Number_ (Bot.id bot))))
      rows (Fin a) = Fin n
    /\ (a <= n)%N
    /\ (n <= 9007199254740992)%N
    /\ forall b j, In b rows -> Bot.id b = num_to_string (Fin j) -> (j < n)%N.
Proof.
  revert a. induction rows as [|b rows IH]; intros a Ha Hnum; simpl.
  - exists a. split; [reflexivity|]. split; [lia|]. split; [exact Ha|].
    intros b j [].
  - destruct (Hnum b (or_introl eq_refl)) as (j & Hj & Hjb).
    rewrite Hj, Number_num_to_string. simpl.
    destruct (IH (N.max a (j + 1))) as (n & E & Hle & Hub & Hlt).
    { lia. }
    { intros b' Hb'. apply Hnum. now right. }
    exists n. split; [exact E|]. split; [lia|]. split; [exact Hub|].
    intros b' j' [<-|Hin] Hid.
    + rewrite Hj in Hid. apply num_to_string_inj in Hid. lia.
    + now apply (Hlt b').
Qed.

(** The sqlite branch of the modelled loader is this callback on the rows
    of the table. *)
Lemma loadFromStorage_sqlite_rows (host : Host) (w : World) (db : Sqlite) :
  sqlite3 host = true ->
  SQLITE_DB (disk w) = Some db ->
  loadFromStorage host w = bots_rows_callback (map snd (tbl_bots db)) w.
Proof.
  intros Hs Hd. unfold loadFromStorage, bots_rows_callback, modify.
  now rewrite Hs, Hd.
Qed.

(** The row callback of the sqlite load, whenever it runs: when [nextId] is
    a number of at most 2^53 and the id of every row is a decimal number
    below 2^53 (so that [Number(id) + 1] is exact), the callback leaves
    [nextId] a number that is not below the old one, at most 2^53 and
    above the id of every row; so [String(nextId)] is the id of no row.
    The registry is not touched. *)
Theorem bots_rows_callback_nextId_above_ids (rows : list Bot.t) (w : World)
    (a : N) :
  nextId w = Fin a ->
  (a <= 9007199254740992)%N ->
  (forall b, In b rows ->
     exists j, Bot.id b = num_to_string (Fin j) /\ (j < 9007199254740992)%N) ->
  exists n,
    nextId (snd (bots_rows_callback rows w)) = Fin n
    /\ (a <= n)%N
    /\ (n <= 9007199254740992)%N
    /\ (forall b j, In b rows -> Bot.id b = num_to_string (Fin j) -> (j < n)%N)
    /\ (forall b, In b rows -> Bot.id b <> num_to_string (Fin n))
    /\ commands (snd (bots_rows_callback rows w)) = commands w.
Proof.
  intros Ha Hle Hnum. unfold bots_rows_callback. run. rewrite Ha.
  destruct (load_nextId_bound rows Hle Hnum) as (n & E & Hlo & Hub & Hlt).
  exists n. rewrite E. split; [reflexivity|]. split; [exact Hlo|].
  split; [exact Hub|]. split; [exact Hlt|]. split; [|reflexivity].
  intros b Hin Hid. pose proof (Hlt b n Hin Hid). lia.
Qed.

Lemma bots_rows_callback_nextId_above_ids_witness :
  nextId fresh_world = Fin 1
  /\ (1 <= 9007199254740992)%N
  /\ exists n,
       nextId (snd (bots_rows_callback
                      [Bot.mk "7" "Shop" "tok-shop" "admin" None [] t0]
                      fresh_world)) = Fin n
       /\ (forall b, In b [Bot.mk "7" "Shop" "tok-shop" "admin" None [] t0] ->
             Bot.id b <> num_to_string (Fin n)).
Proof.
  split; [reflexivity|]. split; [discriminate|].
  destruct (@bots_rows_callback_nextId_above_ids
              [Bot.mk "7" "Shop" "tok-shop" "admin" None [] t0]
              fresh_world 1 eq_refl)
    as (n & E & _ & _ & _ & Hne & _).
  - discriminate.
  - intros b [<-|[]]. exists 7%N. split; reflexivity.
  - exists n. split; assumption.
Defined.

(** ** The listeners of the runtime *)

Lemma append_nil_r (s : string) : String.append s EmptyString = s.
Proof. induction s as [|c s IH]; simpl; congruence. Qed.

Lemma append_assoc (a b c : string) :
  String.append (String.append a b) c = String.append a (String.append b c).
Proof. induction a as [|x a IH]; simpl; congruence. Qed.

Lemma replace_leading_slashes_idem (s : string) :
  replace_leading_slashes (replace_leading_slashes s)
  = replace_leading_slashes s.
Proof.
  induction s as [|c s IH]; [reflexivity|].
  destruct (ascii_dec c "/"%char) as [->|Hc]; [exact IH|].
  assert (E : replace_leading_slashes (String c s) = String c s).
  { simpl. destruct c as [[|] [|] [|] [|] [|] [|] [|] [|]];
      try reflexivity. now elim Hc. }
  now rewrite !E.
Qed.

Lemma is_word_cons (s : string) :
  is_word s ->
  exists c s', s = String c s' /\ is_ws c = false
               /\ forall x, In x (list_ascii_of_string s') -> is_ws x = false.
Proof.
  intros [Hne Hfree]. destruct s as [|c s']; [congruence|].
  exists c, s'. split; [reflexivity|]. split.
  - apply (Hfree c). now left.
  - intros x Hx. apply (Hfree x). now right.
Qed.

Lemma is_word_ws_free (s : string) :
  is_word s -> forall c, In c (list_ascii_of_string s) -> is_ws c = false.
Proof. intros [_ H] c Hc. now apply (H c). Qed.

Lemma split_ws_free (w : string) (cur rest : string) :
  (forall c, In c (list_ascii_of_string w) -> is_ws c = false) ->
  split_ws_from cur false (String.append w rest)
  = split_ws_from (String.append cur w) false rest.
Proof.
  revert cur. induction w as [|c w IH]; intros cur Hfree; simpl.
  - now rewrite append_nil_r.
  - rewrite (Hfree c) by now left.
    rewrite IH by (intros x Hx; apply Hfree; now right).
    now rewrite append_assoc.
Qed.

Lemma trimEnd_ws_free (w : string) :
  (forall c, In c (list_ascii_of_string w) -> is_ws c = false) ->
  trimEnd w = w.
Proof.
  induction w as [|c w IH]; intros Hfree; simpl; [reflexivity|].
  rewrite IH by (intros x Hx; apply Hfree; now right).
  destruct w; [|reflexivity]. now rewrite (Hfree c) by now left.
Qed.

Lemma trimEnd_before_word (s w : string) :
  is_word w -> trimEnd (String.append s w) = String.append s w.
Proof.
  intros Hw. induction s as [|a s IH]; simpl.
  - apply trimEnd_ws_free. now apply is_word_ws_free.
  - rewrite IH. destruct (String.append s w) eqn:E; [|reflexivity].
    destruct s; simpl in E; [|discriminate].
    destruct Hw as [Hne _]. congruence.
Qed.

Lemma concat_words_shape (w0 : string) (ws : list string) :
  is_word w0 -> Forall is_word ws ->
  (exists c s, String.concat " " (w0 :: ws) = String c s /\ is_ws c = false)
  /\ (exists s w, String.concat " " (w0 :: ws) = String.append s w
                  /\ is_word w).
Proof.
  intros H0 Hws. revert w0 H0.
  induction Hws as [|w1 ws H1 Hws IH]; intros w0 H0.
  - split.
    + destruct (is_word_cons H0) as (c & s & -> & Hc & _). simpl. eauto.
    + exists EmptyString, w0. auto.
  - split.
    + destruct (is_word_cons H0) as (c & s & -> & Hc & _). simpl. eauto.
    + destruct (IH w1 H1) as (_ & s & w & E & Hw).
      exists (String.append w0 (String.append " " s)), w.
      split; [|exact Hw].
      change (String.concat " " (w0 :: w1 :: ws))
        with (String.append w0
                (String.append " " (String.concat " " (w1 :: ws)))).
      now rewrite E, !append_assoc.
Qed.

Lemma split_concat_words (w0 : string) (ws : list string) :
  is_word w0 -> Forall is_word ws ->
  split_ws (String.concat " " (w0 :: ws)) = w0 :: ws.
Proof.
  intros H0 Hws. unfold split_ws. revert w0 H0.
  induction Hws as [|w1 ws H1 Hws IH]; intros w0 H0.
  - simpl. rewrite <- (append_nil_r w0) at 1.
    rewrite split_ws_free by now apply is_word_ws_free. reflexivity.
  - change (String.concat " " (w0 :: w1 :: ws))
      with (String.append w0
              (String.append " " (String.concat " " (w1 :: ws)))).
    rewrite split_ws_free by now apply is_word_ws_free.
    specialize (IH w1 H1).
    destruct (concat_words_shape H1 Hws) as ((c & s & E & Hc) & _).
    rewrite E in *. simpl in *. rewrite Hc in *. now f_equal.
Qed.

Lemma command_parts_concat (w0 : string) (ws : list string) :
  is_word w0 -> Forall is_word ws ->
  command_parts (JsString (String.concat " " (w0 :: ws))) = w0 :: ws.
Proof.
  intros H0 Hws. unfold command_parts.
  destruct (concat_words_shape H0 Hws)
    as ((c & s & E & Hc) & (s' & w & E' & Hw)).
  remember (String.concat " " (w0 :: ws)) as L eqn:EL.
  assert (T : truthy_string L = true) by (rewrite E; reflexivity).
  cbn [truthy]. rewrite T. cbn [String_]. unfold trim.
  replace (trimStart L) with L by (rewrite E; simpl; now rewrite Hc).
  rewrite E', trimEnd_before_word by exact Hw.
  rewrite <- E', EL. now apply split_concat_words.
Qed.

(** The words of a raw command line. The list is never empty, so its
    first element exists; a falsy line, and a line of ASCII white space
    only, gives the one empty word; and a line made of ASCII words (not
    empty, no white space) joined by single spaces gives back these
    words. *)
Theorem command_parts_words (rawCmd : JsValue) :
  command_parts rawCmd <> []
  /\ (truthy rawCmd = false -> command_parts rawCmd = [EmptyString])
  /\ (forall s, rawCmd = JsString s -> trim s = EmptyString ->
        command_parts rawCmd = [EmptyString])
  /\ (forall w0 ws,
        is_word w0 -> Forall is_word ws ->
        rawCmd = JsString (String.concat " " (w0 :: ws)) ->
        command_parts rawCmd = w0 :: ws).
Proof.
  repeat split.
  - unfold command_parts, split_ws.
    generalize (trim (String_ (if truthy rawCmd then rawCmd else JsString ""))).
    intros s. generalize EmptyString, false.
    induction s as [|c s IH]; intros cur b; simpl; [discriminate|].
    destruct (is_ws c); [destruct b|]; first [apply IH | discriminate].
  - intros H. unfold command_parts. now rewrite H.
  - intros s -> Hs. unfold command_parts. simpl.
    destruct (truthy_string s); simpl; [now rewrite Hs|reflexivity].
  - intros w0 ws H0 Hws ->. now apply command_parts_concat.
Qed.

Lemma command_parts_words_witness :
  truthy JsUndefined = false
  /\ command_parts JsUndefined = [EmptyString]
  /\ trim "  " = EmptyString
  /\ command_parts (JsString "  ") = [EmptyString]
  /\ is_word "/VIP" /\ Forall is_word ["gold"; "30"]
  /\ command_parts (JsString "/VIP gold 30") = ["/VIP"; "gold"; "30"].
Proof.
  assert (W : forall s, s <> EmptyString ->
              forallb (fun c => is_ascii c && negb (is_ws c))
                (list_ascii_of_string s) = true ->
              is_word s).
  { intros s Hs Hall. split; [exact Hs|]. intros c Hc.
    rewrite forallb_forall in Hall. apply Hall in Hc.
    apply andb_true_iff in Hc. destruct Hc as [Ha Hw].
    split; [exact Ha|now apply negb_true_iff in Hw]. }
  assert (H0 : is_word "/VIP") by (apply W; [discriminate|reflexivity]).
  assert (Hws : Forall is_word ["gold"; "30"])
    by (repeat (first [apply Forall_nil | apply Forall_cons]);
        apply W; first [discriminate|reflexivity]).
  split; [reflexivity|].
  split; [apply (proj1 (proj2 (command_parts_words JsUndefined))); reflexivity|].
  split; [reflexivity|].
  split; [apply (proj1 (proj2 (proj2 (command_parts_words (JsString "  "))))
                   "  "); reflexivity|].
  split; [exact H0|]. split; [exact Hws|].
  apply (proj2 (proj2 (proj2 (command_parts_words (JsString "/VIP gold 30"))))
           "/VIP" ["gold"; "30"] H0 Hws).
  reflexivity.
Defined.

(** The two listeners dispatch alike on ASCII input. A raw line of ASCII
    words joined by single spaces, handed to the listener of
    [registerCommandHandler], has the effect and the result of the event
    with the first word as command and the other words as arguments handed
    to the listener of ['playerCommand']; a falsy raw line is dispatched
    as the command with the empty name and no arguments. *)
Theorem commandHandler_listener_dispatch (host : Host) (playerId : JsValue)
    (playerName : string) (now : string) (w : World) :
  (forall raw args,
     is_word raw -> Forall is_word args ->
     commandHandler_listener host playerId playerName
       (JsString (String.concat " " (raw :: args))) now w
     = playerCommand_listener host
         (PlayerCommand.mk playerId playerName (JsString raw) args) now w)
  /\ (forall rawCmd,
        truthy rawCmd = false ->
        commandHandler_listener host playerId playerName rawCmd now w
        = playerCommand_listener host
            (PlayerCommand.mk playerId playerName (JsString EmptyString) [])
            now w).
Proof.
  split.
  - intros raw args Hr Ha.
    unfold commandHandler_listener, playerCommand_listener.
    rewrite (command_parts_concat Hr Ha). simpl hd. simpl tl.
    unfold handlePlayerCommand. simpl.
    now rewrite replace_leading_slashes_idem.
  - intros rawCmd H.
    unfold commandHandler_listener, playerCommand_listener, command_parts.
    rewrite H. reflexivity.
Qed.

Lemma is_word_check (s : string) :
  s <> EmptyString ->
  forallb (fun c => is_ascii c && negb (is_ws c)) (list_ascii_of_string s)
  = true ->
  is_word s.
Proof.
  intros Hs Hall. split; [exact Hs|]. intros c Hc.
  rewrite forallb_forall in Hall. apply Hall in Hc.
  apply andb_true_iff in Hc. destruct Hc as [Ha Hw].
  split; [exact Ha|now apply negb_true_iff in Hw].
Defined.

Lemma commandHandler_listener_dispatch_witness :
  is_word "/VIP" /\ Forall is_word ["gold"]
  /\ commandHandler_listener host_json (JsNumber 1) "Ann"
       (JsString "/VIP gold") t1 (vip_world host_json)
     = playerCommand_listener host_json
         (PlayerCommand.mk (JsNumber 1) "Ann" (JsString "/VIP") ["gold"])
         t1 (vip_world host_json)
  /\ filter is_webhook
       (trace (snd (commandHandler_listener host_json (JsNumber 1) "Ann"
                      (JsString "/VIP gold") t1 (vip_world host_json))))
     = [EvFetch "http://x/hook"
          (Build_WebhookPayload "command_trigger" "vip" (JsNumber 1) "Ann"
             ["gold"] (Meta.mk "vip" "" "1" None true t1) t1)].
Proof.
  assert (H0 : is_word "/VIP")
    by (apply is_word_check; [discriminate|reflexivity]).
  assert (Hws : Forall is_word ["gold"])
    by (repeat (first [apply Forall_nil | apply Forall_cons]);
        apply is_word_check; first [discriminate|reflexivity]).
  split; [exact H0|]. split; [exact Hws|]. split; [|reflexivity].
  exact (proj1 (commandHandler_listener_dispatch host_json (JsNumber 1) "Ann"
                  t1 (vip_world host_json)) "/VIP" ["gold"] H0 Hws).
Defined.

(** ** A process as a whole *)

(** Whatever sequence of [createBot], [createCommand], [deleteCommand],
    [handlePlayerCommand] and [runCommandAsConsole] a process runs after a
    first start, its world keeps these properties: no id and no command
    name occurs twice, every bot is stored under its id and every
    definition under its name, the ids are the decimal numbers below
    [nextId], the names are normalized, the owner of every definition
    exists and has the name among its commands, and a name is registered
    if and only if exactly one bot owns it. *)
Theorem process_invariants (host : Host) (w : World) :
  reachable host w ->
  NoDup (JsMap.keys (bots w))
  /\ NoDup (JsMap.keys (commands w))
  /\ bots_keyed_by_id w
  /\ commands_keyed_by_name w
  /\ ids_below_nextId w
  /\ registry_keys_normalized w
  /\ (forall n m, JsMap.get n (commands w) = Some m ->
        exists b, getBotById (Meta.ownerId m) w = Some b
                  /\ In n (Bot.commands b))
  /\ registry_in_sync w.
Proof.
  intros Hr.
  destruct (reachable_nodup Hr) as [Nb Nc].
  destruct (reachable_consistent Hr) as (Hc & Hi & Hk).
  pose proof (reachable_keyed_by_name Hr) as Kc.
  pose proof (consistent_in_sync Hc) as Hs.
  destruct Hc as (Kb & I1 & _).
  split; [exact Nb|]. split; [exact Nc|]. split; [exact Kb|].
  split; [exact Kc|]. split; [exact Hi|]. split; [exact Hk|].
  split; [|exact Hs].
  intros n m Hm. exact (I1 n m Hm).
Qed.

Lemma process_invariants_witness :
  reachable host_json
    (snd (deleteCommand host_json (JsString "vip")
            (snd (createBot host_json "Guest" None None "tok-guest" t1
                    (vip_world host_json)))))
  /\ registry_in_sync
       (snd (deleteCommand host_json (JsString "vip")
               (snd (createBot host_json "Guest" None None "tok-guest" t1
                       (vip_world host_json))))).
Proof.
  assert (R : reachable host_json
                (snd (deleteCommand host_json (JsString "vip")
                        (snd (createBot host_json "Guest" None None
                                "tok-guest" t1 (vip_world host_json))))))
    by (apply reach_deleteCommand, reach_createBot, vip_world_reachable).
  split; [exact R|].
  apply (process_invariants R).
Defined.

(** [createCommand] succeeds exactly when its three checks pass: the token
    resolves to a bot, the name is a non-empty string, and the normalized
    name is not registered. Then it returns the definition with the
    normalized name, the id of the token's bot as owner, an empty callback
    stored as [null], and it puts the definition last in the registry,
    leaves [nextId] alone and logs one line. *)
Theorem createCommand_succeeds_iff (host : Host) (a : CreateCommand.t)
    (now : string) (w : World) :
  ((exists m w', createCommand host a now w = (Normal m, w'))
   <-> exists bot raw,
         getBotByToken (CreateCommand.token a) w = Some bot
         /\ CreateCommand.command a = JsString raw
         /\ raw <> ""
         /\ JsMap.has (normalize raw) (commands w) = false)
  /\ (forall m w',
        createCommand host a now w = (Normal m, w') ->
        exists bot raw,
          getBotByToken (CreateCommand.token a) w = Some bot
          /\ CreateCommand.command a = JsString raw
          /\ m = Meta.mk (normalize raw) (CreateCommand.description a)
                   (Bot.id bot) (or_null (CreateCommand.callback a))
                   (CreateCommand.webhook a) now
          /\ commands w' = commands w ++ [(normalize raw, m)]
          /\ nextId w' = nextId w
          /\ trace w'
             = trace w
               ++ [EvLog Info ["Registering command in proxy:";
                               normalize raw]]).
Proof.
  split; [split|].
  - intros (m & w' & E).
    destruct (createCommand_normal _ _ _ _ E)
      as (bot & raw & Ht & Hc & Hr & Hh & _).
    exists bot, raw. auto.
  - intros (bot & raw & Ht & Hc & Hr & Hh).
    destruct (createCommand_success host a now w Ht Hc Hr Hh) as [d E].
    eauto.
  - intros m w' E.
    destruct (createCommand_normal _ _ _ _ E)
      as (bot & raw & Ht & Hc & Hr & Hh & Hm & _).
    destruct (createCommand_success host a now w Ht Hc Hr Hh) as [d E'].
    rewrite E' in E. inversion E; subst m w'. simpl.
    exists bot, raw. repeat split; auto.
    apply JsMapFacts.set_fresh. apply get_none_keys.
    now apply JsMapFacts.has_false.
Qed.

Lemma createCommand_succeeds_iff_witness :
  createCommand host_json vip_callback_args t1 (shop_world host_json)
  = (Normal vip_callback_meta, vip_callback_world host_json)
  /\ exists bot raw,
       getBotByToken "tok-shop" (shop_world host_json) = Some bot
       /\ CreateCommand.command vip_callback_args = JsString raw
       /\ vip_callback_meta
          = Meta.mk (normalize raw) "" (Bot.id bot) (Some "OnVipActivate")
              true t1
       /\ commands (vip_callback_world host_json)
          = commands (shop_world host_json)
            ++ [(normalize raw, vip_callback_meta)].
Proof.
  assert (E : createCommand host_json vip_callback_args t1
                (shop_world host_json)
              = (Normal vip_callback_meta, vip_callback_world host_json))
    by reflexivity.
  split; [exact E|].
  destruct (proj2 (createCommand_succeeds_iff host_json vip_callback_args t1
                     (shop_world host_json)) _ _ E)
    as (bot & raw & Ht & Hc & Hm & Hcmds & _).
  exists bot, raw. repeat split; assumption.
Defined.

(** A command that was created is dispatched under every spelling of its
    name: after a successful [createCommand], [handlePlayerCommand] with a
    name that has the same normalized form (any letter case, any number of
    leading slashes) resolves to [true], when neither the callback nor the
    network rejects with [undefined] or [null]. *)
Theorem created_command_is_dispatched (host : Host) (a : CreateCommand.t)
    (now : string) (w w' : World) (m : Meta.t) (raw : string)
    (ev : PlayerCommand.t) (now' : string) :
  createCommand host a now w = (Normal m, w') ->
  CreateCommand.command a = JsString raw ->
  normalize (String_ (PlayerCommand.commandName ev)) = normalize raw ->
  (forall call cb p e,
     kainure_callCallback host = Some call -> call cb p = Throw e ->
     not_nullish e) ->
  (forall url p e, transport host url p = Throw e -> not_nullish e) ->
  fst (handlePlayerCommand host ev now' w') = Normal true.
Proof.
  intros Hrun Hc Hn Hcb Hnet.
  destruct (createCommand_normal _ _ _ _ Hrun)
    as (bot & raw' & _ & Hc' & _ & _ & _ & _ & Hcmds).
  rewrite Hc in Hc'. inversion Hc'; subst raw'.
  apply (@handlePlayerCommand_registered host ev now' w' m Hcb Hnet).
  rewrite Hn, Hcmds. apply JsMapFacts.get_set_eq.
Qed.

Lemma created_command_is_dispatched_witness :
  createCommand host_offline vip_args t1 (shop_world host_offline)
  = (Normal (Meta.mk "vip" "" "1" None true t1), vip_world host_offline)
  /\ normalize (String_ (JsString "//Vip")) = normalize "/VIP"
  /\ fst (handlePlayerCommand host_offline
            (PlayerCommand.mk (JsNumber 1) "Ann" (JsString "//Vip") []) t1
            (vip_world host_offline))
     = Normal true.
Proof.
  split; [reflexivity|]. split; [reflexivity|].
  apply (@created_command_is_dispatched host_offline vip_args t1
           (shop_world host_offline) (vip_world host_offline)
           (Meta.mk "vip" "" "1" None true t1) "/VIP"
           (PlayerCommand.mk (JsNumber 1) "Ann" (JsString "//Vip") []) t1
           eq_refl eq_refl eq_refl
           (proj1 host_offline_not_nullish) (proj2 host_offline_not_nullish)).
Defined.

(** ** Normalization *)

Lemma lower_ascii_is_ascii (c : ascii) :
  is_ascii c = true -> is_ascii (lower_ascii c) = true.
Proof.
  destruct c as [[|] [|] [|] [|] [|] [|] [|] [|]]; vm_compute; congruence.
Qed.

Lemma in_replace_leading_slashes (s : string) (c : ascii) :
  In c (list_ascii_of_string (replace_leading_slashes s)) ->
  In c (list_ascii_of_string s).
Proof.
  induction s as [|x s IH]; [auto|].
  destruct (ascii_dec x "/"%char) as [->|Hx].
  - simpl. auto.
  - replace (replace_leading_slashes (String x s)) with (String x s); [auto|].
    simpl. destruct x as [[|] [|] [|] [|] [|] [|] [|] [|]];
      try reflexivity. now elim Hx.
Qed.

Lemma in_toLowerCase (s : string) (c : ascii) :
  In c (list_ascii_of_string (toLowerCase s)) ->
  exists c', In c' (list_ascii_of_string s) /\ c = lower_ascii c'.
Proof.
  induction s as [|x s IH]; simpl; [intros []|].
  intros [<-|H]; [eauto|]. destruct (IH H) as (c' & Hc' & ->). eauto.
Qed.

(** On names of ASCII characters, where [toLowerCase] maps the letters A
    to Z and nothing else, the normalization [createCommand] and
    [handlePlayerCommand] apply is idempotent, and its result is again
    ASCII, does not start with a slash and does not change under
    [toLowerCase]: a stored name is its own normalized form. *)
Theorem normalization_idempotent (s : string) :
  is_ascii_string s ->
  normalize (normalize s) = normalize s
  /\ replace_leading_slashes (normalize s) = normalize s
  /\ toLowerCase (normalize s) = normalize s
  /\ (forall t, normalize s <> String "/"%char t)
  /\ is_ascii_string (normalize s).
Proof.
  intros Hs.
  split; [apply normalize_idem|].
  split; [apply replace_leading_slashes_lower|].
  split; [apply normalize_lower|].
  split; [intros t; apply normalize_no_leading_slash|].
  intros c Hc. unfold normalize in Hc.
  apply in_toLowerCase in Hc. destruct Hc as (c' & Hc' & ->).
  apply lower_ascii_is_ascii, Hs. now apply in_replace_leading_slashes.
Qed.

Lemma normalization_idempotent_witness :
  is_ascii_string "//VIP"
  /\ normalize "//VIP" = "vip"
  /\ normalize (normalize "//VIP") = normalize "//VIP".
Proof.
  assert (H : is_ascii_string "//VIP").
  { intros c Hc. simpl in Hc.
    repeat (destruct Hc as [<-|Hc]; [reflexivity|]). destruct Hc. }
  split; [exact H|]. split; [reflexivity|].
  apply (proj1 (normalization_idempotent H)).
Defined.
